(** * Website analyzer: batch scoring of web pages

    A shallow embedding of [analyzer.py] (class [WebsiteRater]) together
    with the parts of the Python runtime and of the two libraries it calls
    ([requests], [bs4]) that its results depend on, followed by the
    properties its specification states about it.

    Layout: Python values and arithmetic ([Py]), parsed documents ([Bs4]),
    HTTP responses ([Requests]), the analyzer itself ([Rater]), the worker
    pool ([Executor]); then the lemmas, module by module. *)

From stdpp Require Import base list gmap strings pretty.
From Stdlib Require Import Ascii ZArith QArith Qround Qpower Qabs Lia Lqa.
From Stdlib Require PrimFloat FloatOps SpecFloat Uint63.

#[local] Set Warnings "-register-all".
#[local] Open Scope Q_scope.

(* ===================================================================== *)
(** ** Python values *)
(* ===================================================================== *)

Module Py.

(** *** Exceptions and fallible computations

    Every exception met in this program derives from [Exception]; an
    exception is kept as its class name and the text [str(e)] gives. *)

Record exn := Exn { exn_class : string; exn_msg : string }.

Definition str_exn (e : exn) : string := exn_msg e.

Inductive result (A : Type) : Type :=
| Ok (a : A)
| Raise (e : exn).
Arguments Ok {A} a.
Arguments Raise {A} e.

Definition bind {A B} (c : result A) (k : A -> result B) : result B :=
  match c with
  | Ok a => k a
  | Raise e => Raise e
  end.

Notation "'let*' x ':=' c 'in' k" := (bind c (fun x => k))
  (at level 10, x name, c at level 100, k at level 200).

Definition ZeroDivisionError (m : string) : exn := Exn "ZeroDivisionError" m.
Definition OverflowError (m : string) : exn := Exn "OverflowError" m.
Definition AttributeError (m : string) : exn := Exn "AttributeError" m.
Definition KeyError (m : string) : exn := Exn "KeyError" m.
Definition ValueError (m : string) : exn := Exn "ValueError" m.

(** *** Binary64 rounding

    A finite [float] is the rational it denotes.  [RN] rounds a rational to
    the nearest binary64 value, ties to even: 53 significant bits, gradual
    underflow below [2^-1022].  The exponent is left unbounded above; the
    operations below test the rounded magnitude against [2^1024]. *)

Definition pow2 (e : Z) : Q := Qpower 2 e.

(** [floor_log2 q] is the integer [k] with [2^k <= q < 2^(k+1)], for [0 < q]. *)
Definition floor_log2 (q : Q) : Z :=
  let k := (Z.log2 (Qnum q) - Z.log2 (Zpos (Qden q)))%Z in
  if Qle_bool (pow2 k) q then k else (k - 1)%Z.

(** Exponent of the last place of the binade that holds [q]. *)
Definition ulp_exp (q : Q) : Z := Z.max (floor_log2 (Qabs q) - 52) (-1074).

Definition round_half_even (q : Q) : Z :=
  let f := Qfloor q in
  match Qcompare (q - inject_Z f) (1 # 2) with
  | Lt => f
  | Gt => (f + 1)%Z
  | Eq => if Z.even f then f else (f + 1)%Z
  end.

Definition RN (q : Q) : Q :=
  if Qeq_bool q 0 then 0
  else
    let e := ulp_exp q in
    Qred (inject_Z (round_half_even (q / pow2 e)) * pow2 e).

(** Rocq's own binary64 floats, read as rationals, to compare [RN] with. *)
Definition Q_of_spec (f : SpecFloat.spec_float) : option Q :=
  match f with
  | SpecFloat.S754_zero _ => Some 0
  | SpecFloat.S754_finite s m e =>
      Some (Qred ((if s then -1 else 1) * inject_Z (Zpos m) * pow2 e))
  | _ => None
  end.

Definition Q_of_prim (f : PrimFloat.float) : option Q :=
  Q_of_spec (FloatOps.Prim2SF f).

Definition prim (n : Z) : PrimFloat.float := PrimFloat.of_uint63 (Uint63.of_Z n).

(** [f / 2^(60 n)]. *)
Fixpoint shrink (n : nat) (f : PrimFloat.float) : PrimFloat.float :=
  match n with
  | O => f
  | S n' => shrink n' (PrimFloat.div f (prim (2 ^ 60)))
  end.

(** [representable h]: [h] is an integer number of units in its last place. *)
Definition representable (h : Q) : Prop :=
  exists m : Z, h == inject_Z m * pow2 (ulp_exp h).

Definition too_large (q : Q) : bool := Qle_bool (pow2 1024) (Qabs q).

(** The largest finite binary64 value. *)
Definition max_double : Q := inject_Z ((2 ^ 53 - 1) * 2 ^ 971).

Definition is_neg (q : Q) : bool := negb (Qle_bool 0 q).

(** *** Floats and numbers

    The sign of a zero is not kept: nothing here prints a zero or divides by
    one without raising. *)

Inductive float :=
| Fin (q : Q)
| Inf (neg : bool)
| NaN.

Inductive num :=
| PInt (z : Z)
| PFloat (f : float).

(** A float literal such as [0.1] denotes the nearest binary64 value. *)
Definition lit (q : Q) : num := PFloat (Fin (RN q)).

(** Result of a float operation whose exact value is [q]. *)
Definition fround (q : Q) : float :=
  let r := RN q in
  if too_large r then Inf (is_neg q) else Fin r.

Definition fadd (a b : float) : float :=
  match a, b with
  | Fin x, Fin y => fround (x + y)
  | Fin _, Inf s | Inf s, Fin _ => Inf s
  | Inf s, Inf s' => if Bool.eqb s s' then Inf s else NaN
  | _, _ => NaN
  end.

Definition fmul (a b : float) : float :=
  match a, b with
  | Fin x, Fin y => fround (x * y)
  | Fin x, Inf s | Inf s, Fin x =>
      if Qeq_bool x 0 then NaN else Inf (xorb s (is_neg x))
  | Inf s, Inf s' => Inf (xorb s s')
  | _, _ => NaN
  end.

(** [float / float]; Python raises on a zero divisor instead of returning
    an infinity. *)
Definition fdiv (a b : float) : result float :=
  match a, b with
  | _, Fin y =>
      if Qeq_bool y 0 then Raise (ZeroDivisionError "float division by zero")
      else
        match a with
        | Fin x => Ok (fround (x / y))
        | Inf s => Ok (Inf (xorb s (is_neg y)))
        | NaN => Ok NaN
        end
  | Fin _, Inf _ => Ok (Fin 0)
  | _, _ => Ok NaN
  end.

(** [float(z)] for an int operand of a mixed operation. *)
Definition float_of_int (z : Z) : result float :=
  let r := RN (inject_Z z) in
  if too_large r then Raise (OverflowError "int too large to convert to float")
  else Ok (Fin r).

(** [a / b] on two ints: the exact quotient, rounded once. *)
Definition int_truediv (a b : Z) : result float :=
  if (b =? 0)%Z then Raise (ZeroDivisionError "division by zero")
  else
    let r := RN (inject_Z a / inject_Z b) in
    if too_large r
    then Raise (OverflowError "integer division result too large for a float")
    else Ok (Fin r).

Definition to_float (x : num) : result float :=
  match x with
  | PInt z => float_of_int z
  | PFloat f => Ok f
  end.

Definition add (x y : num) : result num :=
  match x, y with
  | PInt a, PInt b => Ok (PInt (a + b))
  | _, _ =>
      let* a := to_float x in
      let* b := to_float y in
      Ok (PFloat (fadd a b))
  end.

Definition mul (x y : num) : result num :=
  match x, y with
  | PInt a, PInt b => Ok (PInt (a * b))
  | _, _ =>
      let* a := to_float x in
      let* b := to_float y in
      Ok (PFloat (fmul a b))
  end.

Definition truediv (x y : num) : result num :=
  match x, y with
  | PInt a, PInt b => let* f := int_truediv a b in Ok (PFloat f)
  | _, _ =>
      let* a := to_float x in
      let* b := to_float y in
      let* f := fdiv a b in
      Ok (PFloat f)
  end.

(** [round(x, ndigits)]: the decimal nearest to the exact value of [x], ties
    to even, then the float nearest to that decimal.  An int is returned
    unchanged for [ndigits >= 0]. *)
Definition round (x : num) (ndigits : Z) : result num :=
  match x with
  | PInt z =>
      if (0 <=? ndigits)%Z then Ok (PInt z)
      else
        let p := (10 ^ (- ndigits))%Z in
        Ok (PInt (round_half_even (inject_Z z / inject_Z p) * p))
  | PFloat (Fin q) =>
      let p := Qpower 10 ndigits in
      let r := RN (inject_Z (round_half_even (q * p)) / p) in
      if too_large r
      then Raise (OverflowError "rounded value too large to represent")
      else Ok (PFloat (Fin r))
  | PFloat f => Ok (PFloat f)
  end.

(** Comparisons are exact, also between an int and a float; every
    comparison with a NaN is false. *)
Definition fle (a b : float) : bool :=
  match a, b with
  | NaN, _ | _, NaN => false
  | Fin x, Fin y => Qle_bool x y
  | Inf s, Inf s' => s || negb s'
  | Inf s, Fin _ => s
  | Fin _, Inf s => negb s
  end.

Definition flt (a b : float) : bool :=
  match a, b with
  | NaN, _ | _, NaN => false
  | _, _ => negb (fle b a)
  end.

Definition cmp_float (x : num) : float :=
  match x with
  | PInt z => Fin (inject_Z z)
  | PFloat f => f
  end.

Definition le (x y : num) : bool := fle (cmp_float x) (cmp_float y).
Definition lt (x y : num) : bool := flt (cmp_float x) (cmp_float y).
Definition ge (x y : num) : bool := le y x.

(** [min(x, y)]: the first of the smallest. *)
Definition min (x y : num) : num := if lt y x then y else x.

(** [sum(xs)]: start at the int [0], add left to right, as the language
    defines it.  (From CPython 3.12 on, a total of floats also carries an
    error-compensation term, which can change its last bit.) *)
Fixpoint sum_from (acc : num) (xs : list num) : result num :=
  match xs with
  | [] => Ok acc
  | x :: xs' => let* acc' := add acc x in sum_from acc' xs'
  end.

Definition sum (xs : list num) : result num := sum_from (PInt 0) xs.

Definition len {A} (xs : list A) : num := PInt (Z.of_nat (length xs)).

(** Truth value of a list and of a string. *)
Definition nonempty {A} (xs : list A) : bool :=
  match xs with [] => false | _ => true end.

Definition nonempty_str (s : string) : bool :=
  match s with EmptyString => false | _ => true end.

(** [needle in haystack] on strings. *)
Definition contains (needle haystack : string) : bool :=
  match String.index 0 needle haystack with
  | Some _ => true
  | None => false
  end.

(** A dict with string keys, in insertion order. *)
Definition dict (V : Type) : Type := list (string * V).

Definition values {V} (d : dict V) : list V := map snd d.

Fixpoint getitem {V} (d : dict V) (k : string) : result V :=
  match d with
  | [] => Raise (KeyError ("'" +:+ k +:+ "'"))
  | (k', v) :: d' => if String.eqb k' k then Ok v else getitem d' k
  end.

Fixpoint setitem {V} (d : dict V) (k : string) (v : V) : dict V :=
  match d with
  | [] => [(k, v)]
  | (k', v') :: d' =>
      if String.eqb k' k then (k', v) :: d' else (k', v') :: setitem d' k v
  end.

End Py.

Export Py.

(* ===================================================================== *)
(** ** Parsed documents ([bs4], parser [html.parser]) *)
(* ===================================================================== *)

Module Bs4.

(** A parsed document is the list of top-level nodes of the
    [BeautifulSoup] object.  Tag and attribute names are lower case, as
    [html.parser] delivers them; an attribute maps to its text. *)
Inductive node :=
| Tag (name : string) (attrs : gmap string string) (contents : list node)
| NavigableString (text : string).

Definition soup : Type := list node.

(** [tag.descendants]: every node below [n], in document order. *)
Fixpoint descendants (n : node) : list node :=
  match n with
  | Tag _ _ cs => flat_map (fun c => c :: descendants c) cs
  | NavigableString _ => []
  end.

Definition soup_descendants (s : soup) : list node :=
  flat_map (fun c => c :: descendants c) s.

Definition is_named (names : list string) (n : node) : bool :=
  match n with
  | Tag nm _ _ => existsb (String.eqb nm) names
  | NavigableString _ => false
  end.

(** [tag.get(key)]. *)
Definition get (n : node) (key : string) : option string :=
  match n with
  | Tag _ a _ => a !! key
  | NavigableString _ => None
  end.

(** Truth value of [tag.get(key)]: present and not the empty string. *)
Definition get_truthy (n : node) (key : string) : bool :=
  match get n key with
  | Some v => nonempty_str v
  | None => false
  end.

(** [soup.find_all(names)] and [tag.find_all(names)]. *)
Definition find_all (s : soup) (names : list string) : list node :=
  List.filter (is_named names) (soup_descendants s).

Definition tag_find_all (t : node) (names : list string) : list node :=
  List.filter (is_named names) (descendants t).

(** [soup.find(name)]; [soup.title] and [soup.html] are [find "title"] and
    [find "html"]: the first such tag at any depth, [None] without one. *)
Definition find (s : soup) (name : string) : option node :=
  head (find_all s [name]).

(** [soup.find_all(role=True)]: tags that carry the attribute. *)
Definition has_attr (key : string) (n : node) : bool :=
  match get n key with Some _ => true | None => false end.

Definition find_all_with_attr (s : soup) (key : string) : list node :=
  List.filter (has_attr key) (soup_descendants s).

(** Attributes the tree builder splits into a list of tokens. *)
Definition multi_valued (tag key : string) : bool :=
  existsb (String.eqb key) ["class"; "accesskey"; "dropzone"]
  || (existsb (String.eqb tag) ["a"; "link"] && existsb (String.eqb key) ["rel"; "rev"])
  || (existsb (String.eqb tag) ["td"; "th"] && String.eqb key "headers")
  || (String.eqb tag "form" && String.eqb key "accept-charset")
  || (String.eqb tag "object" && String.eqb key "archive")
  || (String.eqb tag "area" && String.eqb key "rel")
  || (String.eqb tag "icon" && String.eqb key "sizes")
  || (String.eqb tag "iframe" && String.eqb key "sandbox")
  || (String.eqb tag "output" && String.eqb key "for").

Definition is_space (c : ascii) : bool :=
  existsb (Ascii.eqb c) [" "%char; "009"%char; "010"%char; "011"%char; "012"%char; "013"%char].

(** Maximal runs of non-blank characters. *)
Fixpoint tokens_from (cur : string) (s : string) : list string :=
  match s with
  | EmptyString => if nonempty_str cur then [cur] else []
  | String c s' =>
      if is_space c
      then (if nonempty_str cur then [cur] else []) ++ tokens_from EmptyString s'
      else tokens_from (cur +:+ String c EmptyString) s'
  end.

Definition tokens (s : string) : list string := tokens_from EmptyString s.

(** Does the attribute value [v] of a [tag] match the wanted text?  For a
    token list: one token does, or the tokens joined by blanks do. *)
Definition attr_matches (tag key v wanted : string) : bool :=
  if multi_valued tag key
  then existsb (String.eqb wanted) (tokens v)
       || String.eqb (String.concat " " (tokens v)) wanted
  else String.eqb v wanted.

(** [soup.find(name, {key: wanted})]. *)
Definition find_attrs (s : soup) (name key wanted : string) : option node :=
  head (List.filter
          (fun n => match get n key with
                    | Some v => attr_matches name key v wanted
                    | None => false
                    end)
          (find_all s [name])).

End Bs4.

Export Bs4.

(* ===================================================================== *)
(** ** HTTP responses ([requests]) *)
(* ===================================================================== *)

Module Requests.

Definition lower_ascii (c : ascii) : ascii :=
  let n := nat_of_ascii c in
  if (65 <=? n)%nat && (n <=? 90)%nat then ascii_of_nat (n + 32) else c.

Fixpoint lower (s : string) : string :=
  match s with
  | EmptyString => EmptyString
  | String c s' => String (lower_ascii c) (lower s')
  end.

(** A response as this program reads it.  [headers] is keyed by lower-case
    names; [elapsed] is [response.elapsed.total_seconds()]. *)
Record response := Response {
  status_code : Z;
  reason : string;
  url : string;
  headers : gmap string string;
  content : list Byte.byte;
  text : string;
  elapsed : float
}.

(** [response.headers.get(key, default)], case-insensitive in [key]. *)
Definition headers_get (r : response) (key default : string) : string :=
  match headers r !! lower key with
  | Some v => v
  | None => default
  end.

(** [response.raise_for_status()]: [HTTPError] for a 4xx or 5xx status. *)
Definition raise_for_status (r : response) : result unit :=
  let http_error (kind : string) :=
    Raise (Exn "HTTPError"
             (pretty (status_code r) +:+ " " +:+ kind +:+ " Error: " +:+ reason r
                +:+ " for url: " +:+ url r)) in
  if (400 <=? status_code r)%Z && (status_code r <? 500)%Z then http_error "Client"
  else if (500 <=? status_code r)%Z && (status_code r <? 600)%Z then http_error "Server"
  else Ok tt.

End Requests.

Export Requests.

(* ===================================================================== *)
(** ** The outside world *)
(* ===================================================================== *)

(** What one run observes of the network, the parser and the clock:
    - [requests_get url headers timeout] is the outcome of the GET request:
      a response, or the transport exception ([Timeout], [ConnectionError],
      ...);
    - [load_time_of url] is the difference of the two [time.time()]
      readings taken around that request;
    - [BeautifulSoup markup] is the outcome of parsing;
    - [str_node n] is [str(n)], the serialised markup of a node. *)
Record world := World {
  requests_get : string -> gmap string string -> Z -> result response;
  load_time_of : string -> float;
  BeautifulSoup : string -> result soup;
  str_node : node -> string
}.

(** [str(soup)]: the serialised top-level nodes, one after the other. *)
Definition str_soup (W : world) (s : soup) : string :=
  String.concat "" (map (str_node W) s).

(** The two clock texts a report carries. *)
Record clock := Clock {
  now_text : string;        (* datetime.now().strftime(...) *)
  elapsed_text : string     (* f"{time.time() - start_time:.2f} seconds" *)
}.

(* ===================================================================== *)
(** ** The analyzer (class [WebsiteRater]) *)
(* ===================================================================== *)

(** The methods keep their names.  Logging does not influence any result
    and is left out. *)

Module Rater.

Record WebsiteRater := Self {
  timeout : Z;
  max_workers : Z;
  headers : gmap string string
}.

(** [WebsiteRater(timeout, max_workers)]; the defaults are 10 and 5. *)
Definition __init__ (timeout max_workers : Z) : WebsiteRater :=
  Self timeout max_workers
    {[ "User-Agent" := "Mozilla/5.0 (Windows NT 10.0; Win64; x64) AppleWebKit/537.36" ]}.

Definition default_rater : WebsiteRater := __init__ 10 5.

(** The result of one site: the dict with ['success': True] or the one with
    ['success': False]. *)
Inductive site_result :=
| Success (url : string) (scores : dict num) (metrics : dict (dict num))
| Failure (url : string) (error : string).

Definition found (o : option node) : bool :=
  match o with Some _ => true | None => false end.

(** *** Rating ladder *)

(** The loop of [_rate_metric], entered at index [i]. *)
Fixpoint _rate_metric_from (i : Z) (value : num) (thresholds : list num)
    (reverse : bool) : num :=
  match thresholds with
  | [] => if reverse then PInt 0 else PInt 10
  | threshold :: rest =>
      if reverse then
        if le value threshold then PInt (10 - i * 2)
        else _rate_metric_from (i + 1) value rest reverse
      else
        if le value threshold then PInt ((i + 1) * 2)
        else _rate_metric_from (i + 1) value rest reverse
  end.

Definition _rate_metric (value : num) (thresholds : list num) (reverse : bool) : num :=
  _rate_metric_from 0 value thresholds reverse.

(** *** Metric groups *)

Definition _check_performance (response : response) (load_time : num)
    : result (dict num) :=
  let* kb := truediv (len (content response)) (PInt 1024) in
  let* mb := truediv kb (PInt 1024) in
  Ok [ ("load_time",
        _rate_metric load_time [PInt 1; PInt 2; PInt 3; PInt 4; PInt 5] false);
       ("response_size",
        _rate_metric mb [PInt 1; PInt 2; PInt 5; PInt 10; PInt 20] true);
       ("ttfb",
        _rate_metric (PFloat (elapsed response))
          [lit (1 # 10); lit (3 # 10); lit (5 # 10); lit (8 # 10); PInt 1] true);
       ("compression",
        if contains "gzip" (headers_get response "Content-Encoding" "")
        then PInt 10 else PInt 0) ].

Definition _analyze_color_contrast (W : world) (soup : soup) : num :=
  let score := 0%Z in
  let score := if nonempty (find_all soup ["style"; "link"]) then (score + 5)%Z else score in
  let score := if contains "prefers-color-scheme" (str_soup W soup)
               then (score + 5)%Z else score in
  PInt score.

Definition _analyze_typography (W : world) (soup : soup) : num :=
  let score := 0%Z in
  let fonts : gset string :=
    list_to_set
      (List.filter (contains "font-family")
         (map (str_node W) (find_all soup ["style"; "link"]))) in
  let score := (score + Z.min (Z.of_nat (size fonts) * 2) 5)%Z in
  let score :=
    if nonempty (find_all soup ["h1"; "h2"; "h3"; "h4"; "h5"; "h6"])
    then (score + 5)%Z else score in
  PInt score.

Definition semantic_elements : list string :=
  ["header"; "nav"; "main"; "article"; "section"; "aside"; "footer"].

Fixpoint _analyze_layout_loop (soup : soup) (elements : list string) (score : num)
    : result num :=
  match elements with
  | [] => Ok score
  | element :: rest =>
      let* score :=
        if found (find soup element) then add score (lit (15 # 10)) else Ok score in
      _analyze_layout_loop soup rest score
  end.

Definition _analyze_layout (soup : soup) : result num :=
  let* score := _analyze_layout_loop soup semantic_elements (PInt 0) in
  Ok (min score (PInt 10)).

Definition _check_responsive_design (W : world) (soup : soup) : num :=
  let score := 0%Z in
  let score := if found (find_attrs soup "meta" "name" "viewport")
               then (score + 4)%Z else score in
  let score := if contains "@media" (str_soup W soup) then (score + 3)%Z else score in
  let score := if nonempty (find_all soup ["picture"; "source"])
               then (score + 3)%Z else score in
  PInt score.

Definition _analyze_visual_hierarchy (soup : soup) : num :=
  let score := 0%Z in
  let score := if found (find soup "h1") then (score + 3)%Z else score in
  let score := if nonempty (find_all soup ["ul"; "ol"]) then (score + 2)%Z else score in
  let score := if nonempty (find_all soup ["strong"; "em"]) then (score + 2)%Z else score in
  let score := if nonempty (find_all soup ["blockquote"; "figure"])
               then (score + 3)%Z else score in
  PInt score.

Definition _analyze_headings (soup : soup) : num :=
  let headings := find_all soup ["h1"; "h2"; "h3"; "h4"; "h5"; "h6"] in
  if negb (nonempty headings) then PInt 0
  else PInt (Z.min (Z.of_nat (length headings) * 2) 10).

Definition _check_img_alt (soup : soup) : result num :=
  let images := find_all soup ["img"] in
  if negb (nonempty images) then Ok (PInt 10)
  else
    let images_with_alt := List.filter (fun img => get_truthy img "alt") images in
    let* ratio := truediv (len images_with_alt) (len images) in
    let* scaled := mul ratio (PInt 10) in
    round scaled 2.

Definition _check_aria_landmarks (soup : soup) : num :=
  let landmarks := find_all_with_attr soup "role" in
  PInt (Z.min (Z.of_nat (length landmarks) * 2) 10).

Definition _check_form_labels (soup : soup) : num :=
  let forms := find_all soup ["form"] in
  if negb (nonempty forms) then PInt 10
  else
    let score :=
      fold_left
        (fun (score : Z) form =>
           let inputs := tag_find_all form ["input"; "select"; "textarea"] in
           let labels := tag_find_all form ["label"] in
           if nonempty inputs && (length inputs <=? length labels)%nat
           then (score + 5)%Z else score)
        forms 0%Z in
    PInt (Z.min score 10).

Definition _analyze_design (W : world) (soup : soup) : result (dict num) :=
  let color_contrast := _analyze_color_contrast W soup in
  let typography := _analyze_typography W soup in
  let* layout_structure := _analyze_layout soup in
  Ok [ ("color_contrast", color_contrast);
       ("typography", typography);
       ("layout_structure", layout_structure);
       ("responsive_design", _check_responsive_design W soup);
       ("visual_hierarchy", _analyze_visual_hierarchy soup) ].

Definition _check_seo_basics (soup : soup) : result (dict num) :=
  let title := if found (find soup "title") then PInt 10 else PInt 0 in
  let meta_description :=
    if found (find_attrs soup "meta" "name" "description") then PInt 10 else PInt 0 in
  let headings := _analyze_headings soup in
  let* img_alt := _check_img_alt soup in
  Ok [ ("title", title);
       ("meta_description", meta_description);
       ("headings", headings);
       ("img_alt", img_alt);
       ("canonical",
        if found (find_attrs soup "link" "rel" "canonical") then PInt 10 else PInt 0) ].

Definition _check_accessibility (soup : soup) : result (dict num) :=
  let* lang_attribute :=
    match find soup "html" with
    | None => Raise (AttributeError "'NoneType' object has no attribute 'get'")
    | Some html => Ok (if get_truthy html "lang" then PInt 10 else PInt 0)
    end in
  let aria_landmarks := _check_aria_landmarks soup in
  let form_labels := _check_form_labels soup in
  let* alt_texts := _check_img_alt soup in
  Ok [ ("lang_attribute", lang_attribute);
       ("aria_landmarks", aria_landmarks);
       ("form_labels", form_labels);
       ("alt_texts", alt_texts);
       ("heading_structure", _analyze_headings soup) ].

(** *** One site *)

(** URL as requested: [https://] is put in front when no scheme is given. *)
Definition normalize (url : string) : string :=
  if String.prefix "http://" url || String.prefix "https://" url then url
  else "https://" +:+ url.

(** The body of the [try] block of [analyze_website], on the normalized URL. *)
Definition analyze_website_try (self : WebsiteRater) (W : world) (url : string)
    : result site_result :=
  let* response := requests_get W url (headers self) (timeout self) in
  let* _ := raise_for_status response in
  let load_time := PFloat (load_time_of W url) in
  let* soup := BeautifulSoup W (text response) in
  let* performance_metrics := _check_performance response load_time in
  let* design_metrics := _analyze_design W soup in
  let* seo_metrics := _check_seo_basics soup in
  let* accessibility_metrics := _check_accessibility soup in
  let* performance_score :=
    (let* s := sum (values performance_metrics) in
     let* q := truediv s (len performance_metrics) in round q 2) in
  let* design_score :=
    (let* s := sum (values design_metrics) in
     let* q := truediv s (len design_metrics) in round q 2) in
  let* seo_score :=
    (let* s := sum (values seo_metrics) in
     let* q := truediv s (len seo_metrics) in round q 2) in
  let* accessibility_score :=
    (let* s := sum (values accessibility_metrics) in
     let* q := truediv s (len accessibility_metrics) in round q 2) in
  let scores :=
    [ ("performance_score", performance_score);
      ("design_score", design_score);
      ("seo_score", seo_score);
      ("accessibility_score", accessibility_score) ] in
  let* overall_score :=
    (let* s := sum (values scores) in
     let* q := truediv s (len scores) in round q 2) in
  let scores := setitem scores "overall_score" overall_score in
  Ok (Success url scores
        [ ("performance", performance_metrics);
          ("design", design_metrics);
          ("seo", seo_metrics);
          ("accessibility", accessibility_metrics) ]).

Definition analyze_website (self : WebsiteRater) (W : world) (url : string)
    : site_result :=
  let url := normalize url in
  match analyze_website_try self W url with
  | Ok result => result
  | Raise e => Failure url (str_exn e)
  end.

(** *** A batch *)

Definition success (r : site_result) : bool :=
  match r with Success _ _ _ => true | Failure _ _ => false end.

(** [r['scores']]. *)
Definition scores_of (r : site_result) : result (dict num) :=
  match r with
  | Success _ scores _ => Ok scores
  | Failure _ _ => Raise (KeyError "'scores'")
  end.

Fixpoint mapM {A B} (f : A -> result B) (xs : list A) : result (list B) :=
  match xs with
  | [] => Ok []
  | x :: xs' => let* y := f x in let* ys := mapM f xs' in Ok (y :: ys)
  end.

Fixpoint filterM {A} (f : A -> result bool) (xs : list A) : result (list A) :=
  match xs with
  | [] => Ok []
  | x :: xs' =>
      let* keep := f x in
      let* ys := filterM f xs' in
      Ok (if keep then x :: ys else ys)
  end.

Definition _get_top_performers (results : list site_result) (threshold : num)
    : result (list site_result) :=
  filterM
    (fun r =>
       if success r then
         let* scores := scores_of r in
         let* overall := getitem scores "overall_score" in
         Ok (ge overall threshold)
       else Ok false)
    results.

Definition _get_needs_improvement (results : list site_result) (threshold : num)
    : result (list site_result) :=
  filterM
    (fun r =>
       if success r then
         let* scores := scores_of r in
         let* overall := getitem scores "overall_score" in
         Ok (le overall threshold)
       else Ok false)
    results.

Record report := Report {
  timestamp : string;
  total_sites : Z;
  successful_analyses : Z;
  analysis_time : string;
  average_scores : dict num;
  detailed_results : list site_result;
  top_performers : list site_result;
  needs_improvement : list site_result
}.

(** What [future.result()] gives inside its [try]: the worker's result, or
    a failure entry for the URL the future was submitted with. *)
Definition future_result (outcome : result site_result) (url : string) : site_result :=
  match outcome with
  | Ok result => result
  | Raise e => Failure url (str_exn e)
  end.

(** The [with] block: one future per URL, read in submission order. *)
Definition gather (worker : string -> result site_result) (urls : list string)
    : list site_result :=
  map (fun url => future_result (worker url) url) urls.

Definition score_keys : list string :=
  ["performance_score"; "design_score"; "seo_score"; "accessibility_score"; "overall_score"].

(** Everything after the [with] block. *)
Definition build_report (C : clock) (urls : list string) (results : list site_result)
    : result report :=
  let successful_results := List.filter success results in
  let* average_scores :=
    if nonempty successful_results then
      mapM
        (fun key =>
           let* vs := mapM (fun r => let* scores := scores_of r in getitem scores key)
                        successful_results in
           let* s := sum vs in
           let* q := truediv s (len successful_results) in
           let* avg := round q 2 in
           Ok (key, avg))
        score_keys
    else Ok [] in
  let* top := _get_top_performers results (lit 8) in
  let* needs := _get_needs_improvement results (lit 5) in
  Ok {| timestamp := now_text C;
        total_sites := Z.of_nat (length urls);
        successful_analyses := Z.of_nat (length successful_results);
        analysis_time := elapsed_text C;
        average_scores := average_scores;
        detailed_results := results;
        top_performers := top;
        needs_improvement := needs |}.

(** [analyze_websites] over an arbitrary worker; [ThreadPoolExecutor] refuses
    a pool without workers. *)
Definition analyze_websites_with (self : WebsiteRater) (C : clock)
    (worker : string -> result site_result) (urls : list string) : result report :=
  if (max_workers self <=? 0)%Z
  then Raise (ValueError "max_workers must be greater than 0")
  else build_report C urls (gather worker urls).

Definition analyze_websites (self : WebsiteRater) (W : world) (C : clock)
    (urls : list string) : result report :=
  analyze_websites_with self C (fun url => Ok (analyze_website self W url)) urls.

End Rater.

Export Rater.

(* ===================================================================== *)
(** ** The worker pool ([ThreadPoolExecutor]) *)
(* ===================================================================== *)

Module Executor.

(** A pool after all submissions: work items are numbered in submission
    order; [queue] holds those no worker has taken yet, [running] those a
    worker is executing, [done] the outcome stored in each finished future. *)
Record pool := Pool {
  queue : list (nat * string);
  running : list (nat * string);
  done : gmap nat (result site_result)
}.

(** The URLs with their submission numbers, counted from [i]. *)
Fixpoint enumerate_from (i : nat) (urls : list string) : list (nat * string) :=
  match urls with
  | [] => []
  | url :: rest => (i, url) :: enumerate_from (S i) rest
  end.

(** [{executor.submit(worker, url): url for url in urls}]. *)
Definition submit_all (urls : list string) : pool :=
  Pool (enumerate_from 0 urls) [] ∅.

(** One scheduling step of a pool with [max_workers] threads: a free thread
    takes the oldest queued item, or some running item finishes and its
    future receives the outcome of the worker on its URL. *)
Inductive step (max_workers : Z) (worker : string -> result site_result)
    : pool -> pool -> Prop :=
| step_start item queue running done :
    (Z.of_nat (length running) < max_workers)%Z ->
    step max_workers worker
      (Pool (item :: queue) running done)
      (Pool queue (running ++ [item]) done)
| step_finish i url queue before after done :
    step max_workers worker
      (Pool queue (before ++ (i, url) :: after) done)
      (Pool queue (before ++ after) (<[i := worker url]> done)).

Definition runs (max_workers : Z) (worker : string -> result site_result)
    : pool -> pool -> Prop :=
  rtc (step max_workers worker).

Definition idle (p : pool) : Prop := queue p = [] /\ running p = [].

(** The loop over [future_to_url]: each future read in submission order;
    [None] while one of them has no outcome yet. *)
Fixpoint read_futures (items : list (nat * string)) (p : pool)
    : option (list site_result) :=
  match items with
  | [] => Some []
  | (i, url) :: rest =>
      match done p !! i, read_futures rest p with
      | Some outcome, Some results => Some (future_result outcome url :: results)
      | _, _ => None
      end
  end.

Definition read_results (urls : list string) (p : pool) : option (list site_result) :=
  read_futures (enumerate_from 0 urls) p.

(** What every reachable pool satisfies: a queued or running item is one of
    the submitted ones, and every submitted item is queued, running, or
    finished with the outcome of the worker on its URL. *)
Definition pool_inv (worker : string -> result site_result) (urls : list string)
    (p : pool) : Prop :=
  (forall i u, In (i, u) (queue p ++ running p) -> In (i, u) (enumerate_from 0 urls))
  /\ (forall i u, In (i, u) (enumerate_from 0 urls) ->
        In (i, u) (queue p) \/ In (i, u) (running p) \/ done p !! i = Some (worker u)).

(** The numbers of a report, without its two clock texts. *)
Definition aggregates (r : report)
    : Z * Z * dict num * list site_result * list site_result * list site_result :=
  (total_sites r, successful_analyses r, average_scores r,
   detailed_results r, top_performers r, needs_improvement r).

(** The books of a reachable pool: the first [started] submissions have left
    the queue in order, each of them is running or finished and none is
    both, and no number runs twice. *)
Definition pool_books (urls : list string) (p : pool) : Prop :=
  exists (started : nat) (rest : list string),
    queue p = enumerate_from started rest
    /\ (started + length rest = length urls)%nat
    /\ NoDup (map fst (running p))
    /\ (forall i u, In (i, u) (running p) -> (i < started)%nat /\ done p !! i = None)
    /\ (forall i, is_Some (done p !! i) -> (i < started)%nat)
    /\ (size (done p) + length (running p) = started)%nat.

End Executor.

Export Executor.

(* ===================================================================== *)
(** ** The HTTP endpoint ([main.py]) *)
(* ===================================================================== *)

Module Api.

(** The pydantic model [AnalysisResponse]; an absent field is [None]. *)
Record AnalysisResponse := Response_ {
  success : bool;
  message : option string;
  data : option report;
  error : option string
}.

(** [HTTPException(status_code, detail)]: a subclass of [Exception].  What
    [str] makes of it is the framework's business (nothing in some releases,
    the status code and the detail in others), so the text is a parameter. *)
Definition HTTPException (str_http : Z -> string -> string) (status_code : Z)
    (detail : string) : exn :=
  Exn "HTTPException" (str_http status_code detail).

(** The handler of [POST /api/analyze].  The rater is the default one; the
    whole body sits in one [try] whose handler answers with
    [success=False]. *)
Definition analyze_websites (str_http : Z -> string -> string) (W : world) (C : clock)
    (urls : list string) : AnalysisResponse :=
  match
    (let* _ :=
       if negb (nonempty urls)
       then Raise (HTTPException str_http 400 "No URLs provided")
       else Ok tt in
     let rater := Rater.__init__ 10 5 in
     let* results := Rater.analyze_websites rater W C urls in
     Ok (Response_ true
           (Some ("Successfully analyzed " +:+ pretty (Z.of_nat (length urls))
                    +:+ " websites"))
           (Some results) None))
  with
  | Ok response => response
  | Raise e => Response_ false None None (Some (str_exn e))
  end.

End Api.

(* ===================================================================== *)
(** ** The report formatter ([report_formatter.py]) *)
(* ===================================================================== *)

(** The formatter reads the report it was given; the methods below take the
    parts of it they read. *)

Module ReportFormatter.

Definition nl : string := String "010"%char EmptyString.
Definition quote : string := String "034"%char EmptyString.

Definition _get_score_class (score : num) : string :=
  if ge score (PInt 7) then "good"
  else if ge score (PInt 5) then "average"
  else "poor".

Definition _generate_site_recommendations (scores : dict num)
    (metrics : dict (dict num)) : result string :=
  let recommendations := "" in
  let* performance_score := getitem scores "performance_score" in
  let recommendations :=
    if lt performance_score (PInt 7)
    then recommendations
           +:+ "<li>Improve performance by optimizing load times and resource compression</li>"
    else recommendations in
  let* design_score := getitem scores "design_score" in
  let recommendations :=
    if lt design_score (PInt 7)
    then recommendations
           +:+ "<li>Enhance design with better typography, layout structure, and visual hierarchy</li>"
    else recommendations in
  let* seo_score := getitem scores "seo_score" in
  let recommendations :=
    if lt seo_score (PInt 7)
    then recommendations
           +:+ "<li>Improve SEO by adding meta descriptions, proper headings, and canonical tags</li>"
    else recommendations in
  let* accessibility_score := getitem scores "accessibility_score" in
  let recommendations :=
    if lt accessibility_score (PInt 7)
    then recommendations
           +:+ "<li>Enhance accessibility with proper ARIA landmarks, form labels, and heading structure</li>"
    else recommendations in
  Ok recommendations.

(** [site['url']], [site['scores']] and [site['metrics']]. *)
Definition url_of (site : site_result) : string :=
  match site with
  | Success url _ _ => url
  | Failure url _ => url
  end.

Definition metrics_of (site : site_result) : result (dict (dict num)) :=
  match site with
  | Success _ _ metrics => Ok metrics
  | Failure _ _ => Raise (KeyError "'metrics'")
  end.

(** The loop of [_generate_recommendations]. *)
Fixpoint _generate_recommendations_loop (sites : list site_result)
    (recommendations : string) : result string :=
  match sites with
  | [] => Ok recommendations
  | site :: rest =>
      let* scores := scores_of site in
      let* metrics := metrics_of site in
      let* items := _generate_site_recommendations scores metrics in
      _generate_recommendations_loop rest
        (recommendations
           +:+ nl +:+ "                <div style=" +:+ quote +:+ "margin-bottom: 20px;"
           +:+ quote +:+ ">"
           +:+ nl +:+ "                    <h3>" +:+ url_of site +:+ "</h3>"
           +:+ nl +:+ "                    <ul>"
           +:+ nl +:+ "                    " +:+ items
           +:+ nl +:+ "                    </ul>"
           +:+ nl +:+ "                </div>"
           +:+ nl +:+ "            ")
  end.

Definition _generate_recommendations (needs_improvement : list site_result)
    : result string :=
  if negb (nonempty needs_improvement) then Ok ""
  else _generate_recommendations_loop needs_improvement "<h2>Recommendations</h2>".

End ReportFormatter.

(* ===================================================================== *)
(** ** A small world for the worked examples *)
(* ===================================================================== *)

Module Sample.

(** A serialiser without entity escaping; the theorems below hold for every
    [str_node]. *)
Fixpoint plain_str (n : node) : string :=
  match n with
  | NavigableString t => t
  | Tag nm a cs =>
      "<" +:+ nm
        +:+ String.concat ""
              (map (fun kv => " " +:+ fst kv +:+ "='" +:+ snd kv +:+ "'") (map_to_list a))
        +:+ ">" +:+ String.concat "" (map plain_str cs) +:+ "</" +:+ nm +:+ ">"
  end.

(** A page with three images, two of them described. *)
Definition shop_page : soup :=
  [ Tag "html" {[ "lang" := "en" ]}
      [ Tag "head" ∅
          [ Tag "title" ∅ [NavigableString "Shop"];
            Tag "meta" {[ "name" := "viewport" ]} [];
            Tag "link" {[ "rel" := "stylesheet canonical" ]} [] ];
        Tag "body" ∅
          [ Tag "header" ∅ [Tag "h1" ∅ [NavigableString "Shop"]];
            Tag "main" ∅
              [ Tag "img" {[ "alt" := "logo" ]} [];
                Tag "img" {[ "alt" := "" ]} [];
                Tag "img" {[ "alt" := "front door" ]} [];
                Tag "ul" ∅ [Tag "li" ∅ [NavigableString "tea"]] ];
            Tag "form" ∅ [Tag "label" ∅ []; Tag "input" ∅ []] ] ] ].

(** Markup without any [html] tag. *)
Definition bare_page : soup :=
  [ Tag "div" ∅ [Tag "p" ∅ [NavigableString "hello"]] ].

(** Markup whose [html] tag sits inside an unclosed paragraph. *)
Definition nested_page : soup :=
  [ Tag "p" ∅
      [ NavigableString "Notice";
        Tag "html" {[ "lang" := "en" ]} [Tag "body" ∅ [NavigableString "hello"]] ] ].

Definition reply (status : Z) (reason url body : string) : response :=
  Response status reason url {[ "content-encoding" := "gzip" ]} [] body
    (Fin (RN (5 # 100))).

Definition get (url : string) (_ : gmap string string) (_ : Z) : result response :=
  if String.eqb url "https://shop.example" then Ok (reply 200 "OK" url "shop")
  else if String.eqb url "https://bare.example" then Ok (reply 200 "OK" url "bare")
  else if String.eqb url "https://nested.example" then Ok (reply 200 "OK" url "nested")
  else if String.eqb url "https://choices.example"
       then Ok (reply 300 "Multiple Choices" url "shop")
  else if String.eqb url "https://gone.example" then Ok (reply 404 "Not Found" url "bare")
  else Raise (Exn "ConnectionError" "Failed to establish a new connection").

Definition parse (markup : string) : result soup :=
  if String.eqb markup "shop" then Ok shop_page
  else if String.eqb markup "nested" then Ok nested_page
  else Ok bare_page.

Definition W : world :=
  World get (fun _ => Fin (RN (5 # 100))) parse plain_str.

Definition C : clock := Clock "2024-01-01 00:00:00" "0.10 seconds".

Definition late : clock := Clock "2024-01-01 00:00:07" "0.45 seconds".

Definition urls : list string := ["shop.example"; "nowhere.example"].

(** Results at the two boundaries of the filtered views. *)
Definition boundary_results : list site_result :=
  [ Success "a" [("overall_score", lit 8)] [];
    Success "b" [("overall_score", lit (799 # 100))] [];
    Success "c" [("overall_score", lit 5)] [];
    Success "d" [("overall_score", lit (501 # 100))] [];
    Failure "e" "Failed to establish a new connection" ].

(** A worker that fails on one URL of the batch. *)
Definition flaky_worker (url : string) : result site_result :=
  if String.eqb url "shop.example" then Raise (Exn "RuntimeError" "worker crashed")
  else Ok (analyze_website default_rater W url).

End Sample.

(* ===================================================================== *)
(** ** Vocabulary of the specification *)
(* ===================================================================== *)

Module Spec.

(** [x] is a number between [0] and [hi]. *)
Definition in_range (hi : Z) (x : num) : Prop :=
  match x with
  | PInt z => (0 <= z <= hi)%Z
  | PFloat (Fin q) => 0 <= q <= inject_Z hi
  | PFloat _ => False
  end.

(** A category or overall score: a float between 0 and 10. *)
Definition score_value (x : num) : Prop :=
  exists q, x = PFloat (Fin q) /\ 0 <= q <= 10 /\ representable q.

(** A non-negative float, possibly [inf]. *)
Definition nonneg_double (f : float) : Prop :=
  match f with
  | Fin q => 0 <= q /\ representable q /\ q < pow2 1024
  | Inf s => s = false
  | NaN => False
  end.

(** What a running total of float scores can be: still the int [0] it
    started from, or a non-negative float. *)
Definition float_total (x : num) : Prop :=
  x = PInt 0 \/ exists f, x = PFloat f /\ nonneg_double f.

(** The arithmetic mean of [xs], rounded to two decimals: [round(sum(xs) /
    len(xs), 2)]. *)
Definition rounded_mean (xs : list num) : result num :=
  let* s := sum xs in
  let* q := truediv s (len xs) in
  round q 2.

(** Index of the first threshold that [value] does not exceed. *)
Fixpoint first_reached (value : num) (thresholds : list num) : option nat :=
  match thresholds with
  | [] => None
  | t :: rest =>
      if le value t then Some 0%nat
      else option_map S (first_reached value rest)
  end.

(** The threshold ladder as the specification words it. *)
Definition ladder (value : num) (thresholds : list num) (reverse : bool) : num :=
  match first_reached value thresholds with
  | Some i =>
      if reverse then PInt (10 - 2 * Z.of_nat i) else PInt ((Z.of_nat i + 1) * 2)
  | None => if reverse then PInt 0 else PInt 10
  end.

(** [round((with_alt / images) * 10, 2)]. *)
Definition img_alt_ratio (with_alt images : nat) : result num :=
  let* ratio := truediv (PInt (Z.of_nat with_alt)) (PInt (Z.of_nat images)) in
  let* scaled := mul ratio (PInt 10) in
  round scaled 2.

(** An image carries a non-empty [alt] attribute. *)
Definition has_alt_text (img : node) : Prop :=
  exists v, get img "alt" = Some v /\ v <> "".

Definition alt_nonempty (img : node) : bool :=
  match get img "alt" with
  | Some v => negb (String.eqb v "")
  | None => false
  end.

(** The [overall_score] of a successful result. *)
Definition overall_of (r : site_result) : option num :=
  match r with
  | Success _ scores _ =>
      match getitem scores "overall_score" with
      | Ok v => Some v
      | Raise _ => None
      end
  | Failure _ _ => None
  end.

(** A result as [analyze_website] builds them: a failure, or a success that
    carries the five scores. *)
Definition well_formed (r : site_result) : Prop :=
  match r with
  | Success _ scores _ =>
      exists p d s a o,
        scores = [ ("performance_score", p); ("design_score", d); ("seo_score", s);
                   ("accessibility_score", a); ("overall_score", o) ]
        /\ score_value p /\ score_value d /\ score_value s /\ score_value a
        /\ score_value o
  | Failure _ _ => True
  end.

(** Membership tests of the two filtered views, as total functions. *)
Definition is_top (threshold : num) (r : site_result) : bool :=
  match overall_of r with
  | Some overall => ge overall threshold
  | None => false
  end.

Definition is_low (threshold : num) (r : site_result) : bool :=
  match overall_of r with
  | Some overall => le overall threshold
  | None => false
  end.

(** A successful result carries an [overall_score]. *)
Definition has_overall (r : site_result) : Prop :=
  success r = true -> exists o, overall_of r = Some o.

(** Largest number of items a Python container holds ([sys.maxsize]). *)
Definition sys_maxsize : Z := 2 ^ 63 - 1.

(** [x] is a number between the integers [lo] and [hi]. *)
Definition between (lo hi : Z) (x : num) : Prop :=
  match x with
  | PInt z => (lo <= z <= hi)%Z
  | PFloat (Fin q) => inject_Z lo <= q <= inject_Z hi
  | PFloat _ => False
  end.

(** A form with at least one input and no fewer labels than inputs. *)
Definition labelled (form : node) : bool :=
  let inputs := tag_find_all form ["input"; "select"; "textarea"] in
  let labels := tag_find_all form ["label"] in
  nonempty inputs && (length inputs <=? length labels)%nat.

(** The tag names of [elements] that occur in the document. *)
Definition present (s : soup) (elements : list string) : list string :=
  List.filter (fun element => found (find s element)) elements.

(** The layout score for [k] of the seven semantic tags: the int 0 for none,
    the float [1.5 * k] for one to six, the int 10 for all seven. *)
Definition layout_value (k : nat) : num :=
  match k with
  | O => PInt 0
  | 7%nat => PInt 10
  | _ => lit (15 * Z.of_nat k # 10)
  end.

(** The size rating as a function of the number of bytes of the body. *)
Definition size_rating (bytes : Z) : Z :=
  if (bytes <=? 1 * 2 ^ 20)%Z then 10
  else if (bytes <=? 2 * 2 ^ 20)%Z then 8
  else if (bytes <=? 5 * 2 ^ 20)%Z then 6
  else if (bytes <=? 10 * 2 ^ 20)%Z then 4
  else if (bytes <=? 20 * 2 ^ 20)%Z then 2
  else 0.

End Spec.

Export Spec.

(* ===================================================================== *)
(** ** Properties *)
(* ===================================================================== *)

(** *** Binary64 rounding *)

Lemma pow2_pos e : 0 < pow2 e.
Proof. apply Qpower_0_lt. reflexivity. Qed.

Lemma pow2_add a b : pow2 (a + b) == pow2 a * pow2 b.
Proof. apply Qpower_plus. discriminate. Qed.

Lemma pow2_le a b : (a <= b)%Z -> pow2 a <= pow2 b.
Proof. intros H. apply Qpower_le_compat_l; [exact H | discriminate]. Qed.

Lemma pow2_lt a b : (a < b)%Z -> pow2 a < pow2 b.
Proof. intros H. apply Qpower_lt_compat_l; [exact H | reflexivity]. Qed.

Lemma pow2_nonneg_Z a : (0 <= a)%Z -> pow2 a == inject_Z (2 ^ a).
Proof. intros H. unfold pow2. rewrite Zpower_Qpower by exact H. reflexivity. Qed.

Lemma Zlog2_bounds_Q (n : Z) : (0 < n)%Z ->
  pow2 (Z.log2 n) <= inject_Z n /\ inject_Z n < pow2 (Z.log2 n + 1).
Proof.
  intros Hn. destruct (Z.log2_spec n Hn) as [H1 H2].
  pose proof (Z.log2_nonneg n) as H0.
  rewrite !pow2_nonneg_Z by lia. split.
  - rewrite <- Zle_Qle. exact H1.
  - rewrite <- Zlt_Qlt. replace (Z.log2 n + 1)%Z with (Z.succ (Z.log2 n)) by lia. exact H2.
Qed.

Lemma Qdiv_le_iff (x y z : Q) : 0 < y -> (z <= x / y <-> z * y <= x).
Proof.
  intros Hy. split; intros H.
  - apply (Qmult_le_compat_r _ _ y) in H; [|lra].
    assert (E : x / y * y == x) by (field; lra). rewrite E in H. exact H.
  - apply Qle_shift_div_l; assumption.
Qed.

Lemma Qdiv_lt_iff (x y z : Q) : 0 < y -> (x / y < z <-> x < z * y).
Proof.
  intros Hy. split; intros H.
  - apply (Qmult_lt_compat_r _ _ y) in H; [|lra].
    assert (E : x / y * y == x) by (field; lra). rewrite E in H. exact H.
  - apply Qlt_shift_div_r; assumption.
Qed.

Lemma floor_log2_spec (q : Q) : 0 < q ->
  pow2 (floor_log2 q) <= q /\ q < pow2 (floor_log2 q + 1).
Proof.
  intros Hq. unfold floor_log2.
  destruct q as [n d]. cbn [Qnum Qden].
  assert (Hn : (0 < n)%Z).
  { unfold Qlt in Hq. cbn in Hq. lia. }
  destruct (Zlog2_bounds_Q n Hn) as [Ha1 Ha2].
  destruct (Zlog2_bounds_Q (Zpos d) eq_refl) as [Hb1 Hb2].
  set (a := Z.log2 n) in *. set (b := Z.log2 (Zpos d)) in *.
  assert (Hy : 0 < inject_Z (Zpos d)) by (rewrite <- (Zlt_Qlt 0); lia).
  assert (Hnd : n # d == inject_Z n / inject_Z (Zpos d)) by apply Qmake_Qdiv.
  pose proof (pow2_pos a) as Hpa. pose proof (pow2_pos b) as Hpb.
  pose proof (pow2_pos (a - b)) as Hpk.
  assert (Ek : pow2 a == pow2 (a - b) * pow2 b).
  { rewrite <- pow2_add. replace (a - b + b)%Z with a by lia. reflexivity. }
  assert (E1 : pow2 (a - b + 1) == 2 * pow2 (a - b)).
  { rewrite pow2_add. unfold pow2 at 2. simpl. lra. }
  assert (E2 : pow2 (a - b) == 2 * pow2 (a - b - 1)).
  { replace (a - b)%Z with ((a - b - 1) + 1)%Z at 1 by lia.
    rewrite pow2_add. unfold pow2 at 2. simpl. lra. }
  assert (E3 : pow2 (a + 1) == 2 * pow2 a).
  { rewrite pow2_add. unfold pow2 at 2. simpl. lra. }
  assert (E4 : pow2 (b + 1) == 2 * pow2 b).
  { rewrite pow2_add. unfold pow2 at 2. simpl. lra. }
  destruct (Qle_bool (pow2 (a - b)) (n # d)) eqn:Hc.
  - apply Qle_bool_iff in Hc. split; [exact Hc|].
    rewrite Hnd. apply Qdiv_lt_iff; [exact Hy|]. nra.
  - assert (Hlt : n # d < pow2 (a - b)).
    { apply Qnot_le_lt. intros H. apply Qle_bool_iff in H. congruence. }
    replace (a - b - 1 + 1)%Z with (a - b)%Z by lia. split; [|exact Hlt].
    rewrite Hnd. apply Qdiv_le_iff; [exact Hy|]. nra.
Qed.

Lemma floor_log2_unique (q : Q) (k : Z) :
  pow2 k <= q -> q < pow2 (k + 1) -> floor_log2 q = k.
Proof.
  intros H1 H2.
  assert (Hq : 0 < q) by (pose proof (pow2_pos k); lra).
  destruct (floor_log2_spec q Hq) as [L1 L2].
  destruct (Z.lt_trichotomy (floor_log2 q) k) as [Hlt | [Heq | Hgt]]; [| exact Heq |].
  - assert (pow2 (floor_log2 q + 1) <= pow2 k) by (apply pow2_le; lia). lra.
  - assert (pow2 (k + 1) <= pow2 (floor_log2 q)) by (apply pow2_le; lia). lra.
Qed.

Lemma floor_log2_mono (x y : Q) : 0 < x -> x <= y -> (floor_log2 x <= floor_log2 y)%Z.
Proof.
  intros Hx Hxy.
  destruct (floor_log2_spec x Hx) as [X1 X2].
  destruct (floor_log2_spec y ltac:(lra)) as [Y1 Y2].
  destruct (Z_le_gt_dec (floor_log2 x) (floor_log2 y)) as [H | H]; [exact H |].
  assert (pow2 (floor_log2 y + 1) <= pow2 (floor_log2 x)) by (apply pow2_le; lia). lra.
Qed.

Lemma floor_log2_Qeq (x y : Q) : 0 < x -> x == y -> floor_log2 x = floor_log2 y.
Proof.
  intros Hx E. destruct (floor_log2_spec y ltac:(lra)) as [Y1 Y2].
  apply floor_log2_unique; lra.
Qed.

Lemma ulp_exp_pos (x : Q) : 0 < x -> ulp_exp x = Z.max (floor_log2 x - 52) (-1074).
Proof.
  intros Hx. unfold ulp_exp. f_equal. f_equal.
  symmetry. apply floor_log2_Qeq; [exact Hx|].
  symmetry. apply Qabs_pos. lra.
Qed.

Lemma ulp_exp_mono (x y : Q) : 0 < x -> x <= y -> (ulp_exp x <= ulp_exp y)%Z.
Proof.
  intros Hx Hxy. rewrite !ulp_exp_pos by lra.
  pose proof (floor_log2_mono x y Hx Hxy). lia.
Qed.

Lemma round_half_even_le (q : Q) (k : Z) : q <= inject_Z k -> (round_half_even q <= k)%Z.
Proof.
  intros H. unfold round_half_even.
  pose proof (Qfloor_le q) as Hf.
  assert (Hfk : (Qfloor q <= k)%Z).
  { rewrite <- (Qfloor_Z k). apply Qfloor_resp_le. exact H. }
  destruct (Z.eq_dec (Qfloor q) k) as [E | NE].
  - assert (Hc : Qcompare (q - inject_Z (Qfloor q)) (1 # 2) = Lt).
    { rewrite <- Qlt_alt. rewrite E. lra. }
    rewrite Hc. lia.
  - destruct (Qcompare _ _); [destruct (Z.even _) | |]; lia.
Qed.

Lemma round_half_even_ge (q : Q) (k : Z) : inject_Z k <= q -> (k <= round_half_even q)%Z.
Proof.
  intros H. unfold round_half_even.
  assert (Hfk : (k <= Qfloor q)%Z).
  { rewrite <- (Qfloor_Z k). apply Qfloor_resp_le. exact H. }
  destruct (Qcompare _ _); [destruct (Z.even _) | |]; lia.
Qed.

Lemma RN_unfold (x : Q) : ~ x == 0 ->
  RN x == inject_Z (round_half_even (x / pow2 (ulp_exp x))) * pow2 (ulp_exp x).
Proof.
  intros Hx. unfold RN.
  destruct (Qeq_bool x 0) eqn:E.
  - apply Qeq_bool_iff in E. contradiction.
  - apply Qred_correct.
Qed.

Lemma RN_0 (x : Q) : x == 0 -> RN x = 0.
Proof.
  intros Hx. unfold RN. apply Qeq_bool_iff in Hx. rewrite Hx. reflexivity.
Qed.

Lemma RN_nonneg (x : Q) : 0 <= x -> 0 <= RN x.
Proof.
  intros Hx. destruct (Qeq_dec x 0) as [E | NE].
  - rewrite (RN_0 x E). lra.
  - rewrite (RN_unfold x NE).
    pose proof (pow2_pos (ulp_exp x)) as Hp.
    assert (H0 : (0 <= round_half_even (x / pow2 (ulp_exp x)))%Z).
    { apply round_half_even_ge. apply Qle_shift_div_l; [exact Hp |].
      change (inject_Z 0) with 0. lra. }
    rewrite Zle_Qle in H0. change (inject_Z 0) with 0 in H0. nra.
Qed.

(** Rounding never crosses a representable value. *)
Lemma RN_le (x h : Q) : 0 <= x -> x <= h -> representable h -> RN x <= h.
Proof.
  intros Hx Hxh [m Hm]. destruct (Qeq_dec x 0) as [E | NE].
  { rewrite (RN_0 x E). lra. }
  assert (Hx' : 0 < x) by lra.
  rewrite (RN_unfold x NE).
  pose proof (ulp_exp_mono x h Hx' Hxh) as He.
  set (e := ulp_exp x) in *. set (eh := ulp_exp h) in *.
  pose proof (pow2_pos e) as Hp.
  assert (Ek : h == inject_Z (m * 2 ^ (eh - e)) * pow2 e).
  { rewrite Hm, inject_Z_mult, <- pow2_nonneg_Z by lia.
    rewrite <- Qmult_assoc, <- pow2_add.
    replace (eh - e + e)%Z with eh by lia. reflexivity. }
  assert (Hr : (round_half_even (x / pow2 e) <= m * 2 ^ (eh - e))%Z).
  { apply round_half_even_le. apply Qle_shift_div_r; [exact Hp | lra]. }
  rewrite Zle_Qle in Hr. rewrite Ek. nra.
Qed.

Lemma representable_small_int (m : Z) : (0 < m < 2 ^ 53)%Z -> representable (inject_Z m).
Proof.
  intros [H0 H1].
  assert (Hq : 0 < inject_Z m) by (rewrite <- (Zlt_Qlt 0); exact H0).
  destruct (floor_log2_spec _ Hq) as [L1 L2].
  assert (Hfl : (floor_log2 (inject_Z m) < 53)%Z).
  { destruct (Z_lt_ge_dec (floor_log2 (inject_Z m)) 53) as [H | H]; [exact H |].
    assert (pow2 53 <= pow2 (floor_log2 (inject_Z m))) by (apply pow2_le; lia).
    assert (inject_Z m < pow2 53).
    { rewrite pow2_nonneg_Z by lia. rewrite <- Zlt_Qlt. exact H1. }
    lra. }
  assert (He : (ulp_exp (inject_Z m) <= 0)%Z) by (rewrite ulp_exp_pos by exact Hq; lia).
  set (e := ulp_exp (inject_Z m)) in *.
  assert (E1 : inject_Z (2 ^ (- e)) == pow2 (- e)).
  { symmetry. apply pow2_nonneg_Z. lia. }
  assert (E2 : pow2 (- e) * pow2 e == 1).
  { rewrite <- pow2_add. replace (- e + e)%Z with 0%Z by lia. reflexivity. }
  exists (m * 2 ^ (- e))%Z.
  fold e. rewrite inject_Z_mult, E1, <- Qmult_assoc, E2. lra.
Qed.

Lemma representable_Qeq (x y : Q) : 0 < x -> x == y -> representable x -> representable y.
Proof.
  intros Hx E [m Hm]. exists m.
  assert (Hu : ulp_exp y = ulp_exp x).
  { rewrite (ulp_exp_pos x Hx), (ulp_exp_pos y) by lra.
    rewrite (floor_log2_Qeq x y Hx E). reflexivity. }
  rewrite Hu, <- E. exact Hm.
Qed.

Lemma inject_Z_pred (a : Z) : inject_Z (a - 1) == inject_Z a - 1.
Proof. unfold Z.sub. rewrite inject_Z_plus, inject_Z_opp. reflexivity. Qed.

Lemma representable_zero (x : Q) : x == 0 -> representable x.
Proof. intros E. exists 0%Z. change (inject_Z 0) with 0. rewrite Qmult_0_l. exact E. Qed.

Lemma representable_int (m : Z) : (0 <= m < 2 ^ 53)%Z -> representable (inject_Z m).
Proof.
  intros [H0 H1]. destruct (Z.eq_dec m 0) as [-> | NE].
  - apply representable_zero. reflexivity.
  - apply representable_small_int. lia.
Qed.

Lemma round_half_even_int (q : Q) (k : Z) : q == inject_Z k -> round_half_even q = k.
Proof.
  intros E. apply Z.le_antisymm.
  - apply round_half_even_le. lra.
  - apply round_half_even_ge. lra.
Qed.

(** A representable value rounds to itself. *)
Lemma RN_representable (h : Q) : representable h -> RN h == h.
Proof.
  intros [m Hm]. destruct (Qeq_dec h 0) as [E | NE].
  { rewrite (RN_0 h E). lra. }
  rewrite (RN_unfold h NE).
  pose proof (pow2_pos (ulp_exp h)) as Hp.
  rewrite (round_half_even_int _ m).
  - lra.
  - apply Qeq_sym. 
    assert (E : inject_Z m * pow2 (ulp_exp h) / pow2 (ulp_exp h) == inject_Z m) by (field; lra).
    rewrite <- E. apply Qdiv_comp; [lra | reflexivity].
Qed.

Lemma floor_log2_pow2 (k : Z) : floor_log2 (pow2 k) = k.
Proof.
  apply floor_log2_unique; [lra |]. apply pow2_lt. lia.
Qed.

Lemma representable_pow2 (k : Z) : (-1074 <= k)%Z -> representable (pow2 k).
Proof.
  intros Hk. unfold representable.
  rewrite (ulp_exp_pos _ (pow2_pos k)), floor_log2_pow2.
  set (e := Z.max (k - 52) (-1074)).
  exists (2 ^ (k - e))%Z.
  rewrite <- pow2_nonneg_Z by lia. rewrite <- pow2_add.
  replace (k - e + e)%Z with k by lia. reflexivity.
Qed.

Lemma RN_ge (x l : Q) : 0 < l -> l <= x -> representable l -> l <= RN x.
Proof.
  intros Hl Hlx [m Hm].
  assert (Hx : 0 < x) by lra.
  assert (NE : ~ x == 0) by lra.
  rewrite (RN_unfold x NE).
  pose proof (ulp_exp_mono l x Hl Hlx) as He.
  pose proof (pow2_pos (ulp_exp x)) as Hp.
  destruct (Z.eq_dec (ulp_exp l) (ulp_exp x)) as [Heq | Hne].
  - rewrite Heq in Hm.
    assert (Hr : (m <= round_half_even (x / pow2 (ulp_exp x)))%Z).
    { apply round_half_even_ge. apply Qle_shift_div_l; [exact Hp | lra]. }
    rewrite Zle_Qle in Hr. rewrite Hm. nra.
  - assert (Hlt : (ulp_exp l < ulp_exp x)%Z) by lia.
    rewrite (ulp_exp_pos x Hx) in *. rewrite (ulp_exp_pos l Hl) in *.
    destruct (floor_log2_spec x Hx) as [X1 _].
    destruct (floor_log2_spec l Hl) as [_ L2].
    set (e := Z.max (floor_log2 x - 52) (-1074)) in *.
    assert (Ee : e = (floor_log2 x - 52)%Z) by lia.
    assert (Hr : (2 ^ 52 <= round_half_even (x / pow2 e))%Z).
    { apply round_half_even_ge. apply Qle_shift_div_l; [exact Hp |].
      rewrite <- pow2_nonneg_Z by lia. rewrite <- pow2_add.
      replace (52 + e)%Z with (floor_log2 x) by lia. exact X1. }
    rewrite Zle_Qle in Hr. rewrite <- pow2_nonneg_Z in Hr by lia.
    assert (Hb : pow2 (floor_log2 l + 1) <= pow2 (52 + e)) by (apply pow2_le; lia).
    rewrite (pow2_add 52 e) in Hb.
    assert (pow2 52 * pow2 e <= inject_Z (round_half_even (x / pow2 e)) * pow2 e).
    { apply Qmult_le_compat_r; [exact Hr | lra]. }
    lra.
Qed.

Lemma RN_pos (x : Q) : inject_Z 1 <= x -> 0 < RN x.
Proof.
  intros Hx. 
  assert (H1 : inject_Z 1 <= RN x).
  { apply RN_ge; [reflexivity | exact Hx | apply representable_int; lia]. }
  change (inject_Z 1) with 1 in H1. lra.
Qed.

Lemma representable_scaled (r : Q) (k e : Z) :
  0 < r -> r == inject_Z k * pow2 e -> r < pow2 (e + 53) -> (-1074 <= e)%Z ->
  representable r.
Proof.
  intros Hr Ek Hlt He.
  destruct (floor_log2_spec r Hr) as [R1 R2].
  assert (Hfl : (floor_log2 r < e + 53)%Z).
  { destruct (Z_lt_ge_dec (floor_log2 r) (e + 53)) as [H | H]; [exact H |].
    assert (pow2 (e + 53) <= pow2 (floor_log2 r)) by (apply pow2_le; lia). lra. }
  unfold representable. rewrite (ulp_exp_pos r Hr).
  set (er := Z.max (floor_log2 r - 52) (-1074)).
  exists (k * 2 ^ (e - er))%Z.
  rewrite inject_Z_mult, <- pow2_nonneg_Z by lia.
  rewrite <- Qmult_assoc, <- pow2_add.
  replace (e - er + er)%Z with e by lia. exact Ek.
Qed.

(** Every rounded value is representable. *)
Lemma representable_RN (q : Q) : 0 <= q -> representable (RN q).
Proof.
  intros Hq. destruct (Qeq_dec q 0) as [E | NE].
  { rewrite (RN_0 q E). apply representable_zero. reflexivity. }
  assert (Hq' : 0 < q) by lra.
  pose proof (RN_unfold q NE) as Er.
  pose proof (RN_nonneg q Hq) as Hr0.
  rewrite (ulp_exp_pos q Hq') in Er.
  destruct (floor_log2_spec q Hq') as [_ Q2].
  set (e := Z.max (floor_log2 q - 52) (-1074)) in *.
  pose proof (pow2_pos e) as Hp.
  set (k := round_half_even (q / pow2 e)) in *.
  assert (Hb : pow2 (floor_log2 q + 1) <= pow2 (e + 53)) by (apply pow2_le; lia).
  assert (E53 : pow2 (e + 53) == pow2 e * inject_Z (2 ^ 53)).
  { rewrite pow2_add, <- pow2_nonneg_Z by lia. reflexivity. }
  assert (Hk : (k <= 2 ^ 53)%Z).
  { apply round_half_even_le. apply Qle_shift_div_r; [exact Hp |]. lra. }
  destruct (Qeq_dec (RN q) 0) as [E0 | NE0].
  { apply representable_zero. exact E0. }
  destruct (Z.eq_dec k (2 ^ 53)) as [Ek | Nk].
  - apply (representable_Qeq (pow2 (e + 53))).
    + apply pow2_pos.
    + rewrite Er, Ek, E53. lra.
    + apply representable_pow2. lia.
  - apply (representable_scaled _ k e); [lra | exact Er | | lia].
    assert (Hk' : (k <= 2 ^ 53 - 1)%Z) by lia.
    rewrite Zle_Qle, inject_Z_pred in Hk'. rewrite Er, E53. nra.
Qed.

Lemma max_double_eq : max_double == (inject_Z (2 ^ 53) - 1) * pow2 971.
Proof.
  unfold max_double. rewrite inject_Z_mult, <- (pow2_nonneg_Z 971) by lia.
  rewrite inject_Z_pred. reflexivity.
Qed.

Lemma representable_max_double : representable max_double.
Proof.
  assert (Hpos : 0 < max_double) by reflexivity.
  assert (Hfl : floor_log2 max_double = 1023%Z).
  { apply floor_log2_unique.
    - rewrite pow2_nonneg_Z by lia. unfold max_double. rewrite <- Zle_Qle.
      apply Z.leb_le. vm_compute. reflexivity.
    - rewrite pow2_nonneg_Z by lia. unfold max_double. rewrite <- Zlt_Qlt.
      apply Z.ltb_lt. vm_compute. reflexivity. }
  unfold representable. rewrite (ulp_exp_pos _ Hpos), Hfl.
  exists (2 ^ 53 - 1)%Z. rewrite max_double_eq, inject_Z_pred. reflexivity.
Qed.

(** A non-negative binary64 value below [2^1024] is at most the largest one. *)
Lemma double_le_max (r : Q) :
  0 <= r -> representable r -> r < pow2 1024 -> r <= max_double.
Proof.
  intros H0 [m Hm] Hlt. destruct (Qeq_dec r 0) as [E | NE].
  { rewrite E. discriminate. }
  assert (Hr : 0 < r) by lra.
  destruct (floor_log2_spec r Hr) as [R1 R2].
  rewrite (ulp_exp_pos r Hr) in Hm.
  assert (Hfl : (floor_log2 r < 1024)%Z).
  { destruct (Z_lt_ge_dec (floor_log2 r) 1024) as [H | H]; [exact H |].
    assert (pow2 1024 <= pow2 (floor_log2 r)) by (apply pow2_le; lia). lra. }
  set (e := Z.max (floor_log2 r - 52) (-1074)) in *.
  pose proof (pow2_pos e) as Hp.
  assert (Hb : pow2 (floor_log2 r + 1) <= pow2 (e + 53)) by (apply pow2_le; lia).
  assert (E53 : pow2 (e + 53) == pow2 e * inject_Z (2 ^ 53)).
  { rewrite pow2_add, <- pow2_nonneg_Z by lia. reflexivity. }
  assert (Hm1 : (m < 2 ^ 53)%Z).
  { rewrite Zlt_Qlt. nra. }
  assert (Hm0 : (0 <= m)%Z).
  { rewrite Zle_Qle. change (inject_Z 0) with 0. nra. }
  assert (Hm2 : (m <= 2 ^ 53 - 1)%Z) by lia.
  rewrite Zle_Qle in Hm0, Hm2. change (inject_Z 0) with 0 in Hm0.
  rewrite inject_Z_pred in Hm2.
  assert (He : pow2 e <= pow2 971) by (apply pow2_le; lia).
  rewrite max_double_eq, Hm.
  pose proof (pow2_pos 971).
  assert (0 <= inject_Z (2 ^ 53) - 1) by (vm_compute; discriminate).
  nra.
Qed.

Lemma not_too_large (r : Q) : 0 <= r -> r <= max_double -> too_large r = false.
Proof.
  intros H0 H1. unfold too_large.
  destruct (Qle_bool (pow2 1024) (Qabs r)) eqn:E; [| reflexivity].
  apply Qle_bool_iff in E. rewrite Qabs_pos in E by exact H0.
  assert (max_double < pow2 1024).
  { rewrite pow2_nonneg_Z by lia. unfold max_double. rewrite <- Zlt_Qlt.
    apply Z.ltb_lt. vm_compute. reflexivity. }
  lra.
Qed.

Lemma too_large_false_lt (r : Q) : 0 <= r -> too_large r = false -> r < pow2 1024.
Proof.
  intros H0 H. unfold too_large in H.
  apply Qnot_le_lt. intros Hle.
  rewrite <- (Qabs_pos r H0) in Hle. apply Qle_bool_iff in Hle. congruence.
Qed.

(** [RN] agrees with the primitive binary64 operations: on a quotient, a
    product, a sum, an integer beyond [2^53], and two ties among the
    subnormals. *)
Example RN_div_agrees :
  Q_of_prim (PrimFloat.div (prim 2) (prim 3)) = Some (RN (2 # 3)).
Proof. vm_compute. reflexivity. Qed.

Example RN_mul_agrees :
  Q_of_prim (PrimFloat.mul (PrimFloat.div (prim 2) (prim 3)) (prim 10))
  = Some (RN (RN (2 # 3) * 10)).
Proof. vm_compute. reflexivity. Qed.

Example RN_add_agrees :
  Q_of_prim (PrimFloat.add (PrimFloat.div (prim 1) (prim 10))
               (PrimFloat.div (prim 2) (prim 10)))
  = Some (RN (RN (1 # 10) + RN (2 # 10))).
Proof. vm_compute. reflexivity. Qed.

Example RN_large_int_agrees :
  Q_of_prim (PrimFloat.add (prim (2 ^ 53)) (prim 3)) = Some (RN (inject_Z (2 ^ 53 + 3))).
Proof. vm_compute. reflexivity. Qed.

Example RN_subnormal_tie_up_agrees :
  Q_of_prim
    (PrimFloat.div
       (PrimFloat.mul (prim 3) (PrimFloat.div (shrink 17 (prim 1)) (prim (2 ^ 54))))
       (prim 2))
  = Some (RN (3 # 2 ^ 1075)).
Proof. vm_compute. reflexivity. Qed.

Example RN_subnormal_tie_down_agrees :
  Q_of_prim
    (PrimFloat.div
       (PrimFloat.mul (prim 5) (PrimFloat.div (shrink 17 (prim 1)) (prim (2 ^ 54))))
       (prim 2))
  = Some (RN (5 # 2 ^ 1075)).
Proof. vm_compute. reflexivity. Qed.

(** [round] on the familiar cases: [2.675] lies below the tie and goes down,
    [0.125] and [0.375] are exact ties and go to the even neighbour, [0.005]
    lies above the tie and goes up. *)
Example round_below_tie : round (lit (2675 # 1000)) 2 = Ok (lit (267 # 100)).
Proof. vm_compute. reflexivity. Qed.

Example round_tie_down : round (lit (125 # 1000)) 2 = Ok (lit (12 # 100)).
Proof. vm_compute. reflexivity. Qed.

Example round_tie_up : round (lit (375 # 1000)) 2 = Ok (lit (38 # 100)).
Proof. vm_compute. reflexivity. Qed.

Example round_above_tie : round (lit (5 # 1000)) 2 = Ok (lit (1 # 100)).
Proof. vm_compute. reflexivity. Qed.

(** *** Arithmetic on bounded numbers *)

Lemma small_le_max_double (h : Z) : (h < 2 ^ 53)%Z -> inject_Z h <= max_double.
Proof.
  intros H. unfold max_double. rewrite <- Zle_Qle.
  assert (H1 : (1 <= 2 ^ 971)%Z) by (apply Z.leb_le; vm_compute; reflexivity).
  assert (H2 : (0 <= 2 ^ 53 - 1)%Z) by (apply Z.leb_le; vm_compute; reflexivity).
  transitivity ((2 ^ 53 - 1) * 1)%Z; [lia |].
  apply Z.mul_le_mono_nonneg_l; assumption.
Qed.

(** Rounding a value of [[0, h]] stays in [[0, h]] and does not overflow. *)
Lemma RN_in_range (x : Q) (h : Z) :
  (0 <= h < 2 ^ 53)%Z -> 0 <= x <= inject_Z h ->
  0 <= RN x <= inject_Z h /\ too_large (RN x) = false /\ representable (RN x).
Proof.
  intros Hh [H0 H1].
  assert (Hr : RN x <= inject_Z h).
  { apply RN_le; [exact H0 | exact H1 | apply representable_int; exact Hh]. }
  pose proof (RN_nonneg x H0) as Hn.
  repeat split; try assumption.
  - apply not_too_large; [exact Hn |].
    pose proof (small_le_max_double h ltac:(lia)). lra.
  - apply representable_RN. exact H0.
Qed.

Lemma fround_in_range (x : Q) (h : Z) :
  (0 <= h < 2 ^ 53)%Z -> 0 <= x <= inject_Z h ->
  fround x = Fin (RN x) /\ 0 <= RN x <= inject_Z h /\ representable (RN x).
Proof.
  intros Hh Hx. destruct (RN_in_range x h Hh Hx) as (Hr & Ht & Hp).
  unfold fround. rewrite Ht. auto.
Qed.

Lemma float_of_int_in_range (z h : Z) :
  (0 <= z <= h)%Z -> (h < 2 ^ 53)%Z ->
  float_of_int z = Ok (Fin (RN (inject_Z z))) /\ RN (inject_Z z) == inject_Z z.
Proof.
  intros Hz Hh.
  assert (Hrep : representable (inject_Z z)) by (apply representable_int; lia).
  pose proof (RN_representable _ Hrep) as E.
  unfold float_of_int.
  assert (Ht : too_large (RN (inject_Z z)) = false).
  { apply not_too_large.
    - rewrite E. rewrite <- (Zle_Qle 0). lia.
    - rewrite E. apply small_le_max_double. lia. }
  rewrite Ht. auto.
Qed.

Lemma in_range_weaken (a b : Z) (x : num) : (a <= b)%Z -> in_range a x -> in_range b x.
Proof.
  intros Hab. destruct x as [z | [q | s |]]; simpl; try tauto.
  - lia.
  - rewrite Zle_Qle in Hab. lra.
Qed.

Lemma add_in_range (a b : Z) (x y : num) :
  (0 <= a)%Z -> (0 <= b)%Z -> (a + b < 2 ^ 53)%Z ->
  in_range a x -> in_range b y ->
  exists z, add x y = Ok z /\ in_range (a + b) z.
Proof.
  intros Ha Hb Hab Hx Hy.
  assert (Hsum : inject_Z (a + b) == inject_Z a + inject_Z b) by (rewrite inject_Z_plus; reflexivity).
  destruct x as [zx | [qx | sx |]], y as [zy | [qy | sy |]]; simpl in Hx, Hy; try contradiction.
  - exists (PInt (zx + zy)). split; [reflexivity | simpl; lia].
  - destruct (float_of_int_in_range zx a Hx ltac:(lia)) as [E1 E2].
    unfold add, to_float. rewrite E1. cbn [bind].
    assert (Hr : 0 <= RN (inject_Z zx) + qy <= inject_Z (a + b)).
    { rewrite E2, Hsum. destruct Hx as [Hx0 Hx1].
      rewrite Zle_Qle in Hx0, Hx1. change (inject_Z 0) with 0 in Hx0. lra. }
    destruct (fround_in_range _ (a + b) ltac:(lia) Hr) as (F1 & F2 & _).
    eexists. split; [unfold fadd; rewrite F1; reflexivity | exact F2].
  - destruct (float_of_int_in_range zy b Hy ltac:(lia)) as [E1 E2].
    unfold add, to_float. rewrite E1. cbn [bind].
    assert (Hr : 0 <= qx + RN (inject_Z zy) <= inject_Z (a + b)).
    { rewrite E2, Hsum. destruct Hy as [Hy0 Hy1].
      rewrite Zle_Qle in Hy0, Hy1. change (inject_Z 0) with 0 in Hy0. lra. }
    destruct (fround_in_range _ (a + b) ltac:(lia) Hr) as (F1 & F2 & _).
    eexists. split; [unfold fadd; rewrite F1; reflexivity | exact F2].
  - assert (Hr : 0 <= qx + qy <= inject_Z (a + b)) by (rewrite Hsum; lra).
    destruct (fround_in_range _ (a + b) ltac:(lia) Hr) as (F1 & F2 & _).
    eexists. split; [unfold add, to_float, fadd; cbn [bind]; rewrite F1; reflexivity | exact F2].
Qed.

Lemma sum_from_in_range (xs : list num) : forall (a : Z) (acc : num),
  (0 <= a)%Z -> (a + 10 * Z.of_nat (length xs) < 2 ^ 53)%Z ->
  in_range a acc -> Forall (in_range 10) xs ->
  exists s, sum_from acc xs = Ok s /\ in_range (a + 10 * Z.of_nat (length xs)) s.
Proof.
  induction xs as [| x xs IH]; intros a acc Ha Hlen Hacc Hxs.
  - exists acc. split; [reflexivity |]. cbn [length].
    replace (a + 10 * Z.of_nat 0)%Z with a by lia. exact Hacc.
  - inversion Hxs as [| ? ? Hx Hrest]; subst.
    cbn [length] in Hlen |- *. rewrite Nat2Z.inj_succ in Hlen |- *.
    destruct (add_in_range a 10 acc x Ha ltac:(lia) ltac:(lia) Hacc Hx) as (acc' & E & Hacc').
    destruct (IH (a + 10)%Z acc' ltac:(lia) ltac:(lia) Hacc' Hrest) as (s & Es & Hs).
    exists s. split.
    + cbn [sum_from]. rewrite E. exact Es.
    + replace (a + 10 * Z.succ (Z.of_nat (length xs)))%Z
        with (a + 10 + 10 * Z.of_nat (length xs))%Z by lia. exact Hs.
Qed.

Lemma sum_in_range (xs : list num) :
  (10 * Z.of_nat (length xs) < 2 ^ 53)%Z -> Forall (in_range 10) xs ->
  exists s, sum xs = Ok s /\ in_range (10 * Z.of_nat (length xs)) s.
Proof.
  intros Hlen Hxs.
  destruct (sum_from_in_range xs 0 (PInt 0) ltac:(lia) ltac:(lia)) as (s & E & Hs);
    [simpl; lia | exact Hxs |].
  exists s. split; [exact E | exact Hs].
Qed.

(** A bounded total divided by the number of its terms is a score. *)
Lemma mean_in_range (s : num) (n : Z) :
  (0 < n)%Z -> (10 * n < 2 ^ 53)%Z -> in_range (10 * n) s ->
  exists q, truediv s (PInt n) = Ok (PFloat (Fin q)) /\ 0 <= q <= 10 /\ representable q.
Proof.
  intros Hn Hb Hs.
  assert (Hnq : 0 < inject_Z n) by (rewrite <- (Zlt_Qlt 0); exact Hn).
  assert (Hmul : inject_Z (10 * n) == 10 * inject_Z n) by (rewrite inject_Z_mult; reflexivity).
  destruct s as [z | [x | sx |]]; simpl in Hs; try contradiction.
  - assert (Hq : 0 <= inject_Z z / inject_Z n <= inject_Z 10).
    { destruct Hs as [Hz0 Hz1]. rewrite Zle_Qle in Hz0, Hz1.
      change (inject_Z 0) with 0 in Hz0. rewrite Hmul in Hz1.
      change (inject_Z 10) with 10. split.
      - apply Qle_shift_div_l; lra.
      - apply Qle_shift_div_r; lra. }
    destruct (RN_in_range _ 10 ltac:(lia) Hq) as (R1 & R2 & R3).
    exists (RN (inject_Z z / inject_Z n)). split; [| auto].
    unfold truediv, int_truediv.
    destruct (Z.eqb_spec n 0) as [-> | _]; [lia |].
    rewrite R2. reflexivity.
  - destruct (float_of_int_in_range n n ltac:(lia) ltac:(lia)) as [E1 E2].
    assert (Hq : 0 <= x / RN (inject_Z n) <= inject_Z 10).
    { rewrite Hmul in Hs. change (inject_Z 10) with 10. rewrite E2. split.
      - apply Qle_shift_div_l; lra.
      - apply Qle_shift_div_r; lra. }
    destruct (fround_in_range _ 10 ltac:(lia) Hq) as (F1 & F2 & F3).
    exists (RN (x / RN (inject_Z n))). split; [| auto].
    unfold truediv, to_float. rewrite E1. cbn [bind]. unfold fdiv.
    assert (Hz : Qeq_bool (RN (inject_Z n)) 0 = false).
    { destruct (Qeq_bool (RN (inject_Z n)) 0) eqn:E; [| reflexivity].
      apply Qeq_bool_iff in E. lra. }
    rewrite Hz, F1. reflexivity.
Qed.

Lemma round2_score (x : Q) :
  0 <= x <= 10 ->
  exists r, round (PFloat (Fin x)) 2 = Ok (PFloat (Fin r)) /\ 0 <= r <= 10 /\ representable r.
Proof.
  intros [H0 H1]. unfold round.
  change (Qpower 10 2) with (100 # 1).
  set (k := round_half_even (x * (100 # 1))).
  assert (Hk : (0 <= k <= 1000)%Z).
  { split.
    - apply round_half_even_ge. change (inject_Z 0) with 0. lra.
    - apply round_half_even_le. change (inject_Z 1000) with 1000. lra. }
  assert (Hq : 0 <= inject_Z k / (100 # 1) <= inject_Z 10).
  { destruct Hk as [K0 K1]. rewrite Zle_Qle in K0, K1.
    change (inject_Z 0) with 0 in K0. change (inject_Z 1000) with 1000 in K1.
    change (inject_Z 10) with 10. split.
    - apply Qle_shift_div_l; [reflexivity | lra].
    - apply Qle_shift_div_r; [reflexivity | lra]. }
  destruct (RN_in_range _ 10 ltac:(lia) Hq) as (R1 & R2 & R3).
  exists (RN (inject_Z k / (100 # 1))). rewrite R2. auto.
Qed.

Lemma score_value_in_range (v : num) : score_value v -> in_range 10 v.
Proof. intros (q & -> & H & _). exact H. Qed.

(** The rounded mean of sub-scores is a score. *)
Lemma rounded_mean_score (xs : list num) :
  xs <> [] -> (Z.of_nat (length xs) < 2 ^ 49)%Z -> Forall (in_range 10) xs ->
  exists v, rounded_mean xs = Ok v /\ score_value v.
Proof.
  intros Hne Hlen Hxs.
  assert (Hn : (0 < Z.of_nat (length xs))%Z) by (destruct xs; [congruence | simpl; lia]).
  destruct (sum_in_range xs ltac:(lia) Hxs) as (s & Es & Hs).
  destruct (mean_in_range s _ Hn ltac:(lia) Hs) as (q & Eq & Hq & _).
  destruct (round2_score q Hq) as (r & Er & Hr & Hrep).
  exists (PFloat (Fin r)). split.
  - unfold rounded_mean. rewrite Es. cbn [bind]. unfold len. rewrite Eq. cbn [bind]. exact Er.
  - exists r. auto.
Qed.

(** *** Fallible computations *)

Lemma bind_Ok {A B} (c : result A) (k : A -> result B) (r : B) :
  bind c k = Ok r -> exists a, c = Ok a /\ k a = Ok r.
Proof. destruct c as [a | e]; simpl; [eauto | discriminate]. Qed.

Lemma bind_Raise {A B} (c : result A) (k : A -> result B) (e : exn) :
  bind c k = Raise e -> c = Raise e \/ exists a, c = Ok a /\ k a = Raise e.
Proof. destruct c as [a | e']; simpl; [eauto | intros [= ->]; auto]. Qed.

Ltac inv_bind H :=
  let a := fresh "a" in
  let E := fresh "E" in
  apply bind_Ok in H as (a & E & H).

(** *** Sub-scores lie between 0 and 10 *)

Lemma rate_metric_from_in_range (value : num) (reverse : bool) (thresholds : list num) :
  forall i : Z, (0 <= i)%Z -> (i + Z.of_nat (length thresholds) <= 5)%Z ->
  in_range 10 (_rate_metric_from i value thresholds reverse).
Proof.
  induction thresholds as [| t rest IH]; intros i Hi Hlen; cbn [_rate_metric_from].
  - destruct reverse; cbn [in_range length]; lia.
  - cbn [length] in Hlen. rewrite Nat2Z.inj_succ in Hlen.
    destruct reverse, (le value t); try (cbn [in_range length]; lia); apply IH; lia.
Qed.

Lemma rate_metric_in_range (value : num) (thresholds : list num) (reverse : bool) :
  (length thresholds <= 5)%nat -> in_range 10 (_rate_metric value thresholds reverse).
Proof. intros H. apply rate_metric_from_in_range; lia. Qed.

Lemma check_performance_in_range (response : response) (load_time : num) (d : dict num) :
  _check_performance response load_time = Ok d ->
  Forall (in_range 10) (values d) /\ length d = 4%nat.
Proof.
  intros H. unfold _check_performance in H.
  inv_bind H. inv_bind H. injection H as <-. split; [| reflexivity].
  cbn [values map snd].
  assert (H5 : forall a b c d e : num, (length [a; b; c; d; e] <= 5)%nat)
    by (intros; cbn [length]; lia).
  constructor; [apply rate_metric_in_range, H5 |].
  constructor; [apply rate_metric_in_range, H5 |].
  constructor; [apply rate_metric_in_range, H5 |].
  constructor; [| constructor].
  destruct (contains _ _); cbn [in_range]; lia.
Qed.

Lemma color_contrast_in_range (W : world) (s : soup) :
  in_range 10 (_analyze_color_contrast W s).
Proof.
  unfold _analyze_color_contrast.
  destruct (nonempty _), (contains _ _); cbn [in_range length]; lia.
Qed.

Lemma typography_in_range (W : world) (s : soup) :
  in_range 10 (_analyze_typography W s).
Proof.
  unfold _analyze_typography.
  destruct (nonempty _); cbn [in_range length]; lia.
Qed.

Lemma responsive_design_in_range (W : world) (s : soup) :
  in_range 10 (_check_responsive_design W s).
Proof.
  unfold _check_responsive_design.
  destruct (found _), (contains _ _), (nonempty _); cbn [in_range length]; lia.
Qed.

Lemma visual_hierarchy_in_range (s : soup) : in_range 10 (_analyze_visual_hierarchy s).
Proof.
  unfold _analyze_visual_hierarchy.
  destruct (found _), (nonempty (find_all s ["ul"; "ol"])),
    (nonempty (find_all s ["strong"; "em"])),
    (nonempty (find_all s ["blockquote"; "figure"])); cbn [in_range length]; lia.
Qed.

Lemma headings_in_range (s : soup) : in_range 10 (_analyze_headings s).
Proof.
  unfold _analyze_headings. destruct (negb _); cbn [in_range length]; lia.
Qed.

Lemma aria_landmarks_in_range (s : soup) : in_range 10 (_check_aria_landmarks s).
Proof. unfold _check_aria_landmarks. cbn [in_range]. lia. Qed.

Lemma form_labels_in_range (s : soup) : in_range 10 (_check_form_labels s).
Proof.
  unfold _check_form_labels. destruct (negb _); [cbn [in_range length]; lia |].
  assert (H : forall forms (acc : Z), (0 <= acc)%Z ->
    (0 <= fold_left
            (fun (score : Z) form =>
               if nonempty (tag_find_all form ["input"; "select"; "textarea"])
                  && (length (tag_find_all form ["input"; "select"; "textarea"])
                        <=? length (tag_find_all form ["label"]))%nat
               then (score + 5)%Z else score) forms acc)%Z).
  { induction forms as [| f fs IH]; intros acc Hacc; cbn [fold_left]; [exact Hacc |].
    apply IH. destruct (_ && _); lia. }
  specialize (H (find_all s ["form"]) 0%Z ltac:(lia)). cbn [in_range]. lia.
Qed.

Lemma lit_three_halves_in_range : in_range 2 (lit (15 # 10)).
Proof. vm_compute. split; discriminate. Qed.

Lemma layout_loop_in_range (s : soup) (elements : list string) :
  forall (a : Z) (score : num),
  (0 <= a)%Z -> (a + 2 * Z.of_nat (length elements) < 2 ^ 53)%Z -> in_range a score ->
  exists v, _analyze_layout_loop s elements score = Ok v
            /\ in_range (a + 2 * Z.of_nat (length elements)) v.
Proof.
  induction elements as [| e rest IH]; intros a score Ha Hlen Hs.
  - exists score. split; [reflexivity |]. cbn [length].
    replace (a + 2 * Z.of_nat 0)%Z with a by lia. exact Hs.
  - cbn [length] in Hlen |- *. rewrite Nat2Z.inj_succ in Hlen |- *.
    cbn [_analyze_layout_loop].
    destruct (found (find s e)).
    + destruct (add_in_range a 2 score (lit (15 # 10)) Ha ltac:(lia) ltac:(lia) Hs
                  lit_three_halves_in_range) as (score' & E & Hs').
      rewrite E. cbn [bind].
      destruct (IH (a + 2)%Z score' ltac:(lia) ltac:(lia) Hs') as (v & Ev & Hv).
      exists v. split; [exact Ev |].
      replace (a + 2 * Z.succ (Z.of_nat (length rest)))%Z
        with (a + 2 + 2 * Z.of_nat (length rest))%Z by lia. exact Hv.
    + cbn [bind].
      destruct (IH a score Ha ltac:(lia) Hs) as (v & Ev & Hv).
      exists v. split; [exact Ev |].
      eapply in_range_weaken; [| exact Hv]. lia.
Qed.

(** [min(x, 10)] caps a non-negative number at 10. *)
Lemma min_ten_in_range (a : Z) (x : num) : in_range a x -> in_range 10 (min x (PInt 10)).
Proof.
  intros Hx. unfold min, lt, flt.
  destruct x as [z | [q | sx |]]; simpl in Hx; try contradiction; cbn [cmp_float fle].
  - destruct (Qle_bool (inject_Z z) (inject_Z 10)) eqn:E; cbn [negb]; [| cbn [in_range length]; lia].
    apply Qle_bool_iff in E. rewrite <- Zle_Qle in E. simpl. lia.
  - destruct (Qle_bool q (inject_Z 10)) eqn:E; cbn [negb]; [| cbn [in_range length]; lia].
    apply Qle_bool_iff in E. simpl. lra.
Qed.

Lemma layout_in_range (s : soup) :
  exists v, _analyze_layout s = Ok v /\ in_range 10 v.
Proof.
  destruct (layout_loop_in_range s semantic_elements 0 (PInt 0)) as (score & E & Hs);
    [lia | reflexivity | cbn [in_range]; lia |].
  exists (min score (PInt 10)). split.
  - unfold _analyze_layout. rewrite E. reflexivity.
  - eapply min_ten_in_range. exact Hs.
Qed.

(** The image ratio is defined for every count and is a score. *)
Lemma img_alt_ratio_score (with_alt images : nat) :
  (with_alt <= images)%nat -> (0 < images)%nat ->
  exists v, img_alt_ratio with_alt images = Ok v /\ score_value v.
Proof.
  intros Hle Hpos. unfold img_alt_ratio, truediv, int_truediv.
  destruct (Z.eqb_spec (Z.of_nat images) 0) as [E | _]; [lia |].
  assert (Hn : 0 < inject_Z (Z.of_nat images)) by (rewrite <- (Zlt_Qlt 0); lia).
  assert (Hq : 0 <= inject_Z (Z.of_nat with_alt) / inject_Z (Z.of_nat images) <= inject_Z 1).
  { assert (H0 : (0 <= Z.of_nat with_alt)%Z) by lia.
    assert (H1 : (Z.of_nat with_alt <= Z.of_nat images)%Z) by lia.
    rewrite Zle_Qle in H0, H1. change (inject_Z 0) with 0 in H0.
    change (inject_Z 1) with 1. split.
    - apply Qle_shift_div_l; lra.
    - apply Qle_shift_div_r; lra. }
  destruct (RN_in_range _ 1 ltac:(lia) Hq) as (R1 & R2 & _).
  rewrite R2. cbn [bind]. set (r := RN _) in *.
  destruct (float_of_int_in_range 10 10 ltac:(lia) ltac:(lia)) as [E1 E2].
  unfold mul, to_float. rewrite E1. cbn [bind]. unfold fmul.
  assert (Hm : 0 <= r * RN (inject_Z 10) <= inject_Z 10).
  { rewrite E2. change (inject_Z 10) with 10. change (inject_Z 1) with 1 in R1. lra. }
  destruct (fround_in_range _ 10 ltac:(lia) Hm) as (F1 & F2 & _).
  rewrite F1. change (inject_Z 10) with 10 in F2.
  destruct (round2_score _ F2) as (v & Ev & Hv & Hrep).
  exists (PFloat (Fin v)). split; [exact Ev |]. exists v. auto.
Qed.

Lemma check_img_alt_unfold (s : soup) :
  _check_img_alt s =
    match find_all s ["img"] with
    | [] => Ok (PInt 10)
    | images =>
        img_alt_ratio (length (List.filter (fun img => get_truthy img "alt") images))
          (length images)
    end.
Proof.
  unfold _check_img_alt. destruct (find_all s ["img"]); reflexivity.
Qed.

Lemma check_img_alt_in_range (s : soup) :
  exists v, _check_img_alt s = Ok v /\ in_range 10 v.
Proof.
  rewrite check_img_alt_unfold. destruct (find_all s ["img"]) as [| img images].
  - exists (PInt 10). split; [reflexivity | cbn [in_range length]; lia].
  - destruct (img_alt_ratio_score
                (length (List.filter (fun img => get_truthy img "alt") (img :: images)))
                (length (img :: images))) as (v & E & Hv).
    + apply List.filter_length_le.
    + cbn [length]. lia.
    + exists v. split; [exact E | apply score_value_in_range; exact Hv].
Qed.

Lemma analyze_design_in_range (W : world) (s : soup) :
  exists d, _analyze_design W s = Ok d /\ Forall (in_range 10) (values d)
            /\ length d = 5%nat.
Proof.
  destruct (layout_in_range s) as (v & E & Hv).
  unfold _analyze_design. rewrite E. cbn [bind]. eexists. split; [reflexivity |].
  split; [| reflexivity]. cbn [values map snd].
  constructor; [apply color_contrast_in_range |].
  constructor; [apply typography_in_range |].
  constructor; [exact Hv |].
  constructor; [apply responsive_design_in_range |].
  constructor; [apply visual_hierarchy_in_range | constructor].
Qed.

Lemma check_seo_basics_in_range (s : soup) :
  exists d, _check_seo_basics s = Ok d /\ Forall (in_range 10) (values d)
            /\ length d = 5%nat.
Proof.
  destruct (check_img_alt_in_range s) as (v & E & Hv).
  unfold _check_seo_basics. rewrite E. cbn [bind]. eexists. split; [reflexivity |].
  split; [| reflexivity]. cbn [values map snd].
  constructor; [destruct (found _); cbn [in_range]; lia |].
  constructor; [destruct (found _); cbn [in_range]; lia |].
  constructor; [apply headings_in_range |].
  constructor; [exact Hv |].
  constructor; [destruct (found _); cbn [in_range]; lia | constructor].
Qed.

Lemma check_accessibility_in_range (s : soup) (d : dict num) :
  _check_accessibility s = Ok d ->
  Forall (in_range 10) (values d) /\ length d = 5%nat.
Proof.
  intros H. unfold _check_accessibility in H.
  destruct (find s "html") as [html |]; [| discriminate].
  cbn [bind] in H. destruct (check_img_alt_in_range s) as (v & E & Hv).
  rewrite E in H. cbn [bind] in H. injection H as <-. split; [| reflexivity].
  cbn [values map snd].
  constructor; [destruct (get_truthy _ _); cbn [in_range]; lia |].
  constructor; [apply aria_landmarks_in_range |].
  constructor; [apply form_labels_in_range |].
  constructor; [exact Hv |].
  constructor; [apply headings_in_range | constructor].
Qed.

Lemma check_accessibility_found (s : soup) (html : node) :
  find s "html" = Some html -> exists d, _check_accessibility s = Ok d.
Proof.
  intros H. unfold _check_accessibility. rewrite H. cbn [bind].
  destruct (check_img_alt_in_range s) as (v & E & _). rewrite E. cbn [bind]. eauto.
Qed.

(** Without an [html] tag the [lang] lookup is made on [None]. *)
Lemma check_accessibility_no_html (s : soup) :
  find s "html" = None ->
  _check_accessibility s = Raise (AttributeError "'NoneType' object has no attribute 'get'").
Proof. intros H. unfold _check_accessibility. rewrite H. reflexivity. Qed.

(** *** Sums and means of non-negative floats never raise *)

Lemma fround_nonneg_double (q : Q) : 0 <= q -> nonneg_double (fround q).
Proof.
  intros Hq. unfold fround. destruct (too_large (RN q)) eqn:E.
  - cbn [nonneg_double]. unfold is_neg.
    assert (H : Qle_bool 0 q = true) by (apply Qle_bool_iff; exact Hq).
    rewrite H. reflexivity.
  - cbn [nonneg_double]. pose proof (RN_nonneg q Hq) as Hr.
    repeat split; [exact Hr | apply representable_RN; exact Hq |].
    apply too_large_false_lt; assumption.
Qed.

Lemma fadd_nonneg_double (a b : float) :
  nonneg_double a -> nonneg_double b -> nonneg_double (fadd a b).
Proof.
  destruct a as [x | sa |], b as [y | sb |]; cbn [nonneg_double fadd]; try tauto.
  - intros (Hx & _) (Hy & _). apply fround_nonneg_double. lra.
  - intros -> ->. reflexivity.
Qed.

Lemma score_value_nonneg_double (v : num) :
  score_value v -> exists f, v = PFloat f /\ nonneg_double f.
Proof.
  intros (q & -> & [H0 H1] & Hrep). exists (Fin q). split; [reflexivity |].
  cbn [nonneg_double]. repeat split; [exact H0 | exact Hrep |].
  assert (inject_Z 10 < pow2 1024).
  { rewrite pow2_nonneg_Z by lia. rewrite <- Zlt_Qlt. reflexivity. }
  change (inject_Z 10) with 10 in *. lra.
Qed.

Lemma nonneg_double_zero : nonneg_double (Fin 0).
Proof.
  cbn [nonneg_double]. split; [discriminate |]. split.
  - apply representable_zero. reflexivity.
  - apply pow2_pos.
Qed.

Lemma float_of_int_zero : float_of_int 0 = Ok (Fin 0).
Proof. reflexivity. Qed.

Lemma add_float_total (acc v : num) :
  float_total acc -> score_value v -> exists acc', add acc v = Ok acc' /\ float_total acc'.
Proof.
  intros Hacc Hv. destruct (score_value_nonneg_double v Hv) as (f & -> & Hf).
  destruct Hacc as [-> | (g & -> & Hg)].
  - exists (PFloat (fadd (Fin 0) f)). split; [reflexivity |].
    right. eexists. split; [reflexivity |].
    apply fadd_nonneg_double; [apply nonneg_double_zero | exact Hf].
  - exists (PFloat (fadd g f)). split; [reflexivity |].
    right. eexists. split; [reflexivity |]. apply fadd_nonneg_double; assumption.
Qed.

Lemma sum_from_float_total (vs : list num) : forall acc,
  float_total acc -> Forall score_value vs ->
  exists s, sum_from acc vs = Ok s /\ float_total s.
Proof.
  induction vs as [| v vs IH]; intros acc Hacc Hvs.
  - exists acc. auto.
  - inversion Hvs as [| ? ? Hv Hrest]; subst.
    destruct (add_float_total acc v Hacc Hv) as (acc' & E & Hacc').
    destruct (IH acc' Hacc' Hrest) as (s & Es & Hs).
    exists s. split; [| exact Hs]. cbn [sum_from]. rewrite E. exact Es.
Qed.

Lemma float_of_int_len (n : Z) :
  (0 < n <= sys_maxsize)%Z ->
  exists r, float_of_int n = Ok (Fin r) /\ 0 < r.
Proof.
  intros [H0 H1]. unfold float_of_int.
  assert (Hq : inject_Z 1 <= inject_Z n) by (rewrite <- Zle_Qle; lia).
  pose proof (RN_pos _ Hq) as Hpos.
  assert (Hle : RN (inject_Z n) <= pow2 63).
  { apply RN_le.
    - rewrite <- (Zle_Qle 0). lia.
    - rewrite pow2_nonneg_Z by lia. rewrite <- Zle_Qle. unfold sys_maxsize in H1. lia.
    - apply representable_pow2. lia. }
  assert (Ht : too_large (RN (inject_Z n)) = false).
  { apply not_too_large; [lra |].
    assert (pow2 63 <= max_double).
    { rewrite pow2_nonneg_Z by lia. unfold max_double. rewrite <- Zle_Qle.
      apply Z.leb_le. vm_compute. reflexivity. }
    lra. }
  rewrite Ht. eauto.
Qed.

Lemma round2_nonneg_double (f : float) :
  nonneg_double f -> exists v, round (PFloat f) 2 = Ok v.
Proof.
  destruct f as [y | s |]; cbn [nonneg_double]; [| eauto | tauto].
  intros (H0 & Hrep & Hlt). unfold round.
  change (Qpower 10 2) with (100 # 1).
  pose proof (double_le_max y H0 Hrep Hlt) as Hmax.
  set (k := round_half_even (y * (100 # 1))).
  assert (Hk0 : (0 <= k)%Z).
  { apply round_half_even_ge. change (inject_Z 0) with 0. lra. }
  assert (Hk1 : (k <= 100 * ((2 ^ 53 - 1) * 2 ^ 971))%Z).
  { apply round_half_even_le. rewrite inject_Z_mult. fold max_double.
    change (inject_Z 100) with 100. lra. }
  rewrite Zle_Qle in Hk0, Hk1. change (inject_Z 0) with 0 in Hk0.
  rewrite inject_Z_mult in Hk1. fold max_double in Hk1.
  change (inject_Z 100) with 100 in Hk1.
  assert (Hq : 0 <= inject_Z k / (100 # 1) <= max_double).
  { split.
    - apply Qle_shift_div_l; [reflexivity | lra].
    - apply Qle_shift_div_r; [reflexivity | lra]. }
  assert (Ht : too_large (RN (inject_Z k / (100 # 1))) = false).
  { apply not_too_large.
    - apply RN_nonneg. tauto.
    - apply RN_le; [tauto | tauto | apply representable_max_double]. }
  rewrite Ht. eauto.
Qed.

(** The average of the scores of [n] successful results is defined. *)
Lemma average_defined (vs : list num) (n : Z) :
  Forall score_value vs -> (0 < n <= sys_maxsize)%Z ->
  exists avg,
    (let* s := sum vs in let* q := truediv s (PInt n) in round q 2) = Ok avg.
Proof.
  intros Hvs Hn.
  destruct (sum_from_float_total vs (PInt 0) (or_introl eq_refl) Hvs) as (s & Es & Hs).
  unfold sum. rewrite Es. cbn [bind].
  destruct (float_of_int_len n Hn) as (r & Er & Hr).
  destruct Hs as [-> | (f & -> & Hf)].
  - unfold truediv, int_truediv.
    destruct (Z.eqb_spec n 0) as [-> | _]; [lia |].
    assert (E0 : RN (inject_Z 0 / inject_Z n) = 0).
    { apply RN_0. unfold Qdiv. change (inject_Z 0) with 0. apply Qmult_0_l. }
    rewrite E0. cbn [bind]. apply round2_nonneg_double, nonneg_double_zero.
  - unfold truediv, to_float. rewrite Er. cbn [bind]. unfold fdiv.
    assert (Hz : Qeq_bool r 0 = false).
    { destruct (Qeq_bool r 0) eqn:E; [| reflexivity]. apply Qeq_bool_iff in E. lra. }
    rewrite Hz. destruct f as [x | sx |]; cbn [nonneg_double] in Hf; [| | tauto].
    + cbn [bind]. apply round2_nonneg_double. apply fround_nonneg_double.
      destruct Hf as (Hx & _). apply Qle_shift_div_l; lra.
    + cbn [bind]. eauto.
Qed.

(** *** One site *)

Lemma len_values {V} (d : dict V) : len (values d) = len d.
Proof. unfold len, values. now rewrite List.length_map. Qed.

(** The steps a successful analysis went through. *)
Lemma analyze_website_try_inv (self : WebsiteRater) (W : world) (url : string)
    (r : site_result) :
  analyze_website_try self W url = Ok r ->
  exists response soup pm dm sm am p d s a o,
    requests_get W url (headers self) (timeout self) = Ok response
    /\ raise_for_status response = Ok tt
    /\ BeautifulSoup W (text response) = Ok soup
    /\ _check_performance response (PFloat (load_time_of W url)) = Ok pm
    /\ _analyze_design W soup = Ok dm
    /\ _check_seo_basics soup = Ok sm
    /\ _check_accessibility soup = Ok am
    /\ rounded_mean (values pm) = Ok p
    /\ rounded_mean (values dm) = Ok d
    /\ rounded_mean (values sm) = Ok s
    /\ rounded_mean (values am) = Ok a
    /\ rounded_mean [p; d; s; a] = Ok o
    /\ r = Success url
             [ ("performance_score", p); ("design_score", d); ("seo_score", s);
               ("accessibility_score", a); ("overall_score", o) ]
             [ ("performance", pm); ("design", dm); ("seo", sm); ("accessibility", am) ].
Proof.
  intros H. unfold analyze_website_try in H.
  apply bind_Ok in H as (response & Eget & H).
  apply bind_Ok in H as ([] & Estatus & H).
  apply bind_Ok in H as (soup & Eparse & H).
  apply bind_Ok in H as (pm & Epm & H).
  apply bind_Ok in H as (dm & Edm & H).
  apply bind_Ok in H as (sm & Esm & H).
  apply bind_Ok in H as (am & Eam & H).
  apply bind_Ok in H as (p & Ep & H).
  apply bind_Ok in H as (d & Ed & H).
  apply bind_Ok in H as (s & Es & H).
  apply bind_Ok in H as (a & Ea & H).
  apply bind_Ok in H as (o & Eo & H).
  injection H as <-.
  rewrite <- len_values in Ep, Ed, Es, Ea.
  exists response, soup, pm, dm, sm, am, p, d, s, a, o.
  repeat (split; [assumption |]). reflexivity.
Qed.

Lemma analyze_website_try_url (self : WebsiteRater) (W : world) (url : string)
    (r : site_result) :
  analyze_website_try self W url = Ok r -> exists scores metrics, r = Success url scores metrics.
Proof.
  intros H. apply analyze_website_try_inv in H.
  destruct H as (? & ? & ? & ? & ? & ? & ? & ? & ? & ? & ? & H).
  do 12 destruct H as [_ H]. eauto.
Qed.

Lemma group_score (d : dict num) (n : nat) :
  Forall (in_range 10) (values d) -> length d = S n -> (n < 5)%nat ->
  forall v, rounded_mean (values d) = Ok v -> score_value v.
Proof.
  intros Hd Hlen Hn v Hv.
  assert (Hl : length (values d) = S n) by (unfold values; now rewrite List.length_map).
  destruct (rounded_mean_score (values d)) as (v' & E & Hs).
  - destruct (values d); [discriminate | congruence].
  - rewrite Hl. apply Z.ltb_lt. destruct n as [| [| [| [| [| n]]]]]; try reflexivity. lia.
  - exact Hd.
  - congruence.
Qed.

(** Every result of [analyze_website] is well formed, and all its
    sub-scores lie between 0 and 10. *)
Lemma analyze_website_try_scored (self : WebsiteRater) (W : world) (url : string)
    (u : string) (scores : dict num) (metrics : dict (dict num)) :
  analyze_website_try self W url = Ok (Success u scores metrics) ->
  well_formed (Success u scores metrics)
  /\ Forall (fun group => Forall (in_range 10) (values (snd group))) metrics.
Proof.
  intros H. apply analyze_website_try_inv in H.
  destruct H as (response & soup & pm & dm & sm & am & p & d & s & a & o
                 & _ & _ & _ & Epm & Edm & Esm & Eam & Ep & Ed & Es & Ea & Eo & Er).
  injection Er as -> -> ->.
  apply check_performance_in_range in Epm as [Rpm Lpm].
  destruct (analyze_design_in_range W soup) as (dm' & Edm' & Rdm & Ldm).
  rewrite Edm in Edm'. injection Edm' as <-.
  destruct (check_seo_basics_in_range soup) as (sm' & Esm' & Rsm & Lsm).
  rewrite Esm in Esm'. injection Esm' as <-.
  apply check_accessibility_in_range in Eam as [Ram Lam].
  pose proof (group_score pm 3 Rpm Lpm ltac:(lia) p Ep) as Hp.
  pose proof (group_score dm 4 Rdm Ldm ltac:(lia) d Ed) as Hd.
  pose proof (group_score sm 4 Rsm Lsm ltac:(lia) s Es) as Hs.
  pose proof (group_score am 4 Ram Lam ltac:(lia) a Ea) as Ha.
  assert (Ho : score_value o).
  { destruct (rounded_mean_score [p; d; s; a]) as (o' & E & Hv).
    - discriminate.
    - reflexivity.
    - repeat constructor; apply score_value_in_range; assumption.
    - congruence. }
  split.
  - cbn [well_formed]. exists p, d, s, a, o. auto 10.
  - repeat constructor; assumption.
Qed.

Lemma analyze_website_well_formed (self : WebsiteRater) (W : world) (url : string) :
  well_formed (analyze_website self W url).
Proof.
  unfold analyze_website.
  destruct (analyze_website_try self W (normalize url)) as [r | e] eqn:E; [| exact I].
  destruct (analyze_website_try_url _ _ _ _ E) as (scores & metrics & ->).
  apply (analyze_website_try_scored _ _ _ _ _ _ E).
Qed.

(** *** A batch *)

Lemma gather_length (worker : string -> result site_result) (urls : list string) :
  length (gather worker urls) = length urls.
Proof. unfold gather. apply List.length_map. Qed.

Lemma well_formed_getitem (u : string) (scores : dict num) (metrics : dict (dict num))
    (key : string) :
  well_formed (Success u scores metrics) -> In key score_keys ->
  exists v, getitem scores key = Ok v /\ score_value v.
Proof.
  intros (p & d & s & a & o & -> & Hp & Hd & Hs & Ha & Ho) Hkey.
  unfold score_keys in Hkey. cbn [In] in Hkey.
  destruct Hkey as [<- | [<- | [<- | [<- | [<- | []]]]]]; eexists; (split; [reflexivity | assumption]).
Qed.

Lemma scores_of_successes (key : string) (rs : list site_result) :
  Forall well_formed rs -> Forall (fun r => success r = true) rs -> In key score_keys ->
  exists vs, mapM (fun r => let* scores := scores_of r in getitem scores key) rs = Ok vs
             /\ Forall score_value vs.
Proof.
  intros Hwf Hsucc Hkey. induction rs as [| r rs IH].
  - exists []. split; [reflexivity | constructor].
  - inversion Hwf as [| ? ? Hr Hwf']; subst. inversion Hsucc as [| ? ? Sr Hsucc']; subst.
    destruct r as [u scores metrics | u msg]; [| discriminate].
    destruct (well_formed_getitem u scores metrics key Hr Hkey) as (v & Ev & Hv).
    destruct (IH Hwf' Hsucc') as (vs & Evs & Hvs).
    exists (v :: vs). split; [| constructor; assumption].
    cbn [mapM scores_of bind]. rewrite Ev. cbn [bind]. rewrite Evs. reflexivity.
Qed.

Lemma filterM_total {A} (f : A -> result bool) (g : A -> bool) (xs : list A) :
  Forall (fun x => f x = Ok (g x)) xs -> filterM f xs = Ok (List.filter g xs).
Proof.
  induction 1 as [| x xs Hx _ IH]; [reflexivity |].
  cbn [filterM List.filter]. rewrite Hx. cbn [bind]. rewrite IH. reflexivity.
Qed.

Lemma well_formed_overall (r : site_result) :
  well_formed r -> success r = true -> exists o, overall_of r = Some o /\ score_value o.
Proof.
  destruct r as [u scores metrics | u msg]; [| discriminate].
  intros (p & d & s & a & o & -> & _ & _ & _ & _ & Ho) _. exists o. split; [reflexivity | exact Ho].
Qed.

Lemma well_formed_has_overall (r : site_result) : well_formed r -> has_overall r.
Proof.
  intros Hr Hs. destruct (well_formed_overall r Hr Hs) as (o & Eo & _). eauto.
Qed.

Lemma get_top_performers_total (results : list site_result) (threshold : num) :
  Forall has_overall results ->
  _get_top_performers results threshold = Ok (List.filter (is_top threshold) results).
Proof.
  intros Hwf. apply filterM_total. eapply List.Forall_impl; [| exact Hwf].
  intros r Hr. cbn beta. unfold is_top.
  destruct r as [u scores metrics | u msg]; [| reflexivity].
  destruct (Hr eq_refl) as (o & Eo).
  rewrite Eo. cbn [success scores_of bind]. cbn [overall_of] in Eo.
  destruct (getitem scores "overall_score") as [v | e]; [| discriminate].
  injection Eo as ->. reflexivity.
Qed.

Lemma get_needs_improvement_total (results : list site_result) (threshold : num) :
  Forall has_overall results ->
  _get_needs_improvement results threshold = Ok (List.filter (is_low threshold) results).
Proof.
  intros Hwf. apply filterM_total. eapply List.Forall_impl; [| exact Hwf].
  intros r Hr. cbn beta. unfold is_low.
  destruct r as [u scores metrics | u msg]; [| reflexivity].
  destruct (Hr eq_refl) as (o & Eo).
  rewrite Eo. cbn [success scores_of bind]. cbn [overall_of] in Eo.
  destruct (getitem scores "overall_score") as [v | e]; [| discriminate].
  injection Eo as ->. reflexivity.
Qed.

Lemma mapM_total {A B} (f : A -> result B) (xs : list A) :
  Forall (fun x => exists y, f x = Ok y) xs -> exists ys, mapM f xs = Ok ys.
Proof.
  induction 1 as [| x xs [y Hy] _ [ys IH]]; [exists []; reflexivity |].
  exists (y :: ys). cbn [mapM]. rewrite Hy. cbn [bind]. rewrite IH. reflexivity.
Qed.

(** The averages over well-formed results are always defined. *)
Lemma averages_total (results : list site_result) :
  Forall well_formed results ->
  List.filter success results = [] \/ (Z.of_nat (length results) <= sys_maxsize)%Z ->
  exists averages,
    (if nonempty (List.filter success results) then
       mapM
         (fun key =>
            let* vs := mapM (fun r => let* scores := scores_of r in getitem scores key)
                         (List.filter success results) in
            let* s := sum vs in
            let* q := truediv s (len (List.filter success results)) in
            let* avg := round q 2 in
            Ok (key, avg))
         score_keys
     else Ok []) = Ok averages
    /\ (List.filter success results = [] -> averages = []).
Proof.
  intros Hwf Hlen.
  set (successful_results := List.filter success results) in *.
  assert (Hsw : Forall well_formed successful_results).
  { apply List.Forall_forall. intros r Hr. apply List.filter_In in Hr as [Hr _].
    rewrite List.Forall_forall in Hwf. auto. }
  assert (Hss : Forall (fun r => success r = true) successful_results).
  { apply List.Forall_forall. intros r Hr. apply List.filter_In in Hr as [_ Hr]. exact Hr. }
  destruct (nonempty successful_results) eqn:Hne.
  - assert (Hn : (0 < Z.of_nat (length successful_results) <= sys_maxsize)%Z).
    { destruct Hlen as [Hnil | Hlen].
      { rewrite Hnil in Hne. discriminate. }
      split.
      - destruct successful_results; [discriminate | cbn [length]; lia].
      - pose proof (List.filter_length_le success results) as Hf.
        fold successful_results in Hf. lia. }
    destruct (mapM_total
                (fun key =>
                   let* vs := mapM (fun r => let* scores := scores_of r in getitem scores key)
                                successful_results in
                   let* s := sum vs in
                   let* q := truediv s (len successful_results) in
                   let* avg := round q 2 in
                   Ok (key, avg))
                score_keys) as (averages & Eavg).
    { apply List.Forall_forall. intros key Hkey.
      destruct (scores_of_successes key successful_results Hsw Hss Hkey) as (vs & Evs & Hvs).
      rewrite Evs. cbn [bind].
      destruct (average_defined vs _ Hvs Hn) as (avg & Ea).
      apply bind_Ok in Ea as (s & Es & Ea). rewrite Es. cbn [bind].
      apply bind_Ok in Ea as (q & Eq & Ea). unfold len. rewrite Eq. cbn [bind].
      rewrite Ea. cbn [bind]. eauto. }
    exists averages. split; [exact Eavg |].
    intros E. rewrite E in Hne. discriminate.
  - exists []. split; reflexivity.
Qed.

(** The report of well-formed results is always built; only its two clock
    texts depend on the clock. *)
Lemma build_report_total (urls : list string) (results : list site_result) :
  Forall well_formed results ->
  List.filter success results = [] \/ (Z.of_nat (length results) <= sys_maxsize)%Z ->
  exists averages,
    (forall C : clock,
       build_report C urls results =
         Ok (Report (now_text C) (Z.of_nat (length urls))
               (Z.of_nat (length (List.filter success results))) (elapsed_text C)
               averages results
               (List.filter (is_top (lit 8)) results)
               (List.filter (is_low (lit 5)) results)))
    /\ (List.filter success results = [] -> averages = []).
Proof.
  intros Hwf Hlen.
  destruct (averages_total results Hwf Hlen) as (averages & Eavg & Hnil).
  exists averages. split; [| exact Hnil].
  intros C. unfold build_report.
  assert (Hov : Forall has_overall results).
  { eapply List.Forall_impl; [| exact Hwf]. apply well_formed_has_overall. }
  rewrite (get_top_performers_total _ _ Hov), (get_needs_improvement_total _ _ Hov).
  rewrite Eavg. reflexivity.
Qed.

(** *** The batch keeps one result per URL *)

Lemma gather_analyze (self : WebsiteRater) (W : world) (urls : list string) :
  gather (fun url => Ok (analyze_website self W url)) urls
  = map (analyze_website self W) urls.
Proof. reflexivity. Qed.

Lemma gather_well_formed (worker : string -> result site_result) (urls : list string) :
  (forall u r, worker u = Ok r -> well_formed r) ->
  Forall well_formed (gather worker urls).
Proof.
  intros Hw. unfold gather. apply List.Forall_forall. intros r Hr.
  apply List.in_map_iff in Hr as (u & <- & _).
  destruct (worker u) as [r | e] eqn:E; cbn [future_result]; [eauto | exact I].
Qed.

Lemma analyze_websites_with_total (self : WebsiteRater) (C : clock)
    (worker : string -> result site_result) (urls : list string) :
  (0 < max_workers self)%Z ->
  (forall u r, worker u = Ok r -> well_formed r) ->
  List.filter success (gather worker urls) = []
    \/ (Z.of_nat (length urls) <= sys_maxsize)%Z ->
  exists averages,
    analyze_websites_with self C worker urls =
      Ok (Report (now_text C) (Z.of_nat (length urls))
            (Z.of_nat (length (List.filter success (gather worker urls))))
            (elapsed_text C) averages (gather worker urls)
            (List.filter (is_top (lit 8)) (gather worker urls))
            (List.filter (is_low (lit 5)) (gather worker urls)))
    /\ (List.filter success (gather worker urls) = [] -> averages = []).
Proof.
  intros Hmw Hw Hlen. unfold analyze_websites_with.
  destruct (Z.leb_spec (max_workers self) 0) as [Hle | _]; [lia |].
  destruct (build_report_total urls (gather worker urls)) as (averages & E & Hnil).
  - apply gather_well_formed. exact Hw.
  - rewrite gather_length. exact Hlen.
  - exists averages. split; [apply E | exact Hnil].
Qed.

(** C1: for every batch call, [detailed_results] holds exactly one result
    per input URL, in the order of the URLs: it has the length of [urls] and
    its entry at each position is the result of analysing the URL at that
    position, whatever the mix of successes and failures.  (A pool needs at
    least one worker, and a Python list holds at most [sys.maxsize] items.) *)
Theorem one_result_per_url (self : WebsiteRater) (W : world) (C : clock)
    (urls : list string) :
  (0 < max_workers self)%Z ->
  (Z.of_nat (length urls) <= sys_maxsize)%Z ->
  exists rep,
    analyze_websites self W C urls = Ok rep
    /\ length (detailed_results rep) = length urls
    /\ (forall i url, urls !! i = Some url ->
          detailed_results rep !! i = Some (analyze_website self W url))
    /\ (forall i, urls !! i = None -> detailed_results rep !! i = None).
Proof.
  intros Hmw Hlen. unfold analyze_websites.
  destruct (analyze_websites_with_total self C
              (fun url => Ok (analyze_website self W url)) urls Hmw)
    as (averages & E & _).
  - intros u r [= <-]. apply analyze_website_well_formed.
  - right. exact Hlen.
  - eexists. split; [exact E |]. cbn [detailed_results].
    rewrite gather_analyze. split; [apply List.length_map |]. split.
    + intros i url Hi. change (map (analyze_website self W) urls)
        with (analyze_website self W <$> urls).
      rewrite list_lookup_fmap, Hi. reflexivity.
    + intros i Hi. change (map (analyze_website self W) urls)
        with (analyze_website self W <$> urls).
      rewrite list_lookup_fmap, Hi. reflexivity.
Qed.

Lemma one_result_per_url_witness :
  (0 < max_workers default_rater)%Z
  /\ (Z.of_nat (length Sample.urls) <= sys_maxsize)%Z
  /\ exists rep,
       analyze_websites default_rater Sample.W Sample.C Sample.urls = Ok rep
       /\ length (detailed_results rep) = length Sample.urls
       /\ (forall i url, Sample.urls !! i = Some url ->
             detailed_results rep !! i = Some (analyze_website default_rater Sample.W url))
       /\ (forall i, Sample.urls !! i = None -> detailed_results rep !! i = None).
Proof.
  split; [reflexivity |]. split; [vm_compute; discriminate |].
  apply (one_result_per_url default_rater Sample.W Sample.C Sample.urls).
  - reflexivity.
  - vm_compute; discriminate.
Defined.

(** *** Failures are values *)

Lemma analyze_website_raise (self : WebsiteRater) (W : world) (url : string) (e : exn) :
  analyze_website_try self W (normalize url) = Raise e ->
  analyze_website self W url = Failure (normalize url) (str_exn e).
Proof. intros H. unfold analyze_website. rewrite H. reflexivity. Qed.

Lemma analyze_website_ok (self : WebsiteRater) (W : world) (url : string)
    (r : site_result) :
  analyze_website_try self W (normalize url) = Ok r ->
  analyze_website self W url = r.
Proof. intros H. unfold analyze_website. rewrite H. reflexivity. Qed.

Lemma raise_for_status_error (resp : response) :
  (400 <= status_code resp < 600)%Z ->
  exists msg, raise_for_status resp = Raise (Exn "HTTPError" msg).
Proof.
  intros [H4 H6]. unfold raise_for_status.
  destruct (Z.leb_spec 400 (status_code resp)) as [_ | ?]; [| lia].
  destruct (Z.ltb_spec (status_code resp) 500) as [_ | H5]; cbn [andb]; [eauto |].
  destruct (Z.leb_spec 500 (status_code resp)) as [_ | ?]; [| lia].
  destruct (Z.ltb_spec (status_code resp) 600) as [_ | ?]; [| lia].
  cbn [andb]. eauto.
Qed.

Lemma raise_for_status_pass (resp : response) :
  (status_code resp < 400)%Z \/ (600 <= status_code resp)%Z ->
  raise_for_status resp = Ok tt.
Proof.
  intros H. unfold raise_for_status.
  destruct (Z.leb_spec 400 (status_code resp)), (Z.ltb_spec (status_code resp) 500),
    (Z.leb_spec 500 (status_code resp)), (Z.ltb_spec (status_code resp) 600);
    cbn [andb]; try reflexivity; lia.
Qed.

Lemma gather_lookup (worker : string -> result site_result) (urls : list string)
    (i : nat) (url : string) :
  urls !! i = Some url ->
  gather worker urls !! i = Some (future_result (worker url) url).
Proof.
  intros Hi. unfold gather.
  change (map ?f urls) with (f <$> urls). rewrite list_lookup_fmap, Hi. reflexivity.
Qed.

(** C2, as amended: [analyze_website] turns every exception of its body into
    a failure entry that carries the requested URL and the text of the
    exception: an exception of the request itself (timeout, connection
    failure), the [HTTPError] that [raise_for_status] raises for a 4xx or 5xx
    status, an exception of the parser, and any other exception.  The batch
    coordinator turns an exception that escapes a worker into a failure entry
    for the URL of that worker, at that URL's position, and still builds the
    report. *)
Theorem failures_are_values (self : WebsiteRater) (W : world) (url : string) :
  (forall e,
     requests_get W (normalize url) (headers self) (timeout self) = Raise e ->
     analyze_website self W url = Failure (normalize url) (str_exn e))
  /\ (forall resp,
        requests_get W (normalize url) (headers self) (timeout self) = Ok resp ->
        (400 <= status_code resp < 600)%Z ->
        exists msg,
          raise_for_status resp = Raise (Exn "HTTPError" msg)
          /\ analyze_website self W url = Failure (normalize url) msg)
  /\ (forall resp e,
        requests_get W (normalize url) (headers self) (timeout self) = Ok resp ->
        raise_for_status resp = Ok tt ->
        BeautifulSoup W (text resp) = Raise e ->
        analyze_website self W url = Failure (normalize url) (str_exn e))
  /\ (forall e,
        analyze_website_try self W (normalize url) = Raise e ->
        analyze_website self W url = Failure (normalize url) (str_exn e))
  /\ (forall (C : clock) (worker : string -> result site_result) (urls : list string),
        (0 < max_workers self)%Z ->
        (Z.of_nat (length urls) <= sys_maxsize)%Z ->
        (forall u r, worker u = Ok r -> well_formed r) ->
        exists rep,
          analyze_websites_with self C worker urls = Ok rep
          /\ length (detailed_results rep) = length urls
          /\ forall i u e,
               urls !! i = Some u -> worker u = Raise e ->
               detailed_results rep !! i = Some (Failure u (str_exn e))).
Proof.
  repeat split.
  - intros e He. apply analyze_website_raise. unfold analyze_website_try.
    rewrite He. reflexivity.
  - intros resp Hget Hst. destruct (raise_for_status_error resp Hst) as (msg & Hmsg).
    exists msg. split; [exact Hmsg |].
    change msg with (str_exn (Exn "HTTPError" msg)).
    apply analyze_website_raise. unfold analyze_website_try.
    rewrite Hget. cbn [bind]. rewrite Hmsg. reflexivity.
  - intros resp e Hget Hst Hparse. apply analyze_website_raise.
    unfold analyze_website_try. rewrite Hget. cbn [bind]. rewrite Hst. cbn [bind].
    rewrite Hparse. reflexivity.
  - apply analyze_website_raise.
  - intros C worker urls Hmw Hlen Hw.
    destruct (analyze_websites_with_total self C worker urls Hmw Hw (or_intror Hlen))
      as (averages & E & _).
    eexists. split; [exact E |]. cbn [detailed_results].
    split; [apply gather_length |].
    intros i u e Hi He. rewrite (gather_lookup worker urls i u Hi), He. reflexivity.
Qed.

Lemma failures_are_values_witness :
  analyze_website default_rater Sample.W "nowhere.example"
    = Failure "https://nowhere.example" "Failed to establish a new connection"
  /\ analyze_website default_rater Sample.W "gone.example"
     = Failure "https://gone.example"
         "404 Client Error: Not Found for url: https://gone.example"
  /\ exists rep,
       analyze_websites_with default_rater Sample.C Sample.flaky_worker Sample.urls = Ok rep
       /\ detailed_results rep !! 0%nat
          = Some (Failure "shop.example" "worker crashed").
Proof.
  pose proof (failures_are_values default_rater Sample.W "nowhere.example")
    as (H1 & _ & _ & _ & H5).
  pose proof (failures_are_values default_rater Sample.W "gone.example")
    as (_ & H2 & _).
  split; [| split].
  - exact (H1 (Exn "ConnectionError" "Failed to establish a new connection") eq_refl).
  - destruct (H2 (Sample.reply 404 "Not Found" "https://gone.example" "bare") eq_refl)
      as (msg & Hmsg & Hres); [split; [discriminate | reflexivity] |].
    injection Hmsg as <-. exact Hres.
  - destruct (H5 Sample.C Sample.flaky_worker Sample.urls) as (rep & E & _ & Hrep).
    + reflexivity.
    + vm_compute; discriminate.
    + intros u r. unfold Sample.flaky_worker. destruct (String.eqb u "shop.example"); [discriminate |].
      intros [= <-]. apply analyze_website_well_formed.
    + exists rep. split; [exact E |].
      exact (Hrep 0%nat "shop.example" (Exn "RuntimeError" "worker crashed") eq_refl eq_refl).
Defined.

(** C2 as stated fails: a response whose status is not 2xx, here 300, is
    analysed and scored like any other when the status is below 400. *)
Lemma status_300_is_scored :
  let resp := Sample.reply 300 "Multiple Choices" "https://choices.example" "shop" in
  requests_get Sample.W (normalize "choices.example") (headers default_rater)
    (timeout default_rater) = Ok resp
  /\ ~ (200 <= status_code resp < 300)%Z
  /\ success (analyze_website default_rater Sample.W "choices.example") = true
  /\ forall msg,
       analyze_website default_rater Sample.W "choices.example"
       <> Failure (normalize "choices.example") msg.
Proof.
  cbv zeta. split; [reflexivity |].
  split; [change (status_code _) with 300%Z; lia |].
  assert (E : success (analyze_website default_rater Sample.W "choices.example") = true)
    by (vm_compute; reflexivity).
  split; [exact E |]. intros msg H. rewrite H in E. clear H. discriminate E.
Qed.

(** *** Scores of one site *)

Lemma analyze_website_success_inv (self : WebsiteRater) (W : world) (url u : string)
    (scores : dict num) (metrics : dict (dict num)) :
  analyze_website self W url = Success u scores metrics ->
  analyze_website_try self W (normalize url) = Ok (Success u scores metrics).
Proof.
  unfold analyze_website.
  destruct (analyze_website_try self W (normalize url)) as [r | e]; [| discriminate].
  intros ->. reflexivity.
Qed.

(** C3: in every successful result each of the four category scores is the
    arithmetic mean of that category's metric values rounded to two
    decimals, and [overall_score] is the mean of the four category scores
    rounded to two decimals. *)
Theorem scores_are_rounded_means (self : WebsiteRater) (W : world) (url u : string)
    (scores : dict num) (metrics : dict (dict num)) :
  analyze_website self W url = Success u scores metrics ->
  exists pm dm sm am p d s a o,
    metrics = [ ("performance", pm); ("design", dm); ("seo", sm); ("accessibility", am) ]
    /\ scores = [ ("performance_score", p); ("design_score", d); ("seo_score", s);
                  ("accessibility_score", a); ("overall_score", o) ]
    /\ rounded_mean (values pm) = Ok p
    /\ rounded_mean (values dm) = Ok d
    /\ rounded_mean (values sm) = Ok s
    /\ rounded_mean (values am) = Ok a
    /\ rounded_mean [p; d; s; a] = Ok o.
Proof.
  intros H. apply analyze_website_success_inv, analyze_website_try_inv in H.
  destruct H as (response & soup & pm & dm & sm & am & p & d & s & a & o
                 & _ & _ & _ & _ & _ & _ & _ & Ep & Ed & Es & Ea & Eo & Er).
  injection Er as _ -> ->.
  exists pm, dm, sm, am, p, d, s, a, o. auto 10.
Qed.

Lemma scores_are_rounded_means_witness :
  exists u scores metrics,
    analyze_website default_rater Sample.W "shop.example" = Success u scores metrics
    /\ getitem scores "seo_score" = Ok (lit (573 # 100))
    /\ exists pm dm sm am p d s a o,
         metrics = [ ("performance", pm); ("design", dm); ("seo", sm);
                     ("accessibility", am) ]
         /\ scores = [ ("performance_score", p); ("design_score", d); ("seo_score", s);
                       ("accessibility_score", a); ("overall_score", o) ]
         /\ rounded_mean (values pm) = Ok p
         /\ rounded_mean (values dm) = Ok d
         /\ rounded_mean (values sm) = Ok s
         /\ rounded_mean (values am) = Ok a
         /\ rounded_mean [p; d; s; a] = Ok o.
Proof.
  do 3 eexists. split; [vm_compute; reflexivity |]. split; [vm_compute; reflexivity |].
  eapply (scores_are_rounded_means default_rater Sample.W "shop.example").
  vm_compute. reflexivity.
Defined.

(** A fast, compressed reply: 0.05 s to load, a body under one megabyte,
    0.05 s to the first byte, gzip: the performance score is 8.0. *)
Example fast_gzip_reply_scores_8 :
  _check_performance (Sample.reply 200 "OK" "https://shop.example" "shop")
    (lit (5 # 100))
  = Ok [ ("load_time", PInt 2); ("response_size", PInt 10); ("ttfb", PInt 10);
         ("compression", PInt 10) ]
  /\ rounded_mean [PInt 2; PInt 10; PInt 10; PInt 10] = Ok (lit 8).
Proof. split; vm_compute; reflexivity. Qed.

(** C5: in every successful result, every sub-score, every category score
    and the overall score lies between 0 and 10. *)
Theorem all_scores_in_range (self : WebsiteRater) (W : world) (url u : string)
    (scores : dict num) (metrics : dict (dict num)) :
  analyze_website self W url = Success u scores metrics ->
  (forall group d name v, In (group, d) metrics -> In (name, v) d -> in_range 10 v)
  /\ (forall name v, In (name, v) scores -> in_range 10 v).
Proof.
  intros H. apply analyze_website_success_inv, analyze_website_try_scored in H.
  destruct H as [Hwf Hm]. split.
  - intros group d name v Hg Hv.
    rewrite List.Forall_forall in Hm. specialize (Hm (group, d) Hg). cbn [snd] in Hm.
    rewrite List.Forall_forall in Hm. apply Hm.
    unfold values. apply List.in_map_iff. exists (name, v). auto.
  - intros name v Hv.
    destruct Hwf as (p & d & s & a & o & -> & Hp & Hd & Hs & Ha & Ho).
    cbn [In] in Hv.
    destruct Hv as [[= _ <-] | [[= _ <-] | [[= _ <-] | [[= _ <-] | [[= _ <-] | []]]]]];
      apply score_value_in_range; assumption.
Qed.

Lemma all_scores_in_range_witness :
  exists u scores metrics,
    analyze_website default_rater Sample.W "shop.example" = Success u scores metrics
    /\ (forall group d name v, In (group, d) metrics -> In (name, v) d -> in_range 10 v)
    /\ (forall name v, In (name, v) scores -> in_range 10 v).
Proof.
  do 3 eexists. split; [vm_compute; reflexivity |].
  eapply (all_scores_in_range default_rater Sample.W "shop.example").
  vm_compute. reflexivity.
Defined.

(** *** Batches without a success *)

Lemma filter_success_none {A} (f : A -> site_result) (xs : list A) :
  (forall x, In x xs -> success (f x) = false) ->
  List.filter success (map f xs) = [].
Proof.
  induction xs as [| x xs IH]; intros H; [reflexivity |].
  cbn [map List.filter]. rewrite (H x (or_introl eq_refl)).
  apply IH. intros y Hy. apply H. right. exact Hy.
Qed.

Lemma filter_is_top_failures (threshold : num) (results : list site_result) :
  List.filter success results = [] -> List.filter (is_top threshold) results = [].
Proof.
  induction results as [| r rs IH]; [reflexivity |].
  cbn [List.filter]. destruct r as [u sc m | u msg]; cbn [success]; [discriminate |].
  intros H. unfold is_top at 1. cbn [overall_of]. auto.
Qed.

Lemma filter_is_low_failures (threshold : num) (results : list site_result) :
  List.filter success results = [] -> List.filter (is_low threshold) results = [].
Proof.
  induction results as [| r rs IH]; [reflexivity |].
  cbn [List.filter]. destruct r as [u sc m | u msg]; cbn [success]; [discriminate |].
  intros H. unfold is_low at 1. cbn [overall_of]. auto.
Qed.

(** C6: a batch none of whose URLs succeeds, the empty batch included, is
    reported without any error: the report counts every URL, counts zero
    successes and has an empty [average_scores]; for the empty URL list all
    counts are zero and all lists empty. *)
Theorem no_success_no_averages (self : WebsiteRater) (W : world) (C : clock)
    (urls : list string) :
  (0 < max_workers self)%Z ->
  (forall url, In url urls -> success (analyze_website self W url) = false) ->
  (exists rep,
     analyze_websites self W C urls = Ok rep
     /\ total_sites rep = Z.of_nat (length urls)
     /\ successful_analyses rep = 0%Z
     /\ average_scores rep = []
     /\ top_performers rep = []
     /\ needs_improvement rep = [])
  /\ analyze_websites self W C [] = Ok (Report (now_text C) 0 0 (elapsed_text C) [] [] [] []).
Proof.
  intros Hmw Hfail. split.
  - unfold analyze_websites.
    assert (Hnone : List.filter success
                      (gather (fun url => Ok (analyze_website self W url)) urls) = []).
    { rewrite gather_analyze. apply filter_success_none. exact Hfail. }
    destruct (analyze_websites_with_total self C
                (fun url => Ok (analyze_website self W url)) urls Hmw)
      as (averages & E & Havg).
    + intros u r [= <-]. apply analyze_website_well_formed.
    + left. exact Hnone.
    + eexists. split; [exact E |].
      cbn [total_sites successful_analyses average_scores top_performers needs_improvement].
      rewrite Hnone, (Havg Hnone).
      rewrite (filter_is_top_failures _ _ Hnone), (filter_is_low_failures _ _ Hnone).
      auto.
  - unfold analyze_websites, analyze_websites_with.
    destruct (Z.leb_spec (max_workers self) 0) as [Hle | _]; [lia | reflexivity].
Qed.

Lemma no_success_no_averages_witness :
  (0 < max_workers default_rater)%Z
  /\ (forall url, In url ["nowhere.example"; "gone.example"] ->
        success (analyze_website default_rater Sample.W url) = false)
  /\ exists rep,
       analyze_websites default_rater Sample.W Sample.C ["nowhere.example"; "gone.example"]
         = Ok rep
       /\ total_sites rep = 2%Z
       /\ successful_analyses rep = 0%Z
       /\ average_scores rep = [].
Proof.
  assert (H : forall url, In url ["nowhere.example"; "gone.example"] ->
                success (analyze_website default_rater Sample.W url) = false).
  { intros url [<- | [<- | []]]; vm_compute; reflexivity. }
  split; [reflexivity |]. split; [exact H |].
  destruct (no_success_no_averages default_rater Sample.W Sample.C
              ["nowhere.example"; "gone.example"] eq_refl H)
    as ((rep & E & Ht & Hs & Ha & _) & _).
  exists rep. auto.
Defined.

(** *** Filtered views *)

Lemma in_filter_is_top (threshold : num) (results : list site_result) (r : site_result) :
  In r (List.filter (is_top threshold) results)
  <-> In r results /\ exists o, overall_of r = Some o /\ ge o threshold = true.
Proof.
  rewrite List.filter_In. unfold is_top. split.
  - intros [Hin H]. split; [exact Hin |].
    destruct (overall_of r) as [o |]; [eauto | discriminate].
  - intros [Hin (o & -> & H)]. auto.
Qed.

Lemma in_filter_is_low (threshold : num) (results : list site_result) (r : site_result) :
  In r (List.filter (is_low threshold) results)
  <-> In r results /\ exists o, overall_of r = Some o /\ le o threshold = true.
Proof.
  rewrite List.filter_In. unfold is_low. split.
  - intros [Hin H]. split; [exact Hin |].
    destruct (overall_of r) as [o |]; [eauto | discriminate].
  - intros [Hin (o & -> & H)]. auto.
Qed.

Lemma analyze_websites_views (self : WebsiteRater) (W : world) (C : clock)
    (urls : list string) (rep : report) :
  analyze_websites self W C urls = Ok rep ->
  top_performers rep = List.filter (is_top (lit 8)) (detailed_results rep)
  /\ needs_improvement rep = List.filter (is_low (lit 5)) (detailed_results rep).
Proof.
  unfold analyze_websites, analyze_websites_with.
  destruct (max_workers self <=? 0)%Z; [discriminate |].
  unfold build_report. intros H.
  assert (Hov : Forall has_overall (gather (fun url => Ok (analyze_website self W url)) urls)).
  { eapply List.Forall_impl; [apply well_formed_has_overall |].
    apply gather_well_formed. intros u r [= <-]. apply analyze_website_well_formed. }
  rewrite (get_top_performers_total _ _ Hov), (get_needs_improvement_total _ _ Hov) in H.
  apply bind_Ok in H as (averages & _ & H). cbn [bind] in H.
  injection H as <-. split; reflexivity.
Qed.

(** C7: the top-performers view holds exactly the successful results whose
    [overall_score] is at least 8.0, and the needs-improvement view exactly
    those whose [overall_score] is at most 5.0; a failure is in neither; 8.0
    passes the first test and 7.99 does not, 5.0 passes the second and 5.01
    does not.  The two views of a report are these filters of its
    [detailed_results]. *)
Theorem filtered_views (results : list site_result) :
  Forall has_overall results ->
  exists top low,
    _get_top_performers results (lit 8) = Ok top
    /\ _get_needs_improvement results (lit 5) = Ok low
    /\ (forall r, In r top
          <-> In r results /\ exists o, overall_of r = Some o /\ ge o (lit 8) = true)
    /\ (forall r, In r low
          <-> In r results /\ exists o, overall_of r = Some o /\ le o (lit 5) = true)
    /\ (forall u e, ~ In (Failure u e) top /\ ~ In (Failure u e) low)
    /\ ge (lit 8) (lit 8) = true
    /\ ge (lit (799 # 100)) (lit 8) = false
    /\ le (lit 5) (lit 5) = true
    /\ le (lit (501 # 100)) (lit 5) = false
    /\ (forall self W C urls rep,
          analyze_websites self W C urls = Ok rep ->
          _get_top_performers (detailed_results rep) (lit 8) = Ok (top_performers rep)
          /\ _get_needs_improvement (detailed_results rep) (lit 5)
             = Ok (needs_improvement rep)).
Proof.
  intros Hov.
  exists (List.filter (is_top (lit 8)) results), (List.filter (is_low (lit 5)) results).
  split; [apply get_top_performers_total; exact Hov |].
  split; [apply get_needs_improvement_total; exact Hov |].
  split; [apply in_filter_is_top |]. split; [apply in_filter_is_low |].
  split.
  { intros u e. split; intros H.
    - apply in_filter_is_top in H as (_ & o & Ho & _). discriminate Ho.
    - apply in_filter_is_low in H as (_ & o & Ho & _). discriminate Ho. }
  do 4 (split; [vm_compute; reflexivity |]).
  intros self W C urls rep Hrep.
  destruct (analyze_websites_views self W C urls rep Hrep) as [-> ->].
  assert (Hd : Forall has_overall (detailed_results rep)).
  { revert Hrep. unfold analyze_websites, analyze_websites_with.
    destruct (max_workers self <=? 0)%Z; [discriminate |].
    unfold build_report. intros H.
    apply bind_Ok in H as (? & _ & H). apply bind_Ok in H as (? & _ & H).
    apply bind_Ok in H as (? & _ & H). injection H as <-. cbn [detailed_results].
    eapply List.Forall_impl; [apply well_formed_has_overall |].
    apply gather_well_formed. intros u r [= <-]. apply analyze_website_well_formed. }
  split; [apply get_top_performers_total | apply get_needs_improvement_total]; exact Hd.
Qed.

Lemma filtered_views_witness :
  Forall has_overall Sample.boundary_results
  /\ exists top low,
       _get_top_performers Sample.boundary_results (lit 8) = Ok top
       /\ _get_needs_improvement Sample.boundary_results (lit 5) = Ok low
       /\ In (Success "a" [("overall_score", lit 8)] []) top
       /\ ~ In (Success "b" [("overall_score", lit (799 # 100))] []) top
       /\ In (Success "c" [("overall_score", lit 5)] []) low
       /\ ~ In (Success "d" [("overall_score", lit (501 # 100))] []) low.
Proof.
  assert (H : Forall has_overall Sample.boundary_results).
  { repeat constructor; intros Hs; first [eexists; reflexivity | discriminate Hs]. }
  split; [exact H |].
  destruct (filtered_views Sample.boundary_results H)
    as (top & low & Et & El & Ht & Hl & _ & G8 & G799 & L5 & L501 & _).
  exists top, low. split; [exact Et |]. split; [exact El |].
  split; [| split; [| split]].
  - apply Ht. split; [left; reflexivity |]. eexists. split; [reflexivity | exact G8].
  - intros Hin. apply Ht in Hin as (_ & o & Ho & Hge).
    injection Ho as <-. rewrite G799 in Hge. discriminate Hge.
  - apply Hl. split; [do 2 right; left; reflexivity |].
    eexists. split; [reflexivity | exact L5].
  - intros Hin. apply Hl in Hin as (_ & o & Ho & Hle).
    injection Ho as <-. rewrite L501 in Hle. discriminate Hle.
Defined.

(** *** Image descriptions *)

Lemma get_truthy_alt (img : node) : get_truthy img "alt" = alt_nonempty img.
Proof.
  unfold get_truthy, alt_nonempty. destruct (get img "alt") as [v |]; [| reflexivity].
  destruct v; reflexivity.
Qed.

Lemma alt_nonempty_spec (img : node) : alt_nonempty img = true <-> has_alt_text img.
Proof.
  unfold alt_nonempty, has_alt_text. destruct (get img "alt") as [v |].
  - destruct (String.eqb_spec v "") as [-> | Hne]; cbn [negb]; split.
    + discriminate.
    + intros (v' & [= <-] & Hv). contradiction.
    + eauto.
    + reflexivity.
  - split; [discriminate | intros (v & Hv & _); discriminate].
Qed.

Lemma filter_alt (images : list node) :
  List.filter (fun img => get_truthy img "alt") images = List.filter alt_nonempty images.
Proof. apply List.filter_ext. intros img. apply get_truthy_alt. Qed.

(** C8: [img_alt] is exactly 10 for a document without [img] tags; otherwise
    it is [round((a / n) * 10, 2)] for [n] images of which [a] carry a
    non-empty [alt] attribute; three images with two such attributes give
    6.67. *)
Theorem img_alt_metric (s : soup) :
  (find_all s ["img"] = [] -> _check_img_alt s = Ok (PInt 10))
  /\ (find_all s ["img"] <> [] ->
        _check_img_alt s
        = img_alt_ratio (length (List.filter alt_nonempty (find_all s ["img"])))
            (length (find_all s ["img"])))
  /\ (length (find_all s ["img"]) = 3%nat ->
      length (List.filter alt_nonempty (find_all s ["img"])) = 2%nat ->
      _check_img_alt s = Ok (lit (667 # 100)))
  /\ (exists d v,
        _check_seo_basics s = Ok d /\ _check_img_alt s = Ok v
        /\ getitem d "img_alt" = Ok v).
Proof.
  split; [| split; [| split]]; [rewrite check_img_alt_unfold .. |].
  - intros ->. reflexivity.
  - intros Hne. destruct (find_all s ["img"]) as [| img images]; [contradiction |].
    cbv beta iota zeta. rewrite filter_alt. reflexivity.
  - intros Hn Ha. destruct (find_all s ["img"]) as [| img images]; [discriminate |].
    cbv beta iota zeta. rewrite filter_alt, Ha, Hn. vm_compute. reflexivity.
  - destruct (check_img_alt_in_range s) as (v & Ev & _).
    unfold _check_seo_basics. rewrite Ev. cbn [bind].
    eexists. exists v. split; [reflexivity |]. split; reflexivity.
Qed.

Lemma img_alt_metric_witness :
  length (find_all Sample.shop_page ["img"]) = 3%nat
  /\ length (List.filter alt_nonempty (find_all Sample.shop_page ["img"])) = 2%nat
  /\ _check_img_alt Sample.shop_page = Ok (lit (667 # 100))
  /\ find_all Sample.bare_page ["img"] = []
  /\ _check_img_alt Sample.bare_page = Ok (PInt 10).
Proof.
  pose proof (img_alt_metric Sample.shop_page) as (_ & _ & H3 & _).
  pose proof (img_alt_metric Sample.bare_page) as (H0 & _).
  split; [reflexivity |]. split; [reflexivity |].
  split; [exact (H3 eq_refl eq_refl) |].
  split; [reflexivity | exact (H0 eq_refl)].
Defined.

(** *** Documents without an [html] tag *)

Lemma filter_nil_iff {A} (f : A -> bool) (xs : list A) :
  List.filter f xs = [] <-> forall x, In x xs -> f x = false.
Proof.
  induction xs as [| x xs IH]; cbn [List.filter].
  - split; [intros _ y [] | reflexivity].
  - destruct (f x) eqn:E; split.
    + discriminate.
    + intros H. specialize (H x (or_introl eq_refl)). congruence.
    + intros H y [<- | Hy]; [exact E | apply IH; assumption].
    + intros H. apply IH. intros y Hy. apply H. right. exact Hy.
Qed.

(** [soup.find(name)] is [None] exactly when no node, at any depth, is a tag
    of that name. *)
Lemma find_None_iff (s : soup) (name : string) :
  find s name = None
  <-> forall n, In n (soup_descendants s) -> is_named [name] n = false.
Proof.
  unfold find, find_all. rewrite <- filter_nil_iff.
  destruct (List.filter _ _); split; intros H; congruence || reflexivity || discriminate.
Qed.

(** C10, as amended: when the parsed document holds no [html] tag at any
    depth, the [lang_attribute] lookup is made on [None] and raises, and
    [analyze_website] reports the URL as a failure although the fetch and
    the parse succeeded; the message is that of the lookup unless the
    performance metrics had already raised. *)
Theorem missing_html_fails (self : WebsiteRater) (W : world) (url : string)
    (resp : response) (s : soup) :
  requests_get W (normalize url) (headers self) (timeout self) = Ok resp ->
  raise_for_status resp = Ok tt ->
  BeautifulSoup W (text resp) = Ok s ->
  (forall n, In n (soup_descendants s) -> is_named ["html"] n = false) ->
  _check_accessibility s
    = Raise (AttributeError "'NoneType' object has no attribute 'get'")
  /\ exists msg,
       analyze_website self W url = Failure (normalize url) msg
       /\ (forall pm,
             _check_performance resp (PFloat (load_time_of W (normalize url))) = Ok pm ->
             msg = "'NoneType' object has no attribute 'get'").
Proof.
  intros Hget Hst Hparse Hno.
  apply find_None_iff in Hno.
  pose proof (check_accessibility_no_html s Hno) as Hacc.
  split; [exact Hacc |].
  unfold analyze_website, analyze_website_try.
  rewrite Hget. cbn [bind]. rewrite Hst. cbn [bind]. rewrite Hparse. cbn [bind].
  destruct (_check_performance resp (PFloat (load_time_of W (normalize url))))
    as [pm | e] eqn:Epm; cbn [bind].
  - destruct (analyze_design_in_range W s) as (dm & Edm & _).
    destruct (check_seo_basics_in_range s) as (sm & Esm & _).
    rewrite Edm. cbn [bind]. rewrite Esm. cbn [bind]. rewrite Hacc. cbn [bind].
    eexists. split; [reflexivity |]. intros pm' _. reflexivity.
  - eexists. split; [reflexivity |]. intros pm' H. discriminate H.
Qed.

Lemma missing_html_fails_witness :
  (forall n, In n (soup_descendants Sample.bare_page) -> is_named ["html"] n = false)
  /\ analyze_website default_rater Sample.W "bare.example"
     = Failure "https://bare.example" "'NoneType' object has no attribute 'get'".
Proof.
  assert (Hno : forall n, In n (soup_descendants Sample.bare_page) ->
                  is_named ["html"] n = false).
  { apply find_None_iff. reflexivity. }
  split; [exact Hno |].
  destruct (missing_html_fails default_rater Sample.W "bare.example"
              (Sample.reply 200 "OK" "https://bare.example" "bare") Sample.bare_page
              eq_refl eq_refl eq_refl Hno) as (_ & msg & Hres & Hmsg).
  rewrite Hres. f_equal. eapply Hmsg. vm_compute. reflexivity.
Defined.

(** C10 as stated fails: a document without a top-level [html] tag is
    scored when an [html] tag sits deeper, here inside an unclosed [p]. *)
Lemma nested_html_is_scored :
  requests_get Sample.W (normalize "nested.example") (headers default_rater)
    (timeout default_rater)
    = Ok (Sample.reply 200 "OK" "https://nested.example" "nested")
  /\ BeautifulSoup Sample.W "nested" = Ok Sample.nested_page
  /\ (forall n, In n Sample.nested_page -> is_named ["html"] n = false)
  /\ success (analyze_website default_rater Sample.W "nested.example") = true
  /\ forall msg,
       analyze_website default_rater Sample.W "nested.example"
       <> Failure (normalize "nested.example") msg.
Proof.
  split; [reflexivity |]. split; [reflexivity |].
  split; [intros n [<- | []]; reflexivity |].
  assert (E : success (analyze_website default_rater Sample.W "nested.example") = true)
    by (vm_compute; reflexivity).
  split; [exact E |]. intros msg H. rewrite H in E. clear H. discriminate E.
Qed.

(** *** The rating ladder *)

Lemma rate_metric_from_ladder (value : num) (reverse : bool) (thresholds : list num) :
  forall i : nat,
  _rate_metric_from (Z.of_nat i) value thresholds reverse
  = match first_reached value thresholds with
    | Some j =>
        if reverse then PInt (10 - 2 * Z.of_nat (i + j))
        else PInt ((Z.of_nat (i + j) + 1) * 2)
    | None => if reverse then PInt 0 else PInt 10
    end.
Proof.
  induction thresholds as [| t rest IH]; intros i; cbn [_rate_metric_from first_reached].
  - reflexivity.
  - destruct (le value t) eqn:E.
    + rewrite Nat.add_0_r. destruct reverse; f_equal; lia.
    + replace (Z.of_nat i + 1)%Z with (Z.of_nat (S i)) by lia.
      assert (IH' := IH (S i)).
      destruct reverse; rewrite IH'; destruct (first_reached value rest) as [j |];
        cbn [option_map]; try reflexivity; f_equal; lia.
Qed.

Lemma first_reached_at (value : num) (thresholds : list num) :
  forall (i : nat) (t : num),
  thresholds !! i = Some t -> le value t = true ->
  (forall j t', (j < i)%nat -> thresholds !! j = Some t' -> le value t' = false) ->
  first_reached value thresholds = Some i.
Proof.
  induction thresholds as [| t0 rest IH]; intros i t Hi Hle Hbefore; [discriminate |].
  cbn [first_reached]. destruct i as [| i].
  - injection Hi as ->. rewrite Hle. reflexivity.
  - rewrite (Hbefore 0%nat t0 ltac:(lia) eq_refl).
    rewrite (IH i t Hi Hle); [reflexivity |].
    intros j t' Hj Hj'. apply (Hbefore (S j) t'); [lia | exact Hj'].
Qed.

Lemma first_reached_none (value : num) (thresholds : list num) :
  (forall t, In t thresholds -> le value t = false) ->
  first_reached value thresholds = None.
Proof.
  induction thresholds as [| t rest IH]; intros H; [reflexivity |].
  cbn [first_reached]. rewrite (H t (or_introl eq_refl)).
  rewrite IH; [reflexivity |]. intros t' Ht'. apply H. right. exact Ht'.
Qed.

(** A value above a threshold does not reach it. *)
Lemma lt_not_le (t value : num) : lt t value = true -> le value t = false.
Proof.
  unfold lt, le, flt.
  destruct (cmp_float t) as [x | sx |], (cmp_float value) as [y | sy |];
    try discriminate; intros H; apply negb_true_iff in H; exact H.
Qed.

(** C4: the rater is the threshold ladder: the first threshold, at index
    [i], that the value does not exceed gives [(i+1)*2] in ascending mode and
    [10 - 2i] in descending mode; a value above every threshold gives 10 in
    ascending mode and 0 in descending mode.  [load_time] is rated ascending
    over [1,2,3,4,5]; the size in megabytes descending over [1,2,5,10,20];
    [ttfb] descending over [0.1,0.3,0.5,0.8,1]. *)
Theorem rate_metric_is_ladder :
  (forall value thresholds reverse,
     _rate_metric value thresholds reverse = ladder value thresholds reverse)
  /\ (forall value thresholds i t,
        thresholds !! i = Some t -> le value t = true ->
        (forall j t', (j < i)%nat -> thresholds !! j = Some t' -> le value t' = false) ->
        _rate_metric value thresholds false = PInt ((Z.of_nat i + 1) * 2)
        /\ _rate_metric value thresholds true = PInt (10 - 2 * Z.of_nat i))
  /\ (forall value thresholds,
        (forall t, In t thresholds -> lt t value = true) ->
        _rate_metric value thresholds false = PInt 10
        /\ _rate_metric value thresholds true = PInt 0)
  /\ (forall response load_time d,
        _check_performance response load_time = Ok d ->
        exists kb mb,
          truediv (len (content response)) (PInt 1024) = Ok kb
          /\ truediv kb (PInt 1024) = Ok mb
          /\ getitem d "load_time"
             = Ok (_rate_metric load_time [PInt 1; PInt 2; PInt 3; PInt 4; PInt 5] false)
          /\ getitem d "response_size"
             = Ok (_rate_metric mb [PInt 1; PInt 2; PInt 5; PInt 10; PInt 20] true)
          /\ getitem d "ttfb"
             = Ok (_rate_metric (PFloat (elapsed response))
                     [lit (1 # 10); lit (3 # 10); lit (5 # 10); lit (8 # 10); PInt 1]
                     true)).
Proof.
  assert (Hl : forall value thresholds reverse,
             _rate_metric value thresholds reverse = ladder value thresholds reverse).
  { intros value thresholds reverse. unfold _rate_metric, ladder.
    exact (rate_metric_from_ladder value reverse thresholds 0). }
  split; [exact Hl |]. split; [| split].
  - intros value thresholds i t Hi Hle Hbefore.
    rewrite !Hl. unfold ladder.
    rewrite (first_reached_at value thresholds i t Hi Hle Hbefore). auto.
  - intros value thresholds Habove. rewrite !Hl. unfold ladder.
    rewrite first_reached_none; [auto |].
    intros t Ht. apply lt_not_le, Habove, Ht.
  - intros response load_time d Hd. unfold _check_performance in Hd.
    apply bind_Ok in Hd as (kb & Ekb & Hd). apply bind_Ok in Hd as (mb & Emb & Hd).
    injection Hd as <-. exists kb, mb. auto.
Qed.

Lemma rate_metric_is_ladder_witness :
  _rate_metric (lit (25 # 10)) [PInt 1; PInt 2; PInt 3; PInt 4; PInt 5] false = PInt 6
  /\ _rate_metric (lit (25 # 10)) [PInt 1; PInt 2; PInt 5; PInt 10; PInt 20] true = PInt 6
  /\ _rate_metric (lit 7) [PInt 1; PInt 2; PInt 3; PInt 4; PInt 5] false = PInt 10
  /\ _rate_metric (lit 25) [PInt 1; PInt 2; PInt 5; PInt 10; PInt 20] true = PInt 0.
Proof.
  pose proof rate_metric_is_ladder as (_ & Hstep & Habove & _).
  split; [| split; [| split]].
  - refine (proj1 (Hstep (lit (25 # 10)) [PInt 1; PInt 2; PInt 3; PInt 4; PInt 5]
                     2%nat (PInt 3) eq_refl eq_refl _)).
    intros [| [| j]] t' Hj Ht'; [| | lia];
      simpl in Ht'; injection Ht' as <-; reflexivity.
  - refine (proj2 (Hstep (lit (25 # 10)) [PInt 1; PInt 2; PInt 5; PInt 10; PInt 20]
                     2%nat (PInt 5) eq_refl eq_refl _)).
    intros [| [| j]] t' Hj Ht'; [| | lia];
      simpl in Ht'; injection Ht' as <-; reflexivity.
  - refine (proj1 (Habove (lit 7) [PInt 1; PInt 2; PInt 3; PInt 4; PInt 5] _)).
    intros t [<- | [<- | [<- | [<- | [<- | []]]]]]; reflexivity.
  - refine (proj2 (Habove (lit 25) [PInt 1; PInt 2; PInt 5; PInt 10; PInt 20] _)).
    intros t [<- | [<- | [<- | [<- | [<- | []]]]]]; reflexivity.
Defined.

(** *** The worker pool *)

(** Submission numbers are distinct: a number determines its URL. *)
Lemma enumerate_from_ge (urls : list string) : forall i j u,
  In (j, u) (enumerate_from i urls) -> (i <= j)%nat.
Proof.
  induction urls as [| url rest IH]; intros i j u; cbn [enumerate_from In]; [tauto |].
  intros [[= <- <-] | H]; [lia |]. apply IH in H. lia.
Qed.

Lemma enumerate_from_functional (urls : list string) : forall i j u u',
  In (j, u) (enumerate_from i urls) -> In (j, u') (enumerate_from i urls) -> u = u'.
Proof.
  induction urls as [| url rest IH]; intros i j u u'; cbn [enumerate_from In]; [tauto |].
  intros [E | H] [E' | H'].
  - congruence.
  - injection E as <- _. apply enumerate_from_ge in H'. lia.
  - injection E' as <- _. apply enumerate_from_ge in H. lia.
  - eapply IH; eassumption.
Qed.

Lemma pool_inv_init (worker : string -> result site_result) (urls : list string) :
  pool_inv worker urls (submit_all urls).
Proof.
  split; cbn [submit_all queue running done].
  - intros i u H. rewrite List.app_nil_r in H. exact H.
  - intros i u H. left. exact H.
Qed.

Lemma pool_inv_step (n : Z) (worker : string -> result site_result)
    (urls : list string) (p p' : pool) :
  step n worker p p' -> pool_inv worker urls p -> pool_inv worker urls p'.
Proof.
  intros Hstep [Hsub Hall]. destruct Hstep as [item q r d Hfree | i url q before after d];
    unfold pool_inv; cbn [queue running done] in *; split.
  - intros i u H. apply Hsub.
    rewrite !List.in_app_iff in H. cbn [In] in *. rewrite List.in_app_iff. cbn [In].
    tauto.
  - intros i u H. destruct (Hall i u H) as [[<- | Hq] | [Hr | Hd]].
    + right. left. apply List.in_app_iff. right. left. reflexivity.
    + left. exact Hq.
    + right. left. apply List.in_app_iff. left. exact Hr.
    + right. right. exact Hd.
  - intros j u H. apply Hsub.
    rewrite !List.in_app_iff in H. rewrite !List.in_app_iff. cbn [In]. tauto.
  - intros j u H.
    assert (Hitem : In (i, url) (enumerate_from 0 urls)).
    { apply Hsub. rewrite !List.in_app_iff. cbn [In]. tauto. }
    destruct (Nat.eq_dec i j) as [<- | Hne].
    + right. right. rewrite lookup_insert_eq.
      rewrite (enumerate_from_functional urls 0 i url u Hitem H). reflexivity.
    + destruct (Hall j u H) as [Hq | [Hr | Hd]].
      * left. exact Hq.
      * right. left. rewrite List.in_app_iff in Hr. cbn [In] in Hr.
        rewrite List.in_app_iff. destruct Hr as [Hr | [[= E _] | Hr]]; [tauto | lia | tauto].
      * right. right. rewrite lookup_insert_ne by exact Hne. exact Hd.
Qed.

Lemma pool_inv_runs (n : Z) (worker : string -> result site_result)
    (urls : list string) (p p' : pool) :
  runs n worker p p' -> pool_inv worker urls p -> pool_inv worker urls p'.
Proof.
  induction 1 as [| p p' p'' Hstep _ IH]; [auto |].
  intros Hinv. apply IH. eapply pool_inv_step; eassumption.
Qed.

Lemma read_futures_done (worker : string -> result site_result) (p : pool)
    (items : list (nat * string)) :
  (forall i u, In (i, u) items -> done p !! i = Some (worker u)) ->
  read_futures items p
  = Some (map (fun item => future_result (worker (snd item)) (snd item)) items).
Proof.
  induction items as [| [i u] rest IH]; intros H; [reflexivity |].
  cbn [read_futures map snd]. rewrite (H i u (or_introl eq_refl)).
  rewrite IH; [reflexivity |]. intros j v Hj. apply H. right. exact Hj.
Qed.

Lemma map_enumerate (worker : string -> result site_result) (urls : list string) :
  forall i,
  map (fun item => future_result (worker (snd item)) (snd item)) (enumerate_from i urls)
  = gather worker urls.
Proof.
  induction urls as [| u rest IH]; intros i; [reflexivity |].
  cbn [enumerate_from map snd]. rewrite IH. reflexivity.
Qed.

(** Whatever the pool size and the schedule, once the pool is idle the
    futures hold, in submission order, what the workers return. *)
Lemma pool_results (n : Z) (worker : string -> result site_result)
    (urls : list string) (p : pool) :
  runs n worker (submit_all urls) p -> idle p ->
  read_results urls p = Some (gather worker urls).
Proof.
  intros Hruns [Hq Hr].
  destruct (pool_inv_runs n worker urls _ _ Hruns (pool_inv_init worker urls)) as [_ Hall].
  unfold read_results. rewrite (read_futures_done worker).
  - rewrite map_enumerate. reflexivity.
  - intros i u H. destruct (Hall i u H) as [H' | [H' | H']]; [| | exact H'].
    + rewrite Hq in H'. destruct H'.
    + rewrite Hr in H'. destruct H'.
Qed.

(** A pool with at least one worker can always finish its queue. *)
Lemma pool_completes (n : Z) (worker : string -> result site_result)
    (items : list (nat * string)) :
  (0 < n)%Z -> forall d, exists d', runs n worker (Pool items [] d) (Pool [] [] d').
Proof.
  intros Hn. induction items as [| [i u] rest IH]; intros d.
  - exists d. apply rtc_refl.
  - destruct (IH (<[i := worker u]> d)) as (d' & Hd').
    exists d'. eapply rtc_l; [apply step_start; cbn [length]; lia |].
    eapply rtc_l; [apply (step_finish n worker i u rest [] [] d) | exact Hd'].
Qed.

Lemma analyze_website_pool_size (timeout : Z) (headers : gmap string string)
    (n m : Z) (W : world) (url : string) :
  analyze_website (Self timeout n headers) W url
  = analyze_website (Self timeout m headers) W url.
Proof. reflexivity. Qed.

(** C9: with the same deterministic world (the outcome of a fetch, the
    duration measured around it included, depends on the URL only), a pool
    of one worker and a pool of five workers both finish, and under every
    schedule leave the same results in the same order; hence the two reports
    agree on every number: counts, averages, detailed results, top
    performers and needs-improvement.  Only the two clock texts may differ. *)
Theorem pool_size_is_irrelevant (timeout : Z) (headers : gmap string string)
    (W : world) (C1 C5 : clock) (urls : list string) :
  let rater1 := Self timeout 1 headers in
  let rater5 := Self timeout 5 headers in
  let worker1 := fun url => Ok (analyze_website rater1 W url) in
  let worker5 := fun url => Ok (analyze_website rater5 W url) in
  (Z.of_nat (length urls) <= sys_maxsize)%Z ->
  exists results rep1 rep5,
    (exists p1, runs 1 worker1 (submit_all urls) p1 /\ idle p1)
    /\ (exists p5, runs 5 worker5 (submit_all urls) p5 /\ idle p5)
    /\ (forall p1, runs 1 worker1 (submit_all urls) p1 -> idle p1 ->
          read_results urls p1 = Some results)
    /\ (forall p5, runs 5 worker5 (submit_all urls) p5 -> idle p5 ->
          read_results urls p5 = Some results)
    /\ build_report C1 urls results = Ok rep1
    /\ build_report C5 urls results = Ok rep5
    /\ analyze_websites rater1 W C1 urls = Ok rep1
    /\ analyze_websites rater5 W C5 urls = Ok rep5
    /\ aggregates rep1 = aggregates rep5.
Proof.
  intros rater1 rater5 worker1 worker5 Hlen.
  set (results := gather worker1 urls).
  assert (Hwf : Forall well_formed results).
  { apply gather_well_formed. intros u r [= <-]. apply analyze_website_well_formed. }
  assert (Hl : List.filter success results = []
               \/ (Z.of_nat (length results) <= sys_maxsize)%Z).
  { right. unfold results. rewrite gather_length. exact Hlen. }
  destruct (build_report_total urls results Hwf Hl) as (averages & B & _).
  eexists results, _, _.
  split.
  { destruct (pool_completes 1 worker1 (enumerate_from 0 urls) ltac:(lia) ∅) as (d & Hd).
    exists (Pool [] [] d). split; [exact Hd | split; reflexivity]. }
  split.
  { destruct (pool_completes 5 worker5 (enumerate_from 0 urls) ltac:(lia) ∅) as (d & Hd).
    exists (Pool [] [] d). split; [exact Hd | split; reflexivity]. }
  split; [intros p1 Hr Hi; exact (pool_results _ _ _ _ Hr Hi) |].
  split; [intros p5 Hr Hi; exact (pool_results _ _ _ _ Hr Hi) |].
  split; [exact (B C1) |]. split; [exact (B C5) |].
  split; [exact (B C1) |]. split; [exact (B C5) |]. reflexivity.
Qed.

Lemma pool_size_is_irrelevant_witness :
  let hdrs := headers default_rater in
  let worker1 := fun url => Ok (analyze_website (Self 10 1 hdrs) Sample.W url) in
  let worker5 := fun url => Ok (analyze_website (Self 10 5 hdrs) Sample.W url) in
  (Z.of_nat (length Sample.urls) <= sys_maxsize)%Z
  /\ exists results rep1 rep5,
       (exists p1, runs 1 worker1 (submit_all Sample.urls) p1 /\ idle p1)
       /\ (exists p5, runs 5 worker5 (submit_all Sample.urls) p5 /\ idle p5)
       /\ (forall p1, runs 1 worker1 (submit_all Sample.urls) p1 -> idle p1 ->
             read_results Sample.urls p1 = Some results)
       /\ (forall p5, runs 5 worker5 (submit_all Sample.urls) p5 -> idle p5 ->
             read_results Sample.urls p5 = Some results)
       /\ build_report Sample.C Sample.urls results = Ok rep1
       /\ build_report Sample.late Sample.urls results = Ok rep5
       /\ analyze_websites (Self 10 1 hdrs) Sample.W Sample.C Sample.urls = Ok rep1
       /\ analyze_websites (Self 10 5 hdrs) Sample.W Sample.late Sample.urls = Ok rep5
       /\ aggregates rep1 = aggregates rep5.
Proof.
  intros hdrs worker1 worker5.
  assert (Hlen : (Z.of_nat (length Sample.urls) <= sys_maxsize)%Z)
    by (vm_compute; discriminate).
  split; [exact Hlen |].
  exact (pool_size_is_irrelevant 10 hdrs Sample.W Sample.C Sample.late Sample.urls Hlen).
Defined.

(** Two schedules of the sample batch: one worker takes the items one after
    the other; with five workers both items run at once and the second
    finishes first.  Both leave the same outcomes in the futures. *)
Example two_schedules :
  let worker := fun url => Ok (analyze_website default_rater Sample.W url) in
  let a := "shop.example" in
  let b := "nowhere.example" in
  runs 1 worker (submit_all Sample.urls)
    (Pool [] [] (<[1%nat := worker b]> (<[0%nat := worker a]> ∅)))
  /\ runs 5 worker (submit_all Sample.urls)
       (Pool [] [] (<[0%nat := worker a]> (<[1%nat := worker b]> ∅))).
Proof.
  intros worker a b. split.
  - eapply rtc_l; [exact (step_start 1 worker (0%nat, a) [(1%nat, b)] [] ∅ eq_refl) |].
    eapply rtc_l; [exact (step_finish 1 worker 0%nat a [(1%nat, b)] [] [] ∅) |].
    eapply rtc_l; [exact (step_start 1 worker (1%nat, b) [] [] _ eq_refl) |].
    eapply rtc_l; [exact (step_finish 1 worker 1%nat b [] [] [] _) |].
    apply rtc_refl.
  - eapply rtc_l; [exact (step_start 5 worker (0%nat, a) [(1%nat, b)] [] ∅ eq_refl) |].
    eapply rtc_l; [exact (step_start 5 worker (1%nat, b) [] [(0%nat, a)] ∅ eq_refl) |].
    eapply rtc_l; [exact (step_finish 5 worker 1%nat b [] [(0%nat, a)] [] ∅) |].
    eapply rtc_l; [exact (step_finish 5 worker 0%nat a [] [] [] _) |].
    apply rtc_refl.
Qed.

(* ===================================================================== *)
(** ** Further properties *)
(* ===================================================================== *)

(** *** The shape of a report *)

Lemma analyze_websites_inv (self : WebsiteRater) (W : world) (C : clock)
    (urls : list string) (rep : report) :
  analyze_websites self W C urls = Ok rep ->
  let results := map (analyze_website self W) urls in
  exists averages,
    rep = Report (now_text C) (Z.of_nat (length urls))
            (Z.of_nat (length (List.filter success results))) (elapsed_text C)
            averages results
            (List.filter (is_top (lit 8)) results)
            (List.filter (is_low (lit 5)) results)
    /\ (if nonempty (List.filter success results) then
          mapM
            (fun key =>
               let* vs := mapM (fun r => let* scores := scores_of r in getitem scores key)
                            (List.filter success results) in
               let* s := sum vs in
               let* q := truediv s (len (List.filter success results)) in
               let* avg := round q 2 in
               Ok (key, avg))
            score_keys
        else Ok []) = Ok averages.
Proof.
  unfold analyze_websites, analyze_websites_with.
  destruct (max_workers self <=? 0)%Z; [discriminate |].
  rewrite gather_analyze. unfold build_report. cbv zeta.
  set (results := map (analyze_website self W) urls). intros H.
  assert (Hov : Forall has_overall results).
  { eapply List.Forall_impl; [apply well_formed_has_overall |].
    apply List.Forall_forall. intros r Hr. apply List.in_map_iff in Hr as (u & <- & _).
    apply analyze_website_well_formed. }
  rewrite (get_top_performers_total _ _ Hov), (get_needs_improvement_total _ _ Hov) in H.
  apply bind_Ok in H as (averages & E & H). cbn [bind] in H.
  injection H as <-. exists averages. split; [reflexivity | exact E].
Qed.

(** *** URL normalisation *)

Lemma prefix_app (p s : string) : String.prefix p (p +:+ s) = true.
Proof.
  induction p as [| a p IH]; [destruct s; reflexivity |].
  simpl. destruct (ascii_dec a a); [exact IH | congruence].
Qed.

(** X1: the URL that [analyze_website] requests always starts with
    [http://] or [https://]; a URL that has one of the two prefixes is
    requested as it is and every other URL gets [https://] in front;
    normalising twice is the same as normalising once. *)
Theorem normalize_adds_scheme (url : string) :
  (String.prefix "http://" (normalize url) || String.prefix "https://" (normalize url) = true)
  /\ normalize (normalize url) = normalize url
  /\ (normalize url = url \/ normalize url = "https://" +:+ url)
  /\ (normalize url = url
      <-> String.prefix "http://" url || String.prefix "https://" url = true).
Proof.
  destruct (String.prefix "http://" url || String.prefix "https://" url) eqn:E.
  - assert (N : normalize url = url) by (unfold normalize; rewrite E; reflexivity).
    rewrite !N. repeat split; auto.
  - assert (N : normalize url = "https://" +:+ url)
      by (unfold normalize; rewrite E; reflexivity).
    assert (P : String.prefix "https://" ("https://" +:+ url) = true) by apply prefix_app.
    rewrite !N. split; [rewrite P; apply orb_true_r |]. split.
    + unfold normalize. rewrite P, orb_true_r. reflexivity.
    + split; [right; reflexivity |]. split; [| discriminate].
      intros H. exfalso.
      assert (L : String.length ("https://" +:+ url) = String.length url)
        by (rewrite H; reflexivity).
      simpl in L. change (String.app EmptyString url) with url in L. lia.
Qed.

Lemma normalize_adds_scheme_witness :
  normalize "shop.example" = "https://shop.example"
  /\ normalize "http://shop.example" = "http://shop.example".
Proof.
  split.
  - destruct (normalize_adds_scheme "shop.example") as (_ & _ & [H | H] & Hiff).
    + apply Hiff in H. vm_compute in H. discriminate H.
    + exact H.
  - destruct (normalize_adds_scheme "http://shop.example") as (_ & _ & _ & Hiff).
    apply Hiff. reflexivity.
Defined.

(** *** Reported URLs *)

Lemma analyze_website_url (self : WebsiteRater) (W : world) (url : string) :
  ReportFormatter.url_of (analyze_website self W url) = normalize url.
Proof.
  unfold analyze_website.
  destruct (analyze_website_try self W (normalize url)) as [r | e] eqn:E; [| reflexivity].
  apply analyze_website_try_url in E as (scores & metrics & ->). reflexivity.
Qed.

(** X2: in a report, the entry at each position of [detailed_results]
    carries the normalised form of the URL at that position of the input,
    for successes and failures alike; so every reported URL starts with a
    scheme, also when the input did not. *)
Theorem results_carry_normalized_urls (self : WebsiteRater) (W : world) (C : clock)
    (urls : list string) (rep : report) :
  analyze_websites self W C urls = Ok rep ->
  map ReportFormatter.url_of (detailed_results rep) = map normalize urls
  /\ Forall (fun r => String.prefix "http://" (ReportFormatter.url_of r)
                      || String.prefix "https://" (ReportFormatter.url_of r) = true)
       (detailed_results rep).
Proof.
  intros H. apply analyze_websites_inv in H as (averages & -> & _).
  cbn [detailed_results]. split.
  - rewrite List.map_map. apply List.map_ext. intros u. apply analyze_website_url.
  - apply List.Forall_forall. intros r Hr. apply List.in_map_iff in Hr as (u & <- & _).
    rewrite analyze_website_url. unfold normalize.
    destruct (String.prefix "http://" u || String.prefix "https://" u) eqn:E; [exact E |].
    rewrite prefix_app. apply orb_true_r.
Qed.

Lemma results_carry_normalized_urls_witness :
  exists rep,
    analyze_websites default_rater Sample.W Sample.C Sample.urls = Ok rep
    /\ map ReportFormatter.url_of (detailed_results rep)
       = ["https://shop.example"; "https://nowhere.example"].
Proof.
  destruct (analyze_websites default_rater Sample.W Sample.C Sample.urls) as [rep | e] eqn:E.
  - exists rep. split; [reflexivity |].
    apply (results_carry_normalized_urls default_rater Sample.W Sample.C Sample.urls rep E).
  - exfalso. vm_compute in E. discriminate E.
Defined.

(** *** Metrics computed twice *)

(** X3: in every success, the accessibility group repeats two values of the
    SEO group: [alt_texts] is [img_alt] and [heading_structure] is
    [headings]. *)
Theorem shared_metrics_agree (self : WebsiteRater) (W : world) (url u : string)
    (scores : dict num) (metrics : dict (dict num)) :
  analyze_website self W url = Success u scores metrics ->
  exists sm am alt headings,
    getitem metrics "seo" = Ok sm
    /\ getitem metrics "accessibility" = Ok am
    /\ getitem sm "img_alt" = Ok alt
    /\ getitem am "alt_texts" = Ok alt
    /\ getitem sm "headings" = Ok headings
    /\ getitem am "heading_structure" = Ok headings.
Proof.
  intros H. apply analyze_website_success_inv in H.
  apply analyze_website_try_inv in H
    as (response & soup & pm & dm & sm & am & p & d & s & a & o
        & _ & _ & _ & _ & _ & Hsm & Ham & _ & _ & _ & _ & _ & E).
  injection E as _ _ ->.
  exists sm, am.
  unfold _check_seo_basics in Hsm. unfold _check_accessibility in Ham.
  destruct (_check_img_alt soup) as [alt | e] eqn:Ealt.
  - cbn [bind] in Hsm. injection Hsm as <-.
    destruct (find soup "html") as [html |]; [| discriminate Ham].
    cbn [bind] in Ham. injection Ham as <-.
    exists alt, (_analyze_headings soup). repeat split; reflexivity.
  - cbn [bind] in Hsm. discriminate Hsm.
Qed.

Lemma shared_metrics_agree_witness :
  exists u scores metrics,
    analyze_website default_rater Sample.W "shop.example" = Success u scores metrics
    /\ exists sm am alt headings,
         getitem metrics "seo" = Ok sm
         /\ getitem metrics "accessibility" = Ok am
         /\ getitem sm "img_alt" = Ok alt
         /\ getitem am "alt_texts" = Ok alt
         /\ getitem sm "headings" = Ok headings
         /\ getitem am "heading_structure" = Ok headings.
Proof.
  do 3 eexists. split; [vm_compute; reflexivity |].
  eapply (shared_metrics_agree default_rater Sample.W "shop.example").
  vm_compute. reflexivity.
Defined.

(** X4: [_check_form_labels] counts the forms that have at least one input
    and no fewer labels than inputs.  A document without forms scores 10; a
    document with forms scores 0 when none of them is labelled, 5 when one
    is, 10 when two or more are. *)
(** *** Form labels *)

Lemma form_labels_fold (forms : list node) : forall acc : Z,
  fold_left
    (fun (score : Z) form =>
       let inputs := tag_find_all form ["input"; "select"; "textarea"] in
       let labels := tag_find_all form ["label"] in
       if nonempty inputs && (length inputs <=? length labels)%nat
       then (score + 5)%Z else score)
    forms acc
  = (acc + 5 * Z.of_nat (length (List.filter labelled forms)))%Z.
Proof.
  induction forms as [| form rest IH]; intros acc; cbn [fold_left List.filter length].
  - lia.
  - rewrite IH. unfold labelled at 2. cbv zeta.
    destruct (nonempty _ && _); cbn [length]; lia.
Qed.

Theorem form_labels_counts_forms (s : soup) :
  let forms := find_all s ["form"] in
  let good := length (List.filter labelled forms) in
  (forms = [] -> _check_form_labels s = PInt 10)
  /\ (forms <> [] -> good = 0%nat -> _check_form_labels s = PInt 0)
  /\ (forms <> [] -> good = 1%nat -> _check_form_labels s = PInt 5)
  /\ (forms <> [] -> (2 <= good)%nat -> _check_form_labels s = PInt 10).
Proof.
  cbv zeta. unfold _check_form_labels. rewrite form_labels_fold.
  destruct (find_all s ["form"]) as [| form rest] eqn:E; cbn [nonempty negb].
  - repeat split; intros; congruence || reflexivity.
  - split; [discriminate |]. repeat split; intros _ H; f_equal; lia.
Qed.

Lemma form_labels_counts_forms_witness :
  _check_form_labels Sample.shop_page = PInt 5
  /\ _check_form_labels Sample.bare_page = PInt 10.
Proof.
  split.
  - apply (form_labels_counts_forms Sample.shop_page); [vm_compute; discriminate | reflexivity].
  - apply (proj1 (form_labels_counts_forms Sample.bare_page)). reflexivity.
Defined.

(** *** The ladder is monotone *)

Lemma fle_trans (a b c : float) : fle a b = true -> fle b c = true -> fle a c = true.
Proof.
  destruct a as [x | [|] |], b as [y | [|] |], c as [z | [|] |]; cbn [fle orb negb];
    intros H1 H2; try discriminate; try reflexivity.
  rewrite Qle_bool_iff in *. lra.
Qed.

Lemma num_le_trans (x y z : num) : le x y = true -> le y z = true -> le x z = true.
Proof. unfold le. apply fle_trans. Qed.

Lemma rate_metric_from_int (value : num) (reverse : bool) (thresholds : list num) :
  forall i : Z, exists a, _rate_metric_from i value thresholds reverse = PInt a.
Proof.
  induction thresholds as [| t rest IH]; intros i; cbn [_rate_metric_from].
  - destruct reverse; eexists; reflexivity.
  - destruct reverse, (le value t); try (eexists; reflexivity); apply IH.
Qed.

Lemma rate_metric_from_bounds (value : num) (thresholds : list num) :
  forall i a b : Z,
  (0 <= i)%Z -> (i + Z.of_nat (length thresholds) <= 5)%Z ->
  _rate_metric_from i value thresholds false = PInt a ->
  _rate_metric_from i value thresholds true = PInt b ->
  (Z.min ((i + 1) * 2) 10 <= a <= 10)%Z /\ (0 <= b <= 10 - i * 2)%Z.
Proof.
  induction thresholds as [| t rest IH]; intros i a b Hi Hlen; cbn [_rate_metric_from].
  - cbn [length] in Hlen. intros [= <-] [= <-]. lia.
  - cbn [length] in Hlen. destruct (le value t).
    + intros [= <-] [= <-]. lia.
    + intros Ha Hb. destruct (IH (i + 1)%Z a b) as [H1 H2]; try assumption; lia.
Qed.

Lemma rate_metric_from_monotone (v v' : num) (thresholds : list num) :
  le v v' = true ->
  forall i a a' b b' : Z,
  (0 <= i)%Z -> (i + Z.of_nat (length thresholds) <= 5)%Z ->
  _rate_metric_from i v thresholds false = PInt a ->
  _rate_metric_from i v' thresholds false = PInt a' ->
  _rate_metric_from i v thresholds true = PInt b ->
  _rate_metric_from i v' thresholds true = PInt b' ->
  (a <= a')%Z /\ (b' <= b)%Z.
Proof.
  intros Hv. induction thresholds as [| t rest IH]; intros i a a' b b' Hi Hlen;
    cbn [_rate_metric_from].
  - intros [= <-] [= <-] [= <-] [= <-]. lia.
  - cbn [length] in Hlen. destruct (le v' t) eqn:E'.
    + rewrite (num_le_trans v v' t Hv E'). intros [= <-] [= <-] [= <-] [= <-]. lia.
    + destruct (le v t) eqn:E.
      * intros [= <-] Ha' [= <-] Hb'.
        destruct (rate_metric_from_bounds v' rest (i + 1) a' b') as [H1 H2];
          try assumption; lia.
      * apply IH; lia.
Qed.

(** X5: the ladder of [_rate_metric] is monotone in the value, for any list
    of at most five thresholds, sorted or not.  In ascending mode a larger
    value never scores less, and the score is never below 2; in descending
    mode a larger value never scores more.  All four scores are ints between
    0 and 10. *)
Theorem rate_metric_monotone (v v' : num) (thresholds : list num) :
  le v v' = true ->
  (length thresholds <= 5)%nat ->
  exists a a' b b' : Z,
    _rate_metric v thresholds false = PInt a
    /\ _rate_metric v' thresholds false = PInt a'
    /\ _rate_metric v thresholds true = PInt b
    /\ _rate_metric v' thresholds true = PInt b'
    /\ (2 <= a <= a')%Z /\ (a' <= 10)%Z
    /\ (0 <= b' <= b)%Z /\ (b <= 10)%Z.
Proof.
  intros Hv Hlen. unfold _rate_metric.
  destruct (rate_metric_from_int v false thresholds 0) as (a & Ha).
  destruct (rate_metric_from_int v' false thresholds 0) as (a' & Ha').
  destruct (rate_metric_from_int v true thresholds 0) as (b & Hb).
  destruct (rate_metric_from_int v' true thresholds 0) as (b' & Hb').
  exists a, a', b, b'. rewrite Ha, Ha', Hb, Hb'.
  destruct (rate_metric_from_monotone v v' thresholds Hv 0 a a' b b') as [H1 H2];
    try assumption; try lia.
  destruct (rate_metric_from_bounds v thresholds 0 a b) as [H3 H4]; try assumption; try lia.
  destruct (rate_metric_from_bounds v' thresholds 0 a' b') as [H5 H6];
    try assumption; try lia.
  repeat split; try reflexivity; lia.
Qed.

Lemma rate_metric_monotone_witness :
  exists a a' b b' : Z,
    _rate_metric (lit (5 # 10)) [PInt 1; PInt 2; PInt 3; PInt 4; PInt 5] false = PInt a
    /\ _rate_metric (lit (45 # 10)) [PInt 1; PInt 2; PInt 3; PInt 4; PInt 5] false = PInt a'
    /\ _rate_metric (lit (5 # 10)) [PInt 1; PInt 2; PInt 3; PInt 4; PInt 5] true = PInt b
    /\ _rate_metric (lit (45 # 10)) [PInt 1; PInt 2; PInt 3; PInt 4; PInt 5] true = PInt b'
    /\ (2 <= a <= a')%Z /\ (a' <= 10)%Z
    /\ (0 <= b' <= b)%Z /\ (b <= 10)%Z.
Proof.
  apply (rate_metric_monotone (lit (5 # 10)) (lit (45 # 10))
           [PInt 1; PInt 2; PInt 3; PInt 4; PInt 5]).
  - vm_compute. reflexivity.
  - cbn [length]. lia.
Defined.

(** *** Layout *)

(** X6: [_analyze_layout] depends only on how many of the seven semantic
    tags occur in the document: the int 0 for none, the float [1.5 * k] for
    [k] from one to six, and the int 10 for all seven, the cap cutting 10.5
    down. *)
Theorem layout_counts_semantic_tags (s : soup) :
  _analyze_layout s = Ok (layout_value (length (present s semantic_elements))).
Proof.
  unfold _analyze_layout, semantic_elements, present.
  cbn [_analyze_layout_loop List.filter].
  destruct (found (find s "header")), (found (find s "nav")), (found (find s "main")),
    (found (find s "article")), (found (find s "section")), (found (find s "aside")),
    (found (find s "footer")); vm_compute; reflexivity.
Qed.

(** *** Rounding respects equality of rationals *)

Lemma round_half_even_Qeq (x y : Q) : x == y -> round_half_even x = round_half_even y.
Proof.
  intros E. unfold round_half_even.
  rewrite (Qfloor_comp x y E).
  assert (E' : x - inject_Z (Qfloor y) == y - inject_Z (Qfloor y)) by (rewrite E; reflexivity).
  rewrite (Qcompare_comp _ _ E' (1 # 2) (1 # 2) (Qeq_refl _)). reflexivity.
Qed.

Lemma ulp_exp_Qeq (x y : Q) : ~ x == 0 -> x == y -> ulp_exp x = ulp_exp y.
Proof.
  intros Hx E. unfold ulp_exp. f_equal. f_equal. apply floor_log2_Qeq.
  - destruct (Qlt_le_dec 0 (Qabs x)) as [H | H]; [exact H |].
    exfalso. apply Hx. pose proof (Qabs_nonneg x).
    assert (Hz : Qabs x == 0) by lra.
    revert Hz. apply Qabs_case; intros; lra.
  - rewrite E. reflexivity.
Qed.

Lemma RN_Qeq (x y : Q) : x == y -> RN x = RN y.
Proof.
  intros E. unfold RN.
  destruct (Qeq_bool x 0) eqn:Ex.
  - apply Qeq_bool_iff in Ex.
    assert (Ey : Qeq_bool y 0 = true) by (apply Qeq_bool_iff; rewrite <- E; exact Ex).
    rewrite Ey. reflexivity.
  - assert (Hx : ~ x == 0) by (intros H; apply Qeq_bool_iff in H; congruence).
    assert (Ey : Qeq_bool y 0 = false).
    { destruct (Qeq_bool y 0) eqn:Ey; [| reflexivity].
      apply Qeq_bool_iff in Ey. exfalso. apply Hx. rewrite E. exact Ey. }
    rewrite Ey. cbv zeta. rewrite <- (ulp_exp_Qeq x y Hx E).
    apply Qred_complete.
    rewrite (round_half_even_Qeq (x / pow2 (ulp_exp x)) (y / pow2 (ulp_exp x))).
    + reflexivity.
    + apply Qdiv_comp; [exact E | reflexivity].
Qed.

(** *** Image descriptions: the two ends of the scale *)

Lemma filter_all {A} (f : A -> bool) (xs : list A) :
  (forall x, In x xs -> f x = true) -> List.filter f xs = xs.
Proof.
  induction xs as [| x xs IH]; intros H; cbn [List.filter]; [reflexivity |].
  rewrite (H x (or_introl eq_refl)). f_equal. apply IH. intros y Hy. apply H. right. exact Hy.
Qed.

Lemma img_alt_ratio_all (n : nat) : (0 < n)%nat -> img_alt_ratio n n = Ok (lit 10).
Proof.
  intros Hn. unfold img_alt_ratio, truediv, int_truediv.
  destruct (Z.eqb_spec (Z.of_nat n) 0) as [E | _]; [lia |].
  assert (E1 : inject_Z (Z.of_nat n) / inject_Z (Z.of_nat n) == 1).
  { assert (0 < inject_Z (Z.of_nat n)).
    { change 0 with (inject_Z 0). rewrite <- Zlt_Qlt. lia. }
    field. lra. }
  rewrite (RN_Qeq _ _ E1). vm_compute. reflexivity.
Qed.

Lemma img_alt_ratio_none (n : nat) : (0 < n)%nat -> img_alt_ratio 0 n = Ok (lit 0).
Proof.
  intros Hn. unfold img_alt_ratio, truediv, int_truediv.
  destruct (Z.eqb_spec (Z.of_nat n) 0) as [E | _]; [lia |].
  assert (E1 : inject_Z (Z.of_nat 0) / inject_Z (Z.of_nat n) == 0).
  { assert (0 < inject_Z (Z.of_nat n)).
    { change 0 with (inject_Z 0). rewrite <- Zlt_Qlt. lia. }
    change (inject_Z (Z.of_nat 0)) with 0. field. lra. }
  rewrite (RN_Qeq _ _ E1). vm_compute. reflexivity.
Qed.

(** X7: the two ends of [_check_img_alt] for a document with images: when
    every image has a non-empty [alt] the metric is the float 10.0, when
    none has one it is the float 0.0, however many images there are. *)
Theorem img_alt_extremes (s : soup) :
  find_all s ["img"] <> [] ->
  ((forall img, In img (find_all s ["img"]) -> alt_nonempty img = true) ->
   _check_img_alt s = Ok (lit 10))
  /\ ((forall img, In img (find_all s ["img"]) -> alt_nonempty img = false) ->
      _check_img_alt s = Ok (lit 0)).
Proof.
  intros Hne. rewrite check_img_alt_unfold.
  destruct (find_all s ["img"]) as [| img rest] eqn:E; [congruence |].
  cbv beta iota zeta. rewrite filter_alt. split; intros H.
  - rewrite (filter_all _ _ H). apply img_alt_ratio_all. cbn [length]. lia.
  - apply filter_nil_iff in H. rewrite H. apply img_alt_ratio_none. cbn [length]. lia.
Qed.

Lemma img_alt_extremes_witness :
  find_all [Tag "img" {[ "alt" := "logo" ]} []] ["img"] <> []
  /\ _check_img_alt [Tag "img" {[ "alt" := "logo" ]} []] = Ok (lit 10)
  /\ _check_img_alt [Tag "img" ∅ []; Tag "img" {[ "alt" := "" ]} []] = Ok (lit 0).
Proof.
  split; [vm_compute; discriminate |]. split.
  - apply (img_alt_extremes [Tag "img" {[ "alt" := "logo" ]} []]).
    + vm_compute; discriminate.
    + intros img [<- | []]. vm_compute. reflexivity.
  - apply (img_alt_extremes [Tag "img" ∅ []; Tag "img" {[ "alt" := "" ]} []]).
    + vm_compute; discriminate.
    + intros img [<- | [<- | []]]; vm_compute; reflexivity.
Defined.

(** *** The two views of a report *)

Lemma is_top_success (t : num) (r : site_result) : is_top t r = true -> success r = true.
Proof. destruct r; [reflexivity | discriminate]. Qed.

Lemma is_low_success (t : num) (r : site_result) : is_low t r = true -> success r = true.
Proof. destruct r; [reflexivity | discriminate]. Qed.

Lemma top_not_low (r : site_result) :
  is_top (lit 8) r = true -> is_low (lit 5) r = false.
Proof.
  unfold is_top, is_low. destruct (overall_of r) as [o |]; [| discriminate].
  unfold ge. intros H. destruct (le o (lit 5)) eqn:E; [| reflexivity].
  pose proof (num_le_trans _ _ _ H E) as F. vm_compute in F. discriminate F.
Qed.

Lemma views_length (results : list site_result) :
  (length (List.filter (is_top (lit 8)) results)
   + length (List.filter (is_low (lit 5)) results)
   <= length (List.filter success results))%nat.
Proof.
  induction results as [| r rest IH]; cbn [List.filter length]; [lia |].
  destruct (is_top (lit 8) r) eqn:Et.
  - rewrite (top_not_low r Et), (is_top_success _ r Et). cbn [length]. lia.
  - destruct (is_low (lit 5) r) eqn:El.
    + rewrite (is_low_success _ r El). cbn [length]. lia.
    + destruct (success r); cbn [length]; lia.
Qed.

Lemma filter_length_le {A} (f : A -> bool) (xs : list A) :
  (length (List.filter f xs) <= length xs)%nat.
Proof.
  induction xs as [| x xs IH]; cbn [List.filter length]; [lia |].
  destruct (f x); cbn [length]; lia.
Qed.

(** X8: the numbers of a report agree with its lists.  No result is both a
    top performer and in need of improvement; [total_sites] is the length
    of [detailed_results]; [successful_analyses] is the number of successes
    among them and at most [total_sites]; the two views together hold at
    most [successful_analyses] entries. *)
Theorem views_are_disjoint (self : WebsiteRater) (W : world) (C : clock)
    (urls : list string) (rep : report) :
  analyze_websites self W C urls = Ok rep ->
  (forall r, In r (top_performers rep) -> ~ In r (needs_improvement rep))
  /\ total_sites rep = Z.of_nat (length (detailed_results rep))
  /\ successful_analyses rep
     = Z.of_nat (length (List.filter success (detailed_results rep)))
  /\ (0 <= successful_analyses rep <= total_sites rep)%Z
  /\ (Z.of_nat (length (top_performers rep)) + Z.of_nat (length (needs_improvement rep))
      <= successful_analyses rep)%Z.
Proof.
  intros H. apply analyze_websites_inv in H as (averages & -> & _).
  cbn [top_performers needs_improvement total_sites successful_analyses detailed_results].
  split; [| split; [| split; [| split]]].
  - intros r Ht Hl. apply List.filter_In in Ht as [_ Ht]. apply List.filter_In in Hl as [_ Hl].
    rewrite (top_not_low r Ht) in Hl. discriminate Hl.
  - rewrite List.length_map. reflexivity.
  - reflexivity.
  - pose proof (filter_length_le success (map (analyze_website self W) urls)) as L.
    rewrite List.length_map in L. lia.
  - pose proof (views_length (map (analyze_website self W) urls)). lia.
Qed.

Lemma views_are_disjoint_witness :
  exists rep,
    analyze_websites default_rater Sample.W Sample.C Sample.urls = Ok rep
    /\ (forall r, In r (top_performers rep) -> ~ In r (needs_improvement rep))
    /\ total_sites rep = Z.of_nat (length (detailed_results rep))
    /\ successful_analyses rep
       = Z.of_nat (length (List.filter success (detailed_results rep)))
    /\ (0 <= successful_analyses rep <= total_sites rep)%Z
    /\ (Z.of_nat (length (top_performers rep)) + Z.of_nat (length (needs_improvement rep))
        <= successful_analyses rep)%Z.
Proof.
  eexists. split; [vm_compute; reflexivity |].
  eapply (views_are_disjoint default_rater Sample.W Sample.C Sample.urls).
  vm_compute. reflexivity.
Defined.

(** *** Score classes of the formatter *)

(** X9: the score class that the formatter gives to an overall score agrees
    with the views of the analyzer: a top performer is always [good]; a site
    in need of improvement is never [good], and it is [average] only when
    its overall score is exactly 5. *)
Theorem score_class_of_views (r : site_result) (o : num) :
  overall_of r = Some o ->
  (is_top (lit 8) r = true -> ReportFormatter._get_score_class o = "good")
  /\ (is_low (lit 5) r = true ->
      ReportFormatter._get_score_class o = "poor"
      \/ (ReportFormatter._get_score_class o = "average" /\ le (PInt 5) o = true
          /\ le o (PInt 5) = true)).
Proof.
  intros Ho. unfold is_top, is_low, ReportFormatter._get_score_class. rewrite Ho.
  unfold ge. split; intros H.
  - assert (E : le (PInt 7) (lit 8) = true) by (vm_compute; reflexivity).
    rewrite (num_le_trans _ _ _ E H). reflexivity.
  - destruct (le (PInt 7) o) eqn:E7.
    + pose proof (num_le_trans _ _ _ E7 H) as F. vm_compute in F. discriminate F.
    + destruct (le (PInt 5) o) eqn:E5; [right | left; reflexivity].
      split; [reflexivity |]. split; [reflexivity |].
      assert (E : le (lit 5) (PInt 5) = true) by (vm_compute; reflexivity).
      exact (num_le_trans _ _ _ H E).
Qed.

Lemma score_class_of_views_witness :
  ReportFormatter._get_score_class (lit 8) = "good"
  /\ (ReportFormatter._get_score_class (lit 5) = "poor"
      \/ (ReportFormatter._get_score_class (lit 5) = "average" /\ le (PInt 5) (lit 5) = true
          /\ le (lit 5) (PInt 5) = true)).
Proof.
  split.
  - apply (score_class_of_views (Success "a" [("overall_score", lit 8)] []) (lit 8));
      vm_compute; reflexivity.
  - apply (score_class_of_views (Success "c" [("overall_score", lit 5)] []) (lit 5));
      vm_compute; reflexivity.
Defined.

(** *** The endpoint *)

(** X10: the handler of [POST /api/analyze].  An empty list of URLs is
    answered with [success=False] and the text of the [HTTPException] as
    [error], without a report and whatever the world is: the exception is
    caught by the handler's own [except].  A non-empty list is answered
    with [success=True], the report of the default rater and the message
    that counts the URLs, also when no site could be analysed. *)
Theorem endpoint_answers (str_http : Z -> string -> string) (W : world) (C : clock)
    (urls : list string) :
  (urls = [] ->
   Api.analyze_websites str_http W C urls
   = Api.Response_ false None None (Some (str_http 400%Z "No URLs provided")))
  /\ (urls <> [] -> (Z.of_nat (length urls) <= sys_maxsize)%Z ->
      exists rep,
        analyze_websites default_rater W C urls = Ok rep
        /\ Api.analyze_websites str_http W C urls
           = Api.Response_ true
               (Some ("Successfully analyzed " +:+ pretty (Z.of_nat (length urls))
                        +:+ " websites"))
               (Some rep) None).
Proof.
  split.
  - intros ->. reflexivity.
  - intros Hne Hlen.
    destruct (analyze_websites_with_total default_rater C
                (fun url => Ok (analyze_website default_rater W url)) urls)
      as (averages & E & _).
    + reflexivity.
    + intros u r [= <-]. apply analyze_website_well_formed.
    + right. exact Hlen.
    + eexists. split; [exact E |].
      unfold Api.analyze_websites. destruct urls as [| u rest]; [congruence |].
      cbn [nonempty negb bind]. fold default_rater.
      change (analyze_websites default_rater W C (u :: rest))
        with (analyze_websites_with default_rater C
                (fun url => Ok (analyze_website default_rater W url)) (u :: rest)).
      rewrite E. reflexivity.
Qed.

Lemma endpoint_answers_witness :
  Api.analyze_websites (fun _ detail => detail) Sample.W Sample.C []
  = Api.Response_ false None None (Some "No URLs provided")
  /\ exists rep,
       analyze_websites default_rater Sample.W Sample.C ["nowhere.example"] = Ok rep
       /\ successful_analyses rep = 0%Z
       /\ Api.analyze_websites (fun _ detail => detail) Sample.W Sample.C ["nowhere.example"]
          = Api.Response_ true (Some "Successfully analyzed 1 websites") (Some rep) None.
Proof.
  split.
  - apply (endpoint_answers (fun _ detail => detail) Sample.W Sample.C []). reflexivity.
  - destruct (proj2 (endpoint_answers (fun _ detail => detail) Sample.W Sample.C
                       ["nowhere.example"]))
      as (rep & E & R).
    + discriminate.
    + vm_compute. discriminate.
    + exists rep. split; [exact E |]. split; [| exact R].
      vm_compute in E. injection E as <-. reflexivity.
Defined.

(** *** Values that round to themselves *)

Lemma RN_id (x : Q) : 0 <= x -> representable x -> RN x == x.
Proof.
  intros H0 Hr. destruct (Qlt_le_dec 0 x) as [Hp | Hz].
  - apply Qle_antisym.
    + apply RN_le; [exact H0 | lra | exact Hr].
    + apply RN_ge; [exact Hp | lra | exact Hr].
  - assert (E : x == 0) by lra. rewrite (RN_0 x E). symmetry. exact E.
Qed.

Lemma Qdiv_as_mult (x a b : Q) : 0 < a -> b * a == 1 -> x / a == x * b.
Proof.
  intros Ha E. apply (Qmult_inj_r _ _ a); [lra |].
  assert (L : x / a * a == x) by (field; lra).
  assert (R : x * b * a == x * (b * a)) by ring.
  rewrite L, R, E. ring.
Qed.

(** A count of bytes divided by a power of two is a float. *)
Lemma representable_shifted (n k : Z) :
  (0 <= n < 2 ^ 53)%Z -> (0 <= k <= 1000)%Z ->
  representable (inject_Z n / inject_Z (2 ^ k)).
Proof.
  intros Hn Hk.
  assert (P : 0 < inject_Z (2 ^ k)).
  { change 0 with (inject_Z 0). rewrite <- Zlt_Qlt. apply Z.pow_pos_nonneg; lia. }
  assert (E2 : pow2 k == inject_Z (2 ^ k)) by (apply pow2_nonneg_Z; lia).
  assert (Em : pow2 (- k) * pow2 k == 1).
  { rewrite <- pow2_add. replace (- k + k)%Z with 0%Z by lia. reflexivity. }
  destruct (Z.eq_dec n 0) as [-> | Hne].
  - apply representable_zero. unfold Qdiv. change (inject_Z 0) with 0. lra.
  - apply (representable_scaled _ n (- k)).
    + apply Qlt_shift_div_l; [exact P |]. 
      assert (0 < inject_Z n) by (change 0 with (inject_Z 0); rewrite <- Zlt_Qlt; lia). lra.
    + apply Qdiv_as_mult; [exact P |].
      assert (Em' : pow2 (- k) * inject_Z (2 ^ k) == pow2 (- k) * pow2 k)
        by (apply Qmult_comp; [reflexivity | symmetry; exact E2]).
      rewrite Em'. exact Em.
    + apply Qlt_shift_div_r; [exact P |].
      assert (E3 : pow2 (- k + 53) * inject_Z (2 ^ k) == inject_Z (2 ^ 53)).
      { assert (E4 : pow2 (- k + 53) * inject_Z (2 ^ k) == pow2 (- k + 53) * pow2 k)
          by (apply Qmult_comp; [reflexivity | symmetry; exact E2]).
        rewrite E4, <- pow2_add. replace (- k + 53 + k)%Z with 53%Z by lia.
        apply pow2_nonneg_Z. lia. }
      rewrite E3, <- Zlt_Qlt. lia.
    + lia.
Qed.

(** *** The size of the body in megabytes *)

Lemma float_of_int_1024 :
  exists y, float_of_int 1024 = Ok (Fin y) /\ y == inject_Z 1024.
Proof.
  destruct (float_of_int_in_range 1024 1024) as [E R]; [lia | lia |].
  eexists. split; [exact E | exact R].
Qed.

Lemma kilobytes_exact (n : Z) :
  (0 <= n < 2 ^ 53)%Z ->
  exists r, truediv (PInt n) (PInt 1024) = Ok (PFloat (Fin r))
            /\ r == inject_Z n / inject_Z 1024.
Proof.
  intros Hn. unfold truediv, int_truediv. cbn [Z.eqb].
  assert (Hr : representable (inject_Z n / inject_Z 1024))
    by (apply (representable_shifted n 10); lia).
  assert (H0 : 0 <= inject_Z n / inject_Z 1024).
  { apply Qle_shift_div_l; [reflexivity |]. 
    assert (0 <= inject_Z n) by (change 0 with (inject_Z 0); rewrite <- Zle_Qle; lia). lra. }
  pose proof (RN_id _ H0 Hr) as E.
  assert (Hs : too_large (RN (inject_Z n / inject_Z 1024)) = false).
  { apply not_too_large; [lra |]. rewrite E.
    apply Qle_trans with (inject_Z (2 ^ 53 - 1)); [| apply small_le_max_double; lia].
    apply Qle_shift_div_r; [reflexivity |].
    rewrite <- inject_Z_mult, <- Zle_Qle. lia. }
  rewrite Hs. cbn [bind]. eexists. split; [reflexivity | exact E].
Qed.

Lemma megabytes_exact (n : Z) (r : Q) :
  (0 <= n < 2 ^ 53)%Z -> r == inject_Z n / inject_Z 1024 ->
  exists m, truediv (PFloat (Fin r)) (PInt 1024) = Ok (PFloat (Fin m))
            /\ m == inject_Z n / inject_Z (2 ^ 20).
Proof.
  intros Hn Er. unfold truediv, to_float.
  destruct float_of_int_1024 as (y & Ey & Hy). rewrite Ey. cbn [bind fdiv].
  assert (Hy0 : Qeq_bool y 0 = false).
  { destruct (Qeq_bool y 0) eqn:B; [| reflexivity]. apply Qeq_bool_iff in B.
    rewrite Hy in B. discriminate B. }
  rewrite Hy0. cbn [bind]. unfold fround.
  assert (Eq : r / y == inject_Z n / inject_Z (2 ^ 20)).
  { rewrite Er, Hy. change (2 ^ 20)%Z with (1024 * 1024)%Z. rewrite inject_Z_mult.
    field; discriminate. }
  rewrite (RN_Qeq _ _ Eq).
  assert (Hr : representable (inject_Z n / inject_Z (2 ^ 20)))
    by (apply (representable_shifted n 20); lia).
  assert (H0 : 0 <= inject_Z n / inject_Z (2 ^ 20)).
  { apply Qle_shift_div_l; [reflexivity |]. 
    assert (0 <= inject_Z n) by (change 0 with (inject_Z 0); rewrite <- Zle_Qle; lia). lra. }
  pose proof (RN_id _ H0 Hr) as E.
  assert (Hs : too_large (RN (inject_Z n / inject_Z (2 ^ 20))) = false).
  { apply not_too_large; [lra |]. rewrite E.
    apply Qle_trans with (inject_Z (2 ^ 53 - 1)); [| apply small_le_max_double; lia].
    apply Qle_shift_div_r; [reflexivity |].
    rewrite <- inject_Z_mult, <- Zle_Qle. lia. }
  rewrite Hs. eexists. split; [reflexivity | exact E].
Qed.

Lemma le_megabytes (m : Q) (n t : Z) :
  m == inject_Z n / inject_Z (2 ^ 20) ->
  le (PFloat (Fin m)) (PInt t) = (n <=? t * 2 ^ 20)%Z.
Proof.
  intros E. unfold le. cbn [cmp_float fle].
  apply eq_true_iff_eq. rewrite Qle_bool_iff, Z.leb_le, E. split; intros H.
  - assert (H' : inject_Z n <= inject_Z t * inject_Z (2 ^ 20)).
    { apply (Qmult_le_r _ _ (/ inject_Z (2 ^ 20))); [reflexivity |].
      assert (F : inject_Z t * inject_Z (2 ^ 20) * / inject_Z (2 ^ 20) == inject_Z t)
        by (field; discriminate).
      rewrite F. exact H. }
    rewrite <- inject_Z_mult, <- Zle_Qle in H'. exact H'.
  - apply Qle_shift_div_r; [reflexivity |].
    rewrite <- inject_Z_mult, <- Zle_Qle. exact H.
Qed.

(** X11: the two divisions by 1024 in [_check_performance] lose nothing
    for a body of fewer than [2^53] bytes, so [response_size] is the ladder
    on the exact number of bytes: 10 up to 1 MiB, 8 up to 2 MiB, 6 up to
    5 MiB, 4 up to 10 MiB, 2 up to 20 MiB and 0 above. *)
Theorem response_size_is_exact (response : response) (load_time : num) :
  (Z.of_nat (length (content response)) < 2 ^ 53)%Z ->
  exists pm,
    _check_performance response load_time = Ok pm
    /\ getitem pm "response_size"
       = Ok (PInt (size_rating (Z.of_nat (length (content response))))).
Proof.
  intros Hn. unfold _check_performance, len.
  set (n := Z.of_nat (length (content response))) in *.
  destruct (kilobytes_exact n) as (r & Er & Hr); [lia |].
  rewrite Er. cbn [bind].
  destruct (megabytes_exact n r) as (m & Em & Hm); [lia | exact Hr |].
  rewrite Em. cbn [bind]. eexists. split; [reflexivity |].
  cbn [getitem String.eqb Ascii.eqb Bool.eqb]. f_equal.
  unfold _rate_metric. cbn [_rate_metric_from].
  rewrite !(le_megabytes m n _ Hm). unfold size_rating.
  repeat match goal with |- context [(n <=? ?t)%Z] => destruct (n <=? t)%Z end; reflexivity.
Qed.

Lemma response_size_is_exact_witness :
  exists pm,
    _check_performance (Sample.reply 200 "OK" "https://shop.example" "shop") (lit (5 # 100))
      = Ok pm
    /\ getitem pm "response_size" = Ok (PInt 10).
Proof.
  apply (response_size_is_exact (Sample.reply 200 "OK" "https://shop.example" "shop")
           (lit (5 # 100))).
  vm_compute. reflexivity.
Defined.

(** *** When a site is scored *)

Lemma kilobytes_total (n : Z) :
  (0 <= n <= sys_maxsize)%Z ->
  exists r, truediv (PInt n) (PInt 1024) = Ok (PFloat (Fin r)).
Proof.
  intros Hn. unfold truediv, int_truediv. cbn [Z.eqb].
  assert (H0 : 0 <= inject_Z n / inject_Z 1024).
  { apply Qle_shift_div_l; [reflexivity |].
    assert (0 <= inject_Z n) by (change 0 with (inject_Z 0); rewrite <- Zle_Qle; lia). lra. }
  assert (Hs : too_large (RN (inject_Z n / inject_Z 1024)) = false).
  { apply not_too_large; [apply RN_nonneg; exact H0 |].
    apply Qle_trans with (pow2 53).
    - apply RN_le; [exact H0 | | apply representable_pow2; lia].
      apply Qle_shift_div_r; [reflexivity |].
      rewrite (pow2_nonneg_Z 53) by lia. rewrite <- inject_Z_mult, <- Zle_Qle.
      unfold sys_maxsize in Hn. lia.
    - apply double_le_max; [pose proof (pow2_pos 53); lra | apply representable_pow2; lia |].
      apply pow2_lt. lia. }
  rewrite Hs. cbn [bind]. eexists. reflexivity.
Qed.

Lemma megabytes_total (r : Q) :
  exists m, truediv (PFloat (Fin r)) (PInt 1024) = Ok (PFloat m).
Proof.
  unfold truediv, to_float.
  destruct float_of_int_1024 as (y & Ey & Hy). rewrite Ey. cbn [bind fdiv].
  assert (Hy0 : Qeq_bool y 0 = false).
  { destruct (Qeq_bool y 0) eqn:B; [| reflexivity]. apply Qeq_bool_iff in B.
    rewrite Hy in B. discriminate B. }
  rewrite Hy0. cbn [bind]. eexists. reflexivity.
Qed.

Lemma check_performance_total (response : response) (load_time : num) :
  (Z.of_nat (length (content response)) <= sys_maxsize)%Z ->
  exists pm, _check_performance response load_time = Ok pm.
Proof.
  intros Hn. unfold _check_performance, len.
  destruct (kilobytes_total (Z.of_nat (length (content response)))) as (r & Er); [lia |].
  rewrite Er. cbn [bind]. destruct (megabytes_total r) as (m & Em).
  rewrite Em. cbn [bind]. eexists. reflexivity.
Qed.

Lemma analyze_website_try_total (self : WebsiteRater) (W : world) (url : string)
    (resp : response) (s : soup) (html : node) :
  requests_get W url (headers self) (timeout self) = Ok resp ->
  raise_for_status resp = Ok tt ->
  BeautifulSoup W (text resp) = Ok s ->
  (Z.of_nat (length (content resp)) <= sys_maxsize)%Z ->
  find s "html" = Some html ->
  exists scores metrics, analyze_website_try self W url = Ok (Success url scores metrics).
Proof.
  intros Hget Hst Hparse Hlen Hhtml. unfold analyze_website_try.
  rewrite Hget. cbn [bind]. rewrite Hst. cbn [bind]. rewrite Hparse. cbn [bind].
  destruct (check_performance_total resp (PFloat (load_time_of W url)) Hlen) as (pm & Epm).
  destruct (check_performance_in_range _ _ _ Epm) as (Rpm & Lpm).
  destruct (analyze_design_in_range W s) as (dm & Edm & Rdm & Ldm).
  destruct (check_seo_basics_in_range s) as (sm & Esm & Rsm & Lsm).
  destruct (check_accessibility_found s html Hhtml) as (am & Eam).
  destruct (check_accessibility_in_range _ _ Eam) as (Ram & Lam).
  rewrite Epm. cbn [bind]. rewrite Edm. cbn [bind]. rewrite Esm. cbn [bind].
  rewrite Eam. cbn [bind].
  assert (G : forall d : dict num, Forall (in_range 10) (values d) ->
              (length d = 4%nat \/ length d = 5%nat) ->
              exists v, (let* s := sum (values d) in
                         let* q := truediv s (len d) in round q 2) = Ok v
                        /\ score_value v).
  { intros d Rd Ld.
    destruct (rounded_mean_score (values d)) as (v & Ev & Sv).
    - intros E. apply (f_equal (@length num)) in E. unfold values in E.
      rewrite List.length_map in E. cbn [length] in E. lia.
    - unfold values. rewrite List.length_map. lia.
    - exact Rd.
    - exists v. split; [| exact Sv]. unfold rounded_mean in Ev.
      rewrite len_values in Ev. exact Ev. }
  destruct (G pm Rpm (or_introl Lpm)) as (p & Ep & Sp).
  destruct (G dm Rdm (or_intror Ldm)) as (d & Ed & Sd).
  destruct (G sm Rsm (or_intror Lsm)) as (s' & Es & Ss).
  destruct (G am Ram (or_intror Lam)) as (a & Ea & Sa).
  rewrite Ep. cbn [bind]. rewrite Ed. cbn [bind]. rewrite Es. cbn [bind].
  rewrite Ea. cbn [bind].
  destruct (G [ ("performance_score", p); ("design_score", d); ("seo_score", s');
                ("accessibility_score", a) ]) as (o & Eo & So).
  - cbn [values map snd]. repeat constructor; apply score_value_in_range; assumption.
  - left. reflexivity.
  - rewrite Eo. cbn [bind]. do 2 eexists. reflexivity.
Qed.

(** X12: when the request is answered and the parser returns a document,
    [analyze_website] reports a success exactly when the status code is
    outside 400..599 and the document holds an [html] tag; no other metric
    can make the analysis fail.  (A body holds at most [sys.maxsize]
    bytes.) *)
Theorem success_iff_scorable (self : WebsiteRater) (W : world) (url : string)
    (resp : response) (s : soup) :
  requests_get W (normalize url) (headers self) (timeout self) = Ok resp ->
  BeautifulSoup W (text resp) = Ok s ->
  (Z.of_nat (length (content resp)) <= sys_maxsize)%Z ->
  (success (analyze_website self W url) = true
   <-> ((status_code resp < 400)%Z \/ (600 <= status_code resp)%Z)
       /\ exists html, find s "html" = Some html).
Proof.
  intros Hget Hparse Hlen. split.
  - intros H. destruct (analyze_website self W url) as [u scores metrics | u e] eqn:E;
      [| discriminate H].
    apply analyze_website_success_inv in E.
    apply analyze_website_try_inv in E
      as (response & soup & pm & dm & sm & am & p & d & s0 & a & o
          & Hget' & Hst & Hparse' & _ & _ & _ & Ham & _).
    rewrite Hget in Hget'. injection Hget' as <-.
    rewrite Hparse in Hparse'. injection Hparse' as <-.
    split.
    + destruct (Z_lt_le_dec (status_code resp) 400) as [L | L]; [left; exact L |].
      destruct (Z_lt_le_dec (status_code resp) 600) as [L' | L']; [| right; exact L'].
      destruct (raise_for_status_error resp) as (msg & Hmsg); [lia |].
      rewrite Hmsg in Hst. discriminate Hst.
    + destruct (find s "html") as [html |] eqn:Eh; [exists html; reflexivity |].
      rewrite (check_accessibility_no_html s Eh) in Ham. discriminate Ham.
  - intros [Hst (html & Hhtml)].
    destruct (analyze_website_try_total self W (normalize url) resp s html)
      as (scores & metrics & E); try assumption.
    + apply raise_for_status_pass. exact Hst.
    + rewrite (analyze_website_ok self W url _ E). reflexivity.
Qed.

Lemma success_iff_scorable_witness :
  success (analyze_website default_rater Sample.W "gone.example") = true
  <-> ((404 < 400)%Z \/ (600 <= 404)%Z)
      /\ exists html, find Sample.bare_page "html" = Some html.
Proof.
  apply (success_iff_scorable default_rater Sample.W "gone.example"
           (Sample.reply 404 "Not Found" "https://gone.example" "bare") Sample.bare_page).
  - vm_compute. reflexivity.
  - vm_compute. reflexivity.
  - vm_compute. discriminate.
Defined.

(** *** Means stay within the integer bounds of their terms *)

Lemma RN_between (x : Q) (lo hi : Z) :
  (0 <= lo)%Z -> (hi < 2 ^ 53)%Z -> inject_Z lo <= x <= inject_Z hi ->
  inject_Z lo <= RN x <= inject_Z hi /\ too_large (RN x) = false.
Proof.
  intros Hlo Hhi [Hx0 Hx1].
  assert (Q0 : 0 <= inject_Z lo) by (change 0 with (inject_Z 0); rewrite <- Zle_Qle; lia).
  assert (Hlh : (lo <= hi)%Z) by (rewrite Zle_Qle; lra).
  destruct (RN_in_range x hi) as (R1 & R2 & _); [lia | lra |].
  split; [| exact R2]. split; [| apply R1].
  destruct (Z.eq_dec lo 0) as [-> | Hne]; [apply R1 |].
  apply RN_ge; [| exact Hx0 | apply representable_small_int; lia].
  change 0 with (inject_Z 0). rewrite <- Zlt_Qlt. lia.
Qed.

Lemma fround_between (x : Q) (lo hi : Z) :
  (0 <= lo)%Z -> (hi < 2 ^ 53)%Z -> inject_Z lo <= x <= inject_Z hi ->
  fround x = Fin (RN x) /\ inject_Z lo <= RN x <= inject_Z hi.
Proof.
  intros Hlo Hhi Hx. destruct (RN_between x lo hi Hlo Hhi Hx) as [R1 R2].
  unfold fround. rewrite R2. auto.
Qed.

Lemma between_in_range (lo hi : Z) (x : num) :
  (0 <= lo)%Z -> between lo hi x -> in_range hi x.
Proof.
  intros Hlo. destruct x as [z | [q | s |]]; cbn [between in_range]; try tauto; [lia |].
  intros [H0 H1]. split; [| exact H1].
  assert (0 <= inject_Z lo) by (change 0 with (inject_Z 0); rewrite <- Zle_Qle; lia). lra.
Qed.

Lemma add_between (a b c d : Z) (x y : num) :
  (0 <= a)%Z -> (0 <= c)%Z -> (b + d < 2 ^ 53)%Z ->
  between a b x -> between c d y ->
  exists z, add x y = Ok z /\ between (a + c) (b + d) z.
Proof.
  intros Ha Hc Hbd Hx Hy.
  assert (Hlo : inject_Z (a + c) == inject_Z a + inject_Z c)
    by (rewrite inject_Z_plus; reflexivity).
  assert (Hhi : inject_Z (b + d) == inject_Z b + inject_Z d)
    by (rewrite inject_Z_plus; reflexivity).
  destruct x as [zx | [qx | sx |]], y as [zy | [qy | sy |]];
    cbn [between] in Hx, Hy; try contradiction.
  - exists (PInt (zx + zy)). split; [reflexivity | cbn [between]; lia].
  - assert (Hd : (c <= d)%Z) by (rewrite Zle_Qle; lra).
    destruct (float_of_int_in_range zx b) as [E1 E2]; [lia | lia |].
    unfold add, to_float. rewrite E1. cbn [bind].
    assert (Hr : inject_Z (a + c) <= RN (inject_Z zx) + qy <= inject_Z (b + d)).
    { rewrite E2, Hlo, Hhi. destruct Hx as [Hx0 Hx1].
      rewrite Zle_Qle in Hx0, Hx1. lra. }
    destruct (fround_between _ (a + c) (b + d) ltac:(lia) Hbd Hr) as (F1 & F2).
    eexists. split; [unfold fadd; rewrite F1; reflexivity | exact F2].
  - assert (Hb : (a <= b)%Z) by (rewrite Zle_Qle; lra).
    destruct (float_of_int_in_range zy d) as [E1 E2]; [lia | lia |].
    unfold add, to_float. rewrite E1. cbn [bind].
    assert (Hr : inject_Z (a + c) <= qx + RN (inject_Z zy) <= inject_Z (b + d)).
    { rewrite E2, Hlo, Hhi. destruct Hy as [Hy0 Hy1].
      rewrite Zle_Qle in Hy0, Hy1. lra. }
    destruct (fround_between _ (a + c) (b + d) ltac:(lia) Hbd Hr) as (F1 & F2).
    eexists. split; [unfold fadd; rewrite F1; reflexivity | exact F2].
  - assert (Hr : inject_Z (a + c) <= qx + qy <= inject_Z (b + d))
      by (rewrite Hlo, Hhi; lra).
    destruct (fround_between _ (a + c) (b + d) ltac:(lia) Hbd Hr) as (F1 & F2).
    eexists. split; [unfold add, to_float, fadd; cbn [bind]; rewrite F1; reflexivity | exact F2].
Qed.

Lemma sum_from_between (lo hi : Z) (xs : list num) : forall (a b : Z) (acc : num),
  (0 <= lo)%Z -> (0 <= a)%Z -> (b + hi * Z.of_nat (length xs) < 2 ^ 53)%Z ->
  (0 <= hi)%Z ->
  between a b acc -> Forall (between lo hi) xs ->
  exists s, sum_from acc xs = Ok s
            /\ between (a + lo * Z.of_nat (length xs)) (b + hi * Z.of_nat (length xs)) s.
Proof.
  induction xs as [| x xs IH]; intros a b acc Hlo Ha Hb Hhi Hacc Hxs.
  - exists acc. split; [reflexivity |]. cbn [length]. 
    replace (a + lo * Z.of_nat 0)%Z with a by lia.
    replace (b + hi * Z.of_nat 0)%Z with b by lia. exact Hacc.
  - apply List.Forall_cons_iff in Hxs as [Hx Hxs]. cbn [sum_from].
    cbn [length] in *. rewrite Nat2Z.inj_succ in *.
    destruct (add_between a b lo hi acc x) as (z & Ez & Hz); try assumption; try nia.
    rewrite Ez. cbn [bind].
    destruct (IH (a + lo)%Z (b + hi)%Z z) as (s & Es & Hs); try assumption; try nia.
    exists s. split; [exact Es |].
    replace (a + lo * Z.succ (Z.of_nat (length xs)))%Z
      with (a + lo + lo * Z.of_nat (length xs))%Z by lia.
    replace (b + hi * Z.succ (Z.of_nat (length xs)))%Z
      with (b + hi + hi * Z.of_nat (length xs))%Z by lia.
    exact Hs.
Qed.

Lemma mean_between (lo hi : Z) (s : num) (n : Z) :
  (0 <= lo)%Z -> (hi <= 10)%Z -> (0 < n)%Z -> (10 * n < 2 ^ 53)%Z ->
  between (lo * n) (hi * n) s ->
  exists q, truediv s (PInt n) = Ok (PFloat (Fin q)) /\ inject_Z lo <= q <= inject_Z hi.
Proof.
  intros Hlo Hhi Hn Hb Hs.
  assert (Hnq : 0 < inject_Z n) by (rewrite <- (Zlt_Qlt 0); exact Hn).
  assert (Ml : inject_Z (lo * n) == inject_Z lo * inject_Z n)
    by (rewrite inject_Z_mult; reflexivity).
  assert (Mh : inject_Z (hi * n) == inject_Z hi * inject_Z n)
    by (rewrite inject_Z_mult; reflexivity).
  destruct s as [z | [x | sx |]]; cbn [between] in Hs; try contradiction.
  - assert (Hq : inject_Z lo <= inject_Z z / inject_Z n <= inject_Z hi).
    { destruct Hs as [Hz0 Hz1]. rewrite Zle_Qle in Hz0, Hz1. rewrite Ml in Hz0.
      rewrite Mh in Hz1. split.
      - apply Qle_shift_div_l; lra.
      - apply Qle_shift_div_r; lra. }
    destruct (RN_between _ lo hi Hlo ltac:(lia) Hq) as (R1 & R2).
    exists (RN (inject_Z z / inject_Z n)). split; [| exact R1].
    unfold truediv, int_truediv.
    destruct (Z.eqb_spec n 0) as [-> | _]; [lia |].
    rewrite R2. reflexivity.
  - destruct (float_of_int_in_range n n ltac:(lia) ltac:(lia)) as [E1 E2].
    assert (Hq : inject_Z lo <= x / RN (inject_Z n) <= inject_Z hi).
    { rewrite Ml, Mh in Hs. rewrite E2. split.
      - apply Qle_shift_div_l; lra.
      - apply Qle_shift_div_r; lra. }
    destruct (fround_between _ lo hi Hlo ltac:(lia) Hq) as (F1 & F2).
    exists (RN (x / RN (inject_Z n))). split; [| exact F2].
    unfold truediv, to_float. rewrite E1. cbn [bind]. unfold fdiv.
    assert (Hz : Qeq_bool (RN (inject_Z n)) 0 = false).
    { destruct (Qeq_bool (RN (inject_Z n)) 0) eqn:E; [| reflexivity].
      apply Qeq_bool_iff in E. lra. }
    rewrite Hz, F1. reflexivity.
Qed.

Lemma round2_between (lo hi : Z) (x : Q) :
  (0 <= lo)%Z -> (hi <= 10)%Z -> inject_Z lo <= x <= inject_Z hi ->
  exists k, (100 * lo <= k <= 100 * hi)%Z
            /\ round (PFloat (Fin x)) 2 = Ok (lit (k # 100))
            /\ between lo hi (lit (k # 100)).
Proof.
  intros Hlo Hhi [H0 H1]. unfold round.
  change (Qpower 10 2) with (100 # 1).
  set (k := round_half_even (x * (100 # 1))).
  assert (Hk : (100 * lo <= k <= 100 * hi)%Z).
  { split.
    - apply round_half_even_ge. rewrite inject_Z_mult. change (inject_Z 100) with 100. lra.
    - apply round_half_even_le. rewrite inject_Z_mult. change (inject_Z 100) with 100. lra. }
  assert (Hq : inject_Z lo <= inject_Z k / (100 # 1) <= inject_Z hi).
  { destruct Hk as [K0 K1]. rewrite Zle_Qle in K0, K1.
    rewrite inject_Z_mult in K0, K1. change (inject_Z 100) with 100 in K0, K1. split.
    - apply Qle_shift_div_l; [reflexivity | lra].
    - apply Qle_shift_div_r; [reflexivity | lra]. }
  destruct (RN_between _ lo hi Hlo ltac:(lia) Hq) as (R1 & R2).
  assert (E : inject_Z k / (100 # 1) == k # 100).
  { unfold Qeq, Qdiv, Qmult, Qinv, inject_Z. cbn. lia. }
  exists k. split; [exact Hk |]. rewrite R2. unfold lit.
  rewrite (RN_Qeq _ _ E) in *. split; [reflexivity | exact R1].
Qed.

Lemma rounded_mean_between (lo hi : Z) (xs : list num) :
  (0 <= lo)%Z -> (hi <= 10)%Z ->
  xs <> [] -> (Z.of_nat (length xs) < 2 ^ 49)%Z -> Forall (between lo hi) xs ->
  exists k, (100 * lo <= k <= 100 * hi)%Z
            /\ rounded_mean xs = Ok (lit (k # 100))
            /\ between lo hi (lit (k # 100)).
Proof.
  intros Hlo Hhi Hne Hlen Hxs.
  assert (Hn : (0 < Z.of_nat (length xs))%Z) by (destruct xs; [congruence | simpl; lia]).
  assert (Hlh : (lo <= hi)%Z).
  { destruct xs as [| x xs]; [congruence |]. apply List.Forall_cons_iff in Hxs as [Hx _].
    destruct x as [z | [q | s |]]; cbn [between] in Hx; try contradiction; [lia |].
    rewrite Zle_Qle. lra. }
  destruct (sum_from_between lo hi xs 0 0 (PInt 0)) as (s & Es & Hs);
    try assumption; try lia; try nia; [cbn [between]; lia |].
  rewrite !Z.add_0_l in Hs.
  destruct (mean_between lo hi s (Z.of_nat (length xs))) as (q & Eq & Hq);
    try assumption; try lia.
  destruct (round2_between lo hi q Hlo Hhi Hq) as (k & Hk & Ek & Bk).
  exists k. split; [exact Hk |]. split; [| exact Bk].
  unfold rounded_mean, sum. rewrite Es. cbn [bind]. unfold len. rewrite Eq. cbn [bind].
  exact Ek.
Qed.

Lemma group_between (lo hi : Z) (d : dict num) (v : num) :
  (0 <= lo)%Z -> (hi <= 10)%Z ->
  (length d = 4%nat \/ length d = 5%nat) ->
  rounded_mean (values d) = Ok v ->
  Forall (between lo hi) (values d) ->
  between lo hi v /\ exists k, (100 * lo <= k <= 100 * hi)%Z /\ v = lit (k # 100).
Proof.
  intros Hlo Hhi Hlen Hv Hd.
  assert (Hl : length (values d) = length d) by (unfold values; apply List.length_map).
  destruct (rounded_mean_between lo hi (values d) Hlo Hhi) as (k & Hk & Ek & Bk).
  - intros E. rewrite E in Hl. cbn [length] in Hl. lia.
  - rewrite Hl. lia.
  - exact Hd.
  - rewrite Ek in Hv. injection Hv as <-. split; [exact Bk |]. exists k. auto.
Qed.

(** X13: rounding never takes a mean out of the integer bounds of its
    terms.  For integers [0 <= lo] and [hi <= 10]: a category score lies
    between [lo] and [hi] when all metrics of its group do, and the overall
    score lies between [lo] and [hi] when the four category scores do. *)
Theorem scores_within_bounds (self : WebsiteRater) (W : world) (url u : string)
    (scores : dict num) (metrics : dict (dict num)) (lo hi : Z) :
  analyze_website self W url = Success u scores metrics ->
  (0 <= lo)%Z -> (hi <= 10)%Z ->
  exists pm dm sm am p d s a o,
    metrics = [ ("performance", pm); ("design", dm); ("seo", sm); ("accessibility", am) ]
    /\ scores = [ ("performance_score", p); ("design_score", d); ("seo_score", s);
                  ("accessibility_score", a); ("overall_score", o) ]
    /\ (Forall (between lo hi) (values pm) -> between lo hi p)
    /\ (Forall (between lo hi) (values dm) -> between lo hi d)
    /\ (Forall (between lo hi) (values sm) -> between lo hi s)
    /\ (Forall (between lo hi) (values am) -> between lo hi a)
    /\ (Forall (between lo hi) [p; d; s; a] -> between lo hi o).
Proof.
  intros H Hlo Hhi. apply analyze_website_success_inv in H.
  apply analyze_website_try_inv in H
    as (response & soup & pm & dm & sm & am & p & d & s & a & o
        & _ & _ & _ & Hpm & Hdm & Hsm & Ham & Hp & Hd & Hs & Ha & Ho & E).
  injection E as _ -> ->.
  destruct (check_performance_in_range _ _ _ Hpm) as (_ & Lpm).
  destruct (analyze_design_in_range W soup) as (dm' & Hdm' & _ & Ldm).
  rewrite Hdm in Hdm'. injection Hdm' as <-.
  destruct (check_seo_basics_in_range soup) as (sm' & Hsm' & _ & Lsm).
  rewrite Hsm in Hsm'. injection Hsm' as <-.
  destruct (check_accessibility_in_range _ _ Ham) as (_ & Lam).
  exists pm, dm, sm, am, p, d, s, a, o.
  split; [reflexivity |]. split; [reflexivity |].
  split; [| split; [| split; [| split]]]; intros F.
  - apply (group_between lo hi pm p); auto.
  - apply (group_between lo hi dm d); auto.
  - apply (group_between lo hi sm s); auto.
  - apply (group_between lo hi am a); auto.
  - apply (group_between lo hi
             [("performance_score", p); ("design_score", d); ("seo_score", s);
              ("accessibility_score", a)] o); auto.
Qed.

Lemma scores_within_bounds_witness :
  exists u scores metrics,
    analyze_website default_rater Sample.W "shop.example" = Success u scores metrics
    /\ exists pm dm sm am p d s a o,
         metrics = [ ("performance", pm); ("design", dm); ("seo", sm);
                     ("accessibility", am) ]
         /\ scores = [ ("performance_score", p); ("design_score", d); ("seo_score", s);
                       ("accessibility_score", a); ("overall_score", o) ]
         /\ (Forall (between 2 10) (values pm) -> between 2 10 p)
         /\ (Forall (between 2 10) (values dm) -> between 2 10 d)
         /\ (Forall (between 2 10) (values sm) -> between 2 10 s)
         /\ (Forall (between 2 10) (values am) -> between 2 10 a)
         /\ (Forall (between 2 10) [p; d; s; a] -> between 2 10 o).
Proof.
  do 3 eexists. split; [vm_compute; reflexivity |].
  eapply (scores_within_bounds default_rater Sample.W "shop.example").
  - vm_compute. reflexivity.
  - lia.
  - lia.
Defined.

(** *** Recommendations *)

Lemma score_not_below (v : num) (t : Z) :
  score_value v -> (0 <= t <= 10)%Z -> lt v (PInt t) = false -> between t 10 v.
Proof.
  intros (q & -> & [H0 H1] & _) Ht H. unfold lt in H. cbn [cmp_float flt fle] in H.
  apply negb_false_iff, Qle_bool_iff in H. cbn [between]. change (inject_Z 10) with 10.
  split; assumption.
Qed.

Lemma site_recommendations_total (p d s a o : num) (metrics : dict (dict num)) :
  exists items,
    ReportFormatter._generate_site_recommendations
      [ ("performance_score", p); ("design_score", d); ("seo_score", s);
        ("accessibility_score", a); ("overall_score", o) ] metrics = Ok items
    /\ (items = ""
        -> lt p (PInt 7) = false /\ lt d (PInt 7) = false /\ lt s (PInt 7) = false
           /\ lt a (PInt 7) = false).
Proof.
  unfold ReportFormatter._generate_site_recommendations.
  cbn [getitem bind String.eqb Ascii.eqb Bool.eqb].
  destruct (lt p (PInt 7)), (lt d (PInt 7)), (lt s (PInt 7)), (lt a (PInt 7));
    eexists; (split; [reflexivity |]); intros E;
    try (vm_compute in E; discriminate E); repeat split; reflexivity.
Qed.

Lemma low_site_inv (self : WebsiteRater) (W : world) (urls : list string)
    (site : site_result) :
  In site (List.filter (is_low (lit 5)) (map (analyze_website self W) urls)) ->
  exists u p d s a o metrics,
    site = Success u
             [ ("performance_score", p); ("design_score", d); ("seo_score", s);
               ("accessibility_score", a); ("overall_score", o) ] metrics
    /\ score_value p /\ score_value d /\ score_value s /\ score_value a
    /\ le o (lit 5) = true
    /\ (Forall (between 7 10) [p; d; s; a] -> between 7 10 o).
Proof.
  intros H. apply List.filter_In in H as [Hin Hlow].
  apply List.in_map_iff in Hin as (url & <- & _).
  pose proof (analyze_website_well_formed self W url) as Hwf.
  destruct (analyze_website self W url) as [u scores metrics | u e] eqn:E;
    [| discriminate Hlow].
  destruct (scores_within_bounds self W url u scores metrics 7 10 E)
    as (pm & dm & sm & am & p & d & s & a & o & -> & -> & _ & _ & _ & _ & Ho); [lia | lia |].
  cbn [well_formed] in Hwf.
  destruct Hwf as (p' & d' & s' & a' & o' & Es & Sp & Sd & Ss & Sa & So).
  injection Es as <- <- <- <- <-.
  exists u, p, d, s, a, o. eexists. split; [reflexivity |].
  do 4 (split; [assumption |]). split; [| exact Ho].
  unfold is_low, overall_of in Hlow.
  cbn [getitem String.eqb Ascii.eqb Bool.eqb] in Hlow. exact Hlow.
Qed.

Lemma between_7_not_low (o : num) : between 7 10 o -> le o (lit 5) = false.
Proof.
  assert (E5 : RN 5 = 5) by (vm_compute; reflexivity).
  destruct o as [z | [q | s |]]; cbn [between]; try contradiction; intros [H _];
    unfold le, lit; cbn [cmp_float fle]; rewrite E5;
    (destruct (Qle_bool _ 5) eqn:B; [| reflexivity]); apply Qle_bool_iff in B.
  - exfalso. change 5 with (inject_Z 5) in B. rewrite <- Zle_Qle in B. lia.
  - exfalso. change (inject_Z 7) with 7 in H. lra.
Qed.

(** X14: every site that a report lists under [needs_improvement] gets at
    least one recommendation from [_generate_site_recommendations]: an
    overall score of at most 5 means that some category score is below 7.
    The lookups of the formatter never raise on such a site. *)
Theorem low_sites_get_advice (self : WebsiteRater) (W : world) (C : clock)
    (urls : list string) (rep : report) (site : site_result) :
  analyze_websites self W C urls = Ok rep ->
  In site (needs_improvement rep) ->
  exists scores metrics items,
    scores_of site = Ok scores
    /\ ReportFormatter.metrics_of site = Ok metrics
    /\ ReportFormatter._generate_site_recommendations scores metrics = Ok items
    /\ items <> "".
Proof.
  intros H Hin. apply analyze_websites_inv in H as (averages & -> & _).
  cbn [needs_improvement] in Hin.
  apply low_site_inv in Hin
    as (u & p & d & s & a & o & metrics & -> & Sp & Sd & Ss & Sa & Hlow & Ho).
  destruct (site_recommendations_total p d s a o metrics) as (items & Ei & Hi).
  do 3 eexists. split; [reflexivity |]. split; [reflexivity |]. split; [exact Ei |].
  intros E. destruct (Hi E) as (Lp & Ld & Ls & La).
  assert (B : between 7 10 o).
  { apply Ho. repeat constructor; apply score_not_below; auto; lia. }
  rewrite (between_7_not_low o B) in Hlow. discriminate Hlow.
Qed.

Lemma low_sites_get_advice_witness :
  exists rep site,
    analyze_websites default_rater Sample.W Sample.C ["nested.example"] = Ok rep
    /\ In site (needs_improvement rep)
    /\ exists scores metrics items,
         scores_of site = Ok scores
         /\ ReportFormatter.metrics_of site = Ok metrics
         /\ ReportFormatter._generate_site_recommendations scores metrics = Ok items
         /\ items <> "".
Proof.
  do 2 eexists. split; [vm_compute; reflexivity |]. split; [left; reflexivity |].
  eapply (low_sites_get_advice default_rater Sample.W Sample.C ["nested.example"]).
  - vm_compute. reflexivity.
  - left. reflexivity.
Defined.

Lemma prefix_app_l (a b h : string) :
  String.prefix (a +:+ b) h = true -> String.prefix a h = true.
Proof.
  revert h. induction a as [| c a IH]; intros h H; [destruct h; reflexivity |].
  destruct h as [| c' h]; [discriminate H |].
  simpl in *. destruct (ascii_dec c c'); [auto | discriminate H].
Qed.

Lemma prefix_refl (a : string) : String.prefix a a = true.
Proof.
  induction a as [| c a IH]; [reflexivity |].
  simpl. destruct (ascii_dec c c); [exact IH | congruence].
Qed.

Lemma recommendations_loop_total (sites : list site_result) : forall acc : string,
  Forall (fun site =>
            exists u scores metrics items,
              site = Success u scores metrics
              /\ ReportFormatter._generate_site_recommendations scores metrics = Ok items)
    sites ->
  exists html,
    ReportFormatter._generate_recommendations_loop sites acc = Ok html
    /\ String.prefix acc html = true.
Proof.
  induction sites as [| site rest IH]; intros acc H.
  - exists acc. split; [reflexivity | apply prefix_refl].
  - apply List.Forall_cons_iff in H as [(u & scores & metrics & items & -> & Ei) Hrest].
    cbn [ReportFormatter._generate_recommendations_loop scores_of
           ReportFormatter.metrics_of bind].
    rewrite Ei. cbn [bind].
    match goal with
    | |- exists html, ReportFormatter._generate_recommendations_loop rest (acc +:+ ?x) = _ /\ _ =>
        destruct (IH (acc +:+ x) Hrest) as (html & Eh & Ph)
    end.
    exists html. split; [exact Eh |]. exact (prefix_app_l _ _ _ Ph).
Qed.

(** X15: on the report of [analyze_websites], [_generate_recommendations]
    never raises; it returns the empty string exactly when no site needs
    improvement, and otherwise text that starts with the heading
    [<h2>Recommendations</h2>]. *)
Theorem recommendations_section (self : WebsiteRater) (W : world) (C : clock)
    (urls : list string) (rep : report) :
  analyze_websites self W C urls = Ok rep ->
  exists html,
    ReportFormatter._generate_recommendations (needs_improvement rep) = Ok html
    /\ (html = "" <-> needs_improvement rep = [])
    /\ (needs_improvement rep <> [] ->
        String.prefix "<h2>Recommendations</h2>" html = true).
Proof.
  intros H. apply analyze_websites_inv in H as (averages & -> & _).
  cbn [needs_improvement].
  set (low := List.filter (is_low (lit 5)) (map (analyze_website self W) urls)).
  assert (F : Forall (fun site =>
                        exists u scores metrics items,
                          site = Success u scores metrics
                          /\ ReportFormatter._generate_site_recommendations scores metrics
                             = Ok items) low).
  { apply List.Forall_forall. intros site Hin. apply low_site_inv in Hin
      as (u & p & d & s & a & o & metrics & -> & _).
    destruct (site_recommendations_total p d s a o metrics) as (items & Ei & _).
    do 4 eexists. split; [reflexivity | exact Ei]. }
  unfold ReportFormatter._generate_recommendations.
  destruct low as [| site rest] eqn:El.
  - exists "". cbn [nonempty negb]. split; [reflexivity |]. split; [tauto | congruence].
  - cbn [nonempty negb].
    destruct (recommendations_loop_total (site :: rest) "<h2>Recommendations</h2>" F)
      as (html & Eh & Ph).
    exists html. split; [exact Eh |]. split; [| intros _; exact Ph].
    split; [| discriminate]. intros ->. discriminate Ph.
Qed.

Lemma recommendations_section_witness :
  exists rep html,
    analyze_websites default_rater Sample.W Sample.C ["nested.example"] = Ok rep
    /\ ReportFormatter._generate_recommendations (needs_improvement rep) = Ok html
    /\ (html = "" <-> needs_improvement rep = [])
    /\ (needs_improvement rep <> [] ->
        String.prefix "<h2>Recommendations</h2>" html = true).
Proof.
  destruct (analyze_websites default_rater Sample.W Sample.C ["nested.example"])
    as [rep | e] eqn:E.
  - destruct (recommendations_section default_rater Sample.W Sample.C ["nested.example"]
                rep E) as (html & H).
    exists rep, html. split; [reflexivity | exact H].
  - exfalso. vm_compute in E. discriminate E.
Defined.

(** *** Averages of a batch *)

Lemma rounded_mean_two_decimals (xs : list num) :
  xs <> [] -> (Z.of_nat (length xs) < 2 ^ 49)%Z -> Forall (in_range 10) xs ->
  exists k, (0 <= k <= 1000)%Z
            /\ rounded_mean xs = Ok (lit (k # 100))
            /\ score_value (lit (k # 100)).
Proof.
  intros Hne Hlen Hxs.
  destruct (rounded_mean_score xs Hne Hlen Hxs) as (v & Ev & Sv).
  destruct (rounded_mean_between 0 10 xs) as (k & Hk & Ek & _); try assumption; try lia.
  exists k. split; [lia |]. split; [exact Ek |]. congruence.
Qed.

Lemma mapM_length {A B} (f : A -> result B) (xs : list A) : forall ys,
  mapM f xs = Ok ys -> length ys = length xs.
Proof.
  induction xs as [| x xs IH]; intros ys H; cbn [mapM] in H.
  - injection H as <-. reflexivity.
  - apply bind_Ok in H as (y & _ & H). apply bind_Ok in H as (ys' & E & H).
    injection H as <-. cbn [length]. f_equal. apply IH. exact E.
Qed.

Lemma average_of_key (key : string) (rs : list site_result) :
  Forall well_formed rs -> Forall (fun r => success r = true) rs -> rs <> [] ->
  (Z.of_nat (length rs) < 2 ^ 49)%Z -> In key score_keys ->
  exists k, (0 <= k <= 1000)%Z
    /\ score_value (lit (k # 100))
    /\ (let* vs := mapM (fun r => let* scores := scores_of r in getitem scores key) rs in
        let* s := sum vs in
        let* q := truediv s (len rs) in
        let* avg := round q 2 in
        Ok (key, avg)) = Ok (key, lit (k # 100)).
Proof.
  intros Hwf Hs Hne Hlen Hkey.
  destruct (scores_of_successes key rs Hwf Hs Hkey) as (vs & Evs & Hvs).
  pose proof (mapM_length _ _ _ Evs) as L.
  destruct (rounded_mean_two_decimals vs) as (k & Hk & Ek & Sk).
  - intros ->. destruct rs; [congruence | discriminate L].
  - rewrite L. exact Hlen.
  - eapply List.Forall_impl; [apply score_value_in_range | exact Hvs].
  - exists k. split; [exact Hk |]. split; [exact Sk |].
    rewrite Evs. cbn [bind]. unfold rounded_mean, len in Ek. rewrite L in Ek.
    unfold len. destruct (sum vs) as [s | e]; [| discriminate Ek]. cbn [bind] in *.
    destruct (truediv s (PInt (Z.of_nat (length rs)))) as [q | e]; [| discriminate Ek].
    cbn [bind] in *. rewrite Ek. reflexivity.
Qed.

Lemma filter_success_all (rs : list site_result) :
  Forall (fun r => success r = true) (List.filter success rs).
Proof.
  apply List.Forall_forall. intros r H. apply List.filter_In in H as [_ H]. exact H.
Qed.

(** X16: when a batch of fewer than [2^49] URLs has at least one success,
    [average_scores] holds the five score keys, in the order of
    [score_keys], and each average is a float between 0 and 10. *)
Theorem averages_are_scores (self : WebsiteRater) (W : world) (C : clock)
    (urls : list string) (rep : report) :
  analyze_websites self W C urls = Ok rep ->
  (0 < successful_analyses rep)%Z ->
  (Z.of_nat (length urls) < 2 ^ 49)%Z ->
  map fst (average_scores rep) = score_keys
  /\ Forall score_value (values (average_scores rep)).
Proof.
  intros H Hpos Hlen. apply analyze_websites_inv in H as (averages & -> & E).
  cbn [successful_analyses average_scores] in *.
  set (rs := List.filter success (map (analyze_website self W) urls)) in *.
  assert (Hne : rs <> []) by (intros Z0; rewrite Z0 in Hpos; cbn in Hpos; lia).
  assert (Hwf : Forall well_formed rs).
  { apply List.Forall_forall. intros r Hr. apply List.filter_In in Hr as [Hr _].
    apply List.in_map_iff in Hr as (u & <- & _). apply analyze_website_well_formed. }
  assert (Hs : Forall (fun r => success r = true) rs) by apply filter_success_all.
  assert (Hl : (Z.of_nat (length rs) < 2 ^ 49)%Z).
  { pose proof (filter_length_le success (map (analyze_website self W) urls)) as L.
    rewrite List.length_map in L. fold rs in L. lia. }
  destruct rs as [| r0 rs0] eqn:Ers; [congruence |]. rewrite <- Ers in *.
  replace (nonempty rs) with true in E by (rewrite Ers; reflexivity).
  unfold score_keys in E. cbn [mapM] in E.
  destruct (average_of_key "performance_score" rs Hwf Hs Hne Hl) as (k1 & _ & S1 & E1);
    [cbn; tauto |].
  destruct (average_of_key "design_score" rs Hwf Hs Hne Hl) as (k2 & _ & S2 & E2);
    [cbn; tauto |].
  destruct (average_of_key "seo_score" rs Hwf Hs Hne Hl) as (k3 & _ & S3 & E3);
    [cbn; tauto |].
  destruct (average_of_key "accessibility_score" rs Hwf Hs Hne Hl) as (k4 & _ & S4 & E4);
    [cbn; tauto |].
  destruct (average_of_key "overall_score" rs Hwf Hs Hne Hl) as (k5 & _ & S5 & E5);
    [cbn; tauto |].
  rewrite E1 in E. cbn [bind] in E. rewrite E2 in E. cbn [bind] in E.
  rewrite E3 in E. cbn [bind] in E. rewrite E4 in E. cbn [bind] in E.
  rewrite E5 in E. cbn [bind] in E. injection E as <-.
  split; [reflexivity |]. cbn [values map snd]. repeat constructor; assumption.
Qed.

Lemma averages_are_scores_witness :
  exists rep,
    analyze_websites default_rater Sample.W Sample.C Sample.urls = Ok rep
    /\ successful_analyses rep = 1%Z
    /\ map fst (average_scores rep) = score_keys
    /\ Forall score_value (values (average_scores rep)).
Proof.
  destruct (analyze_websites default_rater Sample.W Sample.C Sample.urls)
    as [rep | e] eqn:E.
  - assert (H1 : successful_analyses rep = 1%Z).
    { vm_compute in E. injection E as <-. reflexivity. }
    exists rep. split; [reflexivity |]. split; [exact H1 |].
    apply (averages_are_scores default_rater Sample.W Sample.C Sample.urls rep E).
    + rewrite H1. lia.
    + vm_compute. reflexivity.
  - exfalso. vm_compute in E. discriminate E.
Defined.

(** *** A batch with one success *)

(** The mean of a single two-decimal score is that score: checked for each
    of the 1001 scores between 0.00 and 10.00. *)
Lemma single_mean_checked :
  forallb
    (fun n : nat =>
       match rounded_mean [lit (Z.of_nat n # 100)], lit (Z.of_nat n # 100) with
       | Ok (PFloat (Fin q)), PFloat (Fin q') =>
           (Qnum q =? Qnum q')%Z && (Qden q =? Qden q')%positive
       | _, _ => false
       end)
    (seq 0 1001) = true.
Proof. vm_compute. reflexivity. Qed.

Lemma single_mean (k : Z) :
  (0 <= k <= 1000)%Z -> rounded_mean [lit (k # 100)] = Ok (lit (k # 100)).
Proof.
  intros Hk. pose proof single_mean_checked as H.
  rewrite List.forallb_forall in H. specialize (H (Z.to_nat k)).
  rewrite Z2Nat.id in H by lia.
  assert (Hin : In (Z.to_nat k) (seq 0 1001)) by (apply List.in_seq; lia).
  specialize (H Hin).
  destruct (rounded_mean [lit (k # 100)]) as [[z | [q | s |]] | e]; try discriminate H.
  unfold lit in *. destruct (RN (k # 100)) as [a b]. destruct q as [c d].
  cbn [Qnum Qden] in H. apply andb_true_iff in H as [H1 H2].
  apply Z.eqb_eq in H1. apply Pos.eqb_eq in H2. subst. reflexivity.
Qed.

Lemma analyze_website_two_decimals (self : WebsiteRater) (W : world) (url u : string)
    (scores : dict num) (metrics : dict (dict num)) :
  analyze_website self W url = Success u scores metrics ->
  exists kp kd ks ka ko,
    scores = [ ("performance_score", lit (kp # 100)); ("design_score", lit (kd # 100));
               ("seo_score", lit (ks # 100)); ("accessibility_score", lit (ka # 100));
               ("overall_score", lit (ko # 100)) ]
    /\ (0 <= kp <= 1000)%Z /\ (0 <= kd <= 1000)%Z /\ (0 <= ks <= 1000)%Z
    /\ (0 <= ka <= 1000)%Z /\ (0 <= ko <= 1000)%Z.
Proof.
  intros H. apply analyze_website_success_inv in H.
  apply analyze_website_try_inv in H
    as (response & soup & pm & dm & sm & am & p & d & s & a & o
        & _ & _ & _ & Hpm & Hdm & Hsm & Ham & Hp & Hd & Hs & Ha & Ho & E).
  injection E as _ -> _.
  destruct (check_performance_in_range _ _ _ Hpm) as (Rpm & Lpm).
  destruct (analyze_design_in_range W soup) as (dm' & Hdm' & Rdm & Ldm).
  rewrite Hdm in Hdm'. injection Hdm' as <-.
  destruct (check_seo_basics_in_range soup) as (sm' & Hsm' & Rsm & Lsm).
  rewrite Hsm in Hsm'. injection Hsm' as <-.
  destruct (check_accessibility_in_range _ _ Ham) as (Ram & Lam).
  destruct (group_between 0 10 pm p) as (Bp & kp & Kp & ->); auto; try lia.
  destruct (group_between 0 10 dm d) as (Bd & kd & Kd & ->); auto; try lia.
  destruct (group_between 0 10 sm s) as (Bs & ks & Ks & ->); auto; try lia.
  destruct (group_between 0 10 am a) as (Ba & ka & Ka & ->); auto; try lia.
  assert (F : Forall (between 0 10)
                (values [("performance_score", lit (kp # 100));
                         ("design_score", lit (kd # 100));
                         ("seo_score", lit (ks # 100));
                         ("accessibility_score", lit (ka # 100))])).
  { cbn [values map snd]. do 4 (apply List.Forall_cons; [assumption |]). constructor. }
  destruct (group_between 0 10
              [("performance_score", lit (kp # 100)); ("design_score", lit (kd # 100));
               ("seo_score", lit (ks # 100)); ("accessibility_score", lit (ka # 100))] o
              ltac:(lia) ltac:(lia) (or_introl eq_refl) Ho F)
    as (Bo & ko & Ko & ->).
  exists kp, kd, ks, ka, ko. split; [reflexivity |]. lia.
Qed.

(** X17: when exactly one site of a batch succeeds, [average_scores] is
    the [scores] dict of that site: same keys, same order, same floats.
    Summing one two-decimal score from the int 0, dividing by 1 and rounding
    again gives the score back. *)
Theorem single_success_average (self : WebsiteRater) (W : world) (C : clock)
    (urls : list string) (rep : report) (site : site_result) :
  analyze_websites self W C urls = Ok rep ->
  List.filter success (detailed_results rep) = [site] ->
  scores_of site = Ok (average_scores rep).
Proof.
  intros H Hone. apply analyze_websites_inv in H as (averages & -> & E).
  cbn [detailed_results average_scores] in *. rewrite Hone in E.
  assert (Hin : In site (List.filter success (map (analyze_website self W) urls)))
    by (rewrite Hone; left; reflexivity).
  apply List.filter_In in Hin as [Hin Hs].
  apply List.in_map_iff in Hin as (url & Eu & _).
  destruct site as [u scores metrics | u e]; [| discriminate Hs].
  destruct (analyze_website_two_decimals self W url u scores metrics Eu)
    as (kp & kd & ks & ka & ko & -> & Kp & Kd & Ks & Ka & Ko).
  cbn [nonempty] in E. unfold score_keys in E.
  cbn [mapM scores_of bind getitem String.eqb Ascii.eqb Bool.eqb] in E.
  change (len [Success u
                 [("performance_score", lit (kp # 100)); ("design_score", lit (kd # 100));
                  ("seo_score", lit (ks # 100)); ("accessibility_score", lit (ka # 100));
                  ("overall_score", lit (ko # 100))] metrics]) with (PInt 1) in E.
  pose proof (single_mean kp Kp) as Mp. pose proof (single_mean kd Kd) as Md.
  pose proof (single_mean ks Ks) as Ms. pose proof (single_mean ka Ka) as Ma.
  pose proof (single_mean ko Ko) as Mo.
  unfold rounded_mean in Mp, Md, Ms, Ma, Mo.
  change (len [lit (kp # 100)]) with (PInt 1) in Mp.
  change (len [lit (kd # 100)]) with (PInt 1) in Md.
  change (len [lit (ks # 100)]) with (PInt 1) in Ms.
  change (len [lit (ka # 100)]) with (PInt 1) in Ma.
  change (len [lit (ko # 100)]) with (PInt 1) in Mo.
  assert (G : forall (key : string) (v : num),
            (let* s := sum [v] in let* q := truediv s (PInt 1) in round q 2) = Ok v ->
            (let* s := sum [v] in
             let* q := truediv s (PInt 1) in
             let* avg := round q 2 in Ok (key, avg)) = Ok (key, v)).
  { intros key v Hv. destruct (sum [v]) as [s0 | e]; [| discriminate Hv]. cbn [bind] in *.
    destruct (truediv s0 (PInt 1)) as [q | e]; [| discriminate Hv]. cbn [bind] in *.
    rewrite Hv. reflexivity. }
  rewrite (G _ _ Mp) in E. cbn [bind] in E. rewrite (G _ _ Md) in E. cbn [bind] in E.
  rewrite (G _ _ Ms) in E. cbn [bind] in E. rewrite (G _ _ Ma) in E. cbn [bind] in E.
  rewrite (G _ _ Mo) in E. cbn [bind] in E. injection E as <-. reflexivity.
Qed.

Lemma single_success_average_witness :
  exists rep site,
    analyze_websites default_rater Sample.W Sample.C Sample.urls = Ok rep
    /\ List.filter success (detailed_results rep) = [site]
    /\ scores_of site = Ok (average_scores rep).
Proof.
  do 2 eexists. split; [vm_compute; reflexivity |]. split; [vm_compute; reflexivity |].
  eapply (single_success_average default_rater Sample.W Sample.C Sample.urls).
  - vm_compute. reflexivity.
  - vm_compute. reflexivity.
Defined.

(** *** Bookkeeping of the pool *)

Lemma enumerate_from_length (urls : list string) : forall i,
  length (enumerate_from i urls) = length urls.
Proof.
  induction urls as [| u rest IH]; intros i; cbn [enumerate_from length]; [reflexivity |].
  rewrite IH. reflexivity.
Qed.

Lemma pool_books_init (urls : list string) : pool_books urls (submit_all urls).
Proof.
  exists 0%nat, urls. cbn [submit_all queue running done map length].
  split; [reflexivity |]. split; [reflexivity |]. split; [constructor |].
  split; [intros i u [] |]. split.
  - intros i [x H]. rewrite lookup_empty in H. discriminate H.
  - rewrite map_size_empty. reflexivity.
Qed.

Lemma pool_books_step (n : Z) (worker : string -> result site_result)
    (urls : list string) (p p' : pool) :
  step n worker p p' -> pool_books urls p -> pool_books urls p'.
Proof.
  intros Hstep (k & rest & Hq & Hlen & Hnd & Hrun & Hdone & Hsize).
  destruct Hstep as [item q r d Hfree | i url q before after d];
    cbn [queue running done] in *.
  - destruct rest as [| u rest']; cbn [enumerate_from] in Hq; [discriminate Hq |].
    injection Hq as -> ->. exists (S k), rest'. cbn [queue running done].
    split; [reflexivity |]. split; [cbn [length] in Hlen; lia |]. split.
    + rewrite map_app. apply NoDup_app. split; [exact Hnd |]. split.
      * intros j Hj Hj'. cbn [map fst] in Hj'. apply list_elem_of_singleton in Hj'.
        subst j. apply list_elem_of_In, List.in_map_iff in Hj as ([j v] & Ej & Hin).
        cbn [fst] in Ej. subst j. apply Hrun in Hin. lia.
      * cbn [map fst]. apply NoDup_singleton.
    + split; [| split].
      * intros j v Hin. apply List.in_app_iff in Hin as [Hin | [[= <- <-] | []]].
        -- destruct (Hrun j v Hin). split; [lia | assumption].
        -- split; [lia |]. destruct (d !! k) as [x |] eqn:E; [| reflexivity].
           assert (k < k)%nat by (apply Hdone; eexists; exact E). lia.
      * intros j Hj. apply Hdone in Hj. lia.
      * rewrite List.length_app. cbn [length]. lia.
  - exists k, rest. cbn [queue running done].
    split; [exact Hq |]. split; [exact Hlen |].
    rewrite map_app in Hnd. cbn [map fst] in Hnd.
    apply NoDup_app in Hnd as (Hb & Hba & Ha). apply NoDup_cons in Ha as [Hia Ha].
    assert (Hi : (i < k)%nat /\ d !! i = None).
    { apply (Hrun i url). apply List.in_app_iff. right. left. reflexivity. }
    assert (Hib : i ∉ map fst before).
    { intros H. apply (Hba i H). left. }
    split.
    + rewrite map_app. apply NoDup_app. split; [exact Hb |]. split; [| exact Ha].
      intros j Hj Hj'. apply (Hba j Hj). right. exact Hj'.
    + split; [| split].
      * intros j v Hin.
        assert (Hin' : In (j, v) (before ++ (i, url) :: after)).
        { apply List.in_app_iff in Hin. apply List.in_app_iff. cbn [In]. tauto. }
        destruct (Hrun j v Hin') as [Hj Hd]. split; [exact Hj |].
        rewrite lookup_insert_ne; [exact Hd |]. intros <-.
        apply List.in_app_iff in Hin as [Hin | Hin].
        -- apply Hib. apply list_elem_of_In, List.in_map_iff. exists (i, v). auto.
        -- apply Hia. apply list_elem_of_In, List.in_map_iff. exists (i, v). auto.
      * intros j Hj. destruct (Nat.eq_dec i j) as [<- | Hne]; [tauto |].
        rewrite lookup_insert_ne in Hj by exact Hne. apply Hdone. exact Hj.
      * rewrite map_size_insert_None by tauto.
        rewrite List.length_app in *. cbn [length] in Hsize. lia.
Qed.

Lemma pool_books_runs (n : Z) (worker : string -> result site_result)
    (urls : list string) (p p' : pool) :
  runs n worker p p' -> pool_books urls p -> pool_books urls p'.
Proof.
  induction 1 as [| p p' p'' Hstep _ IH]; [auto |].
  intros Hinv. apply IH. eapply pool_books_step; eassumption.
Qed.

Lemma pool_bound_runs (n : Z) (worker : string -> result site_result) (p p' : pool) :
  runs n worker p p' ->
  (Z.of_nat (length (running p)) <= Z.max n 0)%Z ->
  (Z.of_nat (length (running p')) <= Z.max n 0)%Z.
Proof.
  induction 1 as [| p p' p'' Hstep _ IH]; [auto |].
  intros H. apply IH.
  destruct Hstep as [item q r d Hfree | i url q before after d];
    cbn [queue running done] in *.
  - rewrite List.length_app. cbn [length]. lia.
  - rewrite List.length_app in *. cbn [length] in H. lia.
Qed.

(** X18: in every state that the pool reaches from the submissions,
    whatever the schedule: at most [max_workers] work items are running;
    no submission number is queued or running twice; a queued or running
    item has no outcome yet; and the queued, the running and the finished
    items together are as many as the URLs. *)
Theorem pool_accounts_for_every_url (n : Z) (worker : string -> result site_result)
    (urls : list string) (p : pool) :
  runs n worker (submit_all urls) p ->
  (Z.of_nat (length (running p)) <= Z.max n 0)%Z
  /\ NoDup (map fst (queue p ++ running p))
  /\ (forall i u, In (i, u) (queue p ++ running p) -> done p !! i = None)
  /\ (length (queue p) + length (running p) + size (done p) = length urls)%nat.
Proof.
  intros Hruns. split.
  - apply (pool_bound_runs n worker (submit_all urls) p Hruns). cbn. lia.
  - destruct (pool_books_runs n worker urls _ _ Hruns (pool_books_init urls))
      as (k & rest & Hq & Hlen & Hnd & Hrun & Hdone & Hsize).
    assert (Hqk : forall i u, In (i, u) (queue p) -> (k <= i)%nat).
    { intros i u H. rewrite Hq in H. apply enumerate_from_ge in H. exact H. }
    split; [| split].
    + rewrite map_app. apply NoDup_app. split; [| split; [| exact Hnd]].
      * rewrite Hq. clear. revert k. induction rest as [| u rest IH]; intros k.
        -- constructor.
        -- cbn [enumerate_from map fst]. apply NoDup_cons. split; [| apply IH].
           intros H. apply list_elem_of_In, List.in_map_iff in H as ([j v] & Ej & Hin).
           cbn [fst] in Ej. subst j. apply enumerate_from_ge in Hin. lia.
      * intros i Hi Hi'.
        apply list_elem_of_In, List.in_map_iff in Hi as ([j v] & Ej & Hin).
        apply list_elem_of_In, List.in_map_iff in Hi' as ([j' v'] & Ej' & Hin').
        cbn [fst] in *. subst. apply Hqk in Hin. apply Hrun in Hin'. lia.
    + intros i u Hin. apply List.in_app_iff in Hin as [Hin | Hin].
      * apply Hqk in Hin. destruct (done p !! i) as [x |] eqn:E; [| reflexivity].
        assert (i < k)%nat by (apply Hdone; eexists; exact E). lia.
      * apply (Hrun i u Hin).
    + rewrite Hq, enumerate_from_length. lia.
Qed.

Lemma pool_accounts_for_every_url_witness :
  exists p,
    runs 1 Sample.flaky_worker (submit_all Sample.urls) p
    /\ running p = [(0%nat, "shop.example")]
    /\ (Z.of_nat (length (running p)) <= Z.max 1 0)%Z
    /\ NoDup (map fst (queue p ++ running p))
    /\ (forall i u, In (i, u) (queue p ++ running p) -> done p !! i = None)
    /\ (length (queue p) + length (running p) + size (done p) = length Sample.urls)%nat.
Proof.
  assert (R : runs 1 Sample.flaky_worker (submit_all Sample.urls)
                (Pool [(1%nat, "nowhere.example")] [(0%nat, "shop.example")] ∅)).
  { eapply rtc_l; [| apply rtc_refl].
    apply (step_start 1 Sample.flaky_worker (0%nat, "shop.example")
             [(1%nat, "nowhere.example")] [] ∅).
    cbn [length]. lia. }
  eexists. split; [exact R |]. split; [reflexivity |].
  exact (pool_accounts_for_every_url 1 Sample.flaky_worker Sample.urls _ R).
Defined.
